(** * The wallet client of [lib/client/api.js]

    A shallow embedding of the client API of the multi-signature wallet
    service, and the properties of its specification that concern it.

    Conventions of the embedding.

    - A JavaScript callback chain is run to completion as one sequential
      computation over a [World]: the wallet file behind [storage], the
      replies the transport will give (in arrival order), the entropy
      behind freshly generated keys, and a chronological [log] of what the
      client did (loads, saves, requests, key derivations, signing).
    - A field that may be [undefined] is an [option]; numbers are integers.
    - What [api.js] takes from other modules ([WalletUtils], [Verifier],
      Bitcore, [JSON]) is a field of the class [Collaborators]; a function
      that can throw returns an [option].
    - An operation ends by calling its callback ([Called]) or by a
      JavaScript exception ([Threw]).  Where a reply with status 200 has
      a shape the wire contract excludes and lodash would iterate over
      whatever it got, the embedding says so ([Unmodelled]). *)

From stdpp Require Import base option list strings pretty gmap sorting.
From Stdlib Require Import ZArith Ascii.

Set Warnings "-register-all,-clear-no-such-hyp".

(** ** JavaScript values that are serialized *)

(** Request bodies, error bodies and the exported array. *)
Inductive JVal :=
  | JUndefined
  | JNull
  | JBool (b : bool)
  | JNum (z : Z)
  | JStr (s : string)
  | JArr (items : list JVal)
  | JObj (fields : list (string * JVal)).

Definition jstr (o : option string) : JVal :=
  match o with Some s => JStr s | None => JUndefined end.

Definition jnum (o : option Z) : JVal :=
  match o with Some z => JNum z | None => JUndefined end.

(** [!!v] *)
Definition truthy (v : JVal) : bool :=
  match v with
  | JUndefined | JNull => false
  | JBool b => b
  | JNum z => negb (z =? 0)%Z
  | JStr s => negb (String.eqb s "")
  | JArr _ | JObj _ => true
  end.

Definition truthy_str (o : option string) : bool := truthy (jstr o).
Definition truthy_num (o : option Z) : bool := truthy (jnum o).

Fixpoint assoc (k : string) (fields : list (string * JVal)) : JVal :=
  match fields with
  | [] => JUndefined
  | (k', v) :: rest => if String.eqb k k' then v else assoc k rest
  end.

(** [v[k]] for a property name [k] that no prototype defines; [None] is
    the TypeError of reading a property of [undefined] or [null]. *)
Definition jprop (v : JVal) (k : string) : option JVal :=
  match v with
  | JUndefined | JNull => None
  | JObj fields => Some (assoc k fields)
  | _ => Some JUndefined
  end.

(** The names that every object inherits from [Object.prototype]: for
    an object literal [o] and such a name, [o[name]] is a function (for
    [__proto__], the prototype), and so it is truthy though nothing was
    stored at the name. *)
Definition inherited (name : string) : bool :=
  bool_decide
    (name ∈ ["constructor"; "hasOwnProperty"; "isPrototypeOf"; "propertyIsEnumerable";
             "toLocaleString"; "toString"; "valueOf"; "__defineGetter__";
             "__defineSetter__"; "__lookupGetter__"; "__lookupSetter__"; "__proto__"]).

(** [a || b] *)
Definition jor (a b : JVal) : JVal := if truthy a then a else b.

(** [String.prototype.toLowerCase], on ASCII. *)
Definition lower_ascii (c : ascii) : ascii :=
  let k := nat_of_ascii c in
  if (65 <=? k)%nat && (k <=? 90)%nat then ascii_of_nat (k + 32) else c.

Fixpoint toLowerCase (s : string) : string :=
  match s with
  | EmptyString => EmptyString
  | String c rest => String (lower_ascii c) (toLowerCase rest)
  end.

(** ** Data model *)

(** The wallet file: the object [_initData] builds and [storage] keeps. *)
Module Data.
Record t := mk {
  copayerId : option string;
  xPrivKey : option string;
  publicKeyRing : option (list string);
  network : option string;
  m : option Z;
  n : option Z;
  roPrivKey : option string;
  rwPrivKey : option string;
  walletPrivKey : option string;
  sharedEncryptingKey : option string
}.

(** [{}] *)
Definition empty : t := mk None None None None None None None None None None.

Definition set_publicKeyRing (ring : option (list string)) (d : t) : t :=
  mk (copayerId d) (xPrivKey d) ring (network d) (m d) (n d)
     (roPrivKey d) (rwPrivKey d) (walletPrivKey d) (sharedEncryptingKey d).

Definition set_m (v : option Z) (d : t) : t :=
  mk (copayerId d) (xPrivKey d) (publicKeyRing d) (network d) v (n d)
     (roPrivKey d) (rwPrivKey d) (walletPrivKey d) (sharedEncryptingKey d).

Definition set_n (v : option Z) (d : t) : t :=
  mk (copayerId d) (xPrivKey d) (publicKeyRing d) (network d) (m d) v
     (roPrivKey d) (rwPrivKey d) (walletPrivKey d) (sharedEncryptingKey d).

Definition set_network (v : option string) (d : t) : t :=
  mk (copayerId d) (xPrivKey d) (publicKeyRing d) v (m d) (n d)
     (roPrivKey d) (rwPrivKey d) (walletPrivKey d) (sharedEncryptingKey d).
End Data.

(** The server's view of a wallet, [ret.wallet]. *)
Module Wallet.
Record copayer := mkCopayer {
  xPubKey : string;
  xPubKeySignature : string
}.

Record t := mk {
  status : option string;
  copayers : list copayer;
  m : option Z;
  n : option Z
}.
End Wallet.

Record AddressRecord := {
  address : string;
  addressPath : string;
  addressKeys : list string
}.

Record Input := {
  path : string;
  publicKeys : list string;
  txid : string;
  vout : Z
}.

Record Action := {
  actionCopayerId : string;
  actionType : string;
  comment : option string
}.

Record TxProposal := {
  txpId : string;
  creatorId : option string;
  toAddress : string;
  amount : Z;
  changeAddress : AddressRecord;
  requiredSignatures : Z;
  inputs : list Input;
  message : option string;
  encryptedMessage : option string;
  actions : list Action
}.

(** The wallet secret, as [WalletUtils.fromSecret] returns it. *)
Record SecretData := {
  secretWalletId : string;
  secretWalletPrivKey : string;
  secretNetwork : string
}.

(** A Bitcore transaction under construction: the calls [from], [to] and
    [change] made on it, in order. *)
Record Transaction := {
  txFrom : list (Input * list string * Z);
  txTo : string * Z;
  txChange : string
}.

(** One entry of [t.getSignatures(priv)]; [signature] is the result of
    [s.signature.toDER().toString('hex')]. *)
Record TxSignature := {
  inputIndex : nat;
  signature : string
}.

(** The body of a reply.  The typed constructors are the objects and
    arrays of the wire contract; [BJson] is any other JSON value (an error
    object, a balance, text the transport could not parse), one that has
    none of the properties [walletId], [wallet] and [pendingTxps]. *)
Inductive Body :=
  | BUndefined
  | BJson (j : JVal)
  | BCreated (walletId : string)
  | BStatus (wallet : Wallet.t) (pendingTxps : option (list TxProposal))
  | BAddress (a : AddressRecord)
  | BAddresses (l : list AddressRecord)
  | BTxps (l : list TxProposal).

Inductive Reply :=
  | TransportFailure (err : string)
  | Response (statusCode : Z) (body : Body).

Record Request := {
  relUrl : string;
  x_identity : option string;
  x_signature : option string;
  method : string;
  url : string;
  body : JVal
}.

(** ** Errors and outcomes *)

Inductive Exn :=
  | TypeError (what : string)
  | ArgumentError (what : string)
  | SyntaxError
  | LibraryError (what : string).

Inductive Error :=
  | ErrString (s : string)
  | ErrServer (code message : JVal)
  | ServerCompromisedError (msg : string)
  | ErrTransport (e : string)
  | ErrStorage (e : string)
  | ErrException (e : Exn).

(** What a callback receives after [err]. *)
Inductive Result :=
  | RNothing
  | RBody (b : Body)
  | RStatus (b : Body) (copayerId : option string)
  | RSecret (secret : option string)
  | RTxps (txps : list TxProposal) (rawTxps : option (list TxProposal))
  | RText (s : string).

Inductive Outcome :=
  | Called (err : option Error) (res : Result)
  | Threw (e : Exn)
  | Unmodelled.

(** ** The world an operation runs in *)

Inductive Event :=
  | EvLoad
  | EvSave (d : Data.t)
  | EvRequest (r : Request)
  | EvGenerateKey
  | EvDerive (xpriv path : string)
  | EvGetSignatures (priv : string).

Record World := {
  baseUrl : string;
  basePath : string;
  storageName : string;
  loadErr : option Error;
  stored : option Data.t;
  saveErr : option Error;
  replies : list Reply;
  entropy : nat -> string;
  drawn : nat;
  log : list Event
}.

Definition with_log (l : list Event) (w : World) : World :=
  {| baseUrl := baseUrl w; basePath := basePath w; storageName := storageName w;
     loadErr := loadErr w; stored := stored w; saveErr := saveErr w;
     replies := replies w; entropy := entropy w; drawn := drawn w; log := l |}.

Definition with_stored (d : option Data.t) (w : World) : World :=
  {| baseUrl := baseUrl w; basePath := basePath w; storageName := storageName w;
     loadErr := loadErr w; stored := d; saveErr := saveErr w;
     replies := replies w; entropy := entropy w; drawn := drawn w; log := log w |}.

Definition with_replies (r : list Reply) (w : World) : World :=
  {| baseUrl := baseUrl w; basePath := basePath w; storageName := storageName w;
     loadErr := loadErr w; stored := stored w; saveErr := saveErr w;
     replies := r; entropy := entropy w; drawn := drawn w; log := log w |}.

Definition with_drawn (k : nat) (w : World) : World :=
  {| baseUrl := baseUrl w; basePath := basePath w; storageName := storageName w;
     loadErr := loadErr w; stored := stored w; saveErr := saveErr w;
     replies := replies w; entropy := entropy w; drawn := k; log := log w |}.

(** ** Computations that end in a callback *)

Inductive Step (A : Type) :=
  | Next (a : A)
  | Stop (o : Outcome).
Arguments Next {A} a.
Arguments Stop {A} o.

Definition M (A : Type) : Type := World -> Step A * World.

Definition ret {A} (a : A) : M A := fun w => (Next a, w).

Definition bind {A B} (c : M A) (k : A -> M B) : M B :=
  fun w =>
    match c w with
    | (Next a, w') => k a w'
    | (Stop o, w') => (Stop o, w')
    end.

Notation "'do' x <- c ; k" := (bind c (fun x => k))
  (at level 10, x name, c at level 100, k at level 200).
Notation "'do' ' p <- c ; k" := (bind c (fun x => match x with p => k end))
  (at level 10, p pattern, c at level 100, k at level 200).

(** [return cb(err, res)] *)
Definition callback {A} (err : option Error) (res : Result) : M A :=
  fun w => (Stop (Called err res), w).

Definition throw {A} (e : Exn) : M A := fun w => (Stop (Threw e), w).

Definition unmodelled {A} : M A := fun w => (Stop Unmodelled, w).

Definition emit (e : Event) : M unit :=
  fun w => (Next tt, with_log (log w ++ [e]) w).

(** [storage.load(cb)]: the callback gets the pair [(err, data)]. *)
Definition storage_load : M (option Error * option Data.t) :=
  do _ <- emit EvLoad;
  fun w => (Next (loadErr w, stored w), w).

(** [storage.save(data, cb)]: the file is replaced unless the save fails. *)
Definition storage_save (d : Data.t) : M (option Error) :=
  do _ <- emit (EvSave d);
  fun w =>
    match saveErr w with
    | Some e => (Next (Some e), w)
    | None => (Next None, with_stored (Some d) w)
    end.

(** [this.request(args, cb)]: the request goes out, and later its reply
    arrives; a transport with nothing left to say refuses the connection. *)
Definition issue (r : Request) : M unit := emit (EvRequest r).

Definition receive : M Reply :=
  fun w =>
    match replies w with
    | [] => (Next (TransportFailure "ECONNREFUSED"), w)
    | reply :: rest => (Next reply, with_replies rest w)
    end.

Definition request (r : Request) : M Reply :=
  do _ <- issue r;
  receive.

(** Entropy for [new Bitcore.PrivateKey()] and [new Bitcore.HDPrivateKey(network)]. *)
Definition generate : M string :=
  do _ <- emit EvGenerateKey;
  fun w => (Next (entropy w (drawn w)), with_drawn (S (drawn w)) w).

Definition this_baseUrl : M string := fun w => (Next (baseUrl w), w).
Definition this_basePath : M string := fun w => (Next (basePath w), w).
Definition storage_getName : M string := fun w => (Next (storageName w), w).

(** ** What [api.js] requires from other modules *)

Class Collaborators := {
  (** [JSON.stringify] and [JSON.parse] ([None]: it throws). *)
  JSON_stringify : JVal -> string;
  JSON_parse : string -> option JVal;

  (** [WalletUtils] *)
  signMessage : string -> string -> string;
  encryptMessage : string -> option string -> string;
  decryptMessage : string -> option string -> option string;
  getProposalHash : string -> Z -> option string -> string;
  xPubToCopayerId : string -> string;
  toSecret : option string -> string -> string -> string;
  fromSecret : string -> option SecretData;
  accessFromData : Data.t -> string;

  (** [Verifier] *)
  checkCopayers :
    list Wallet.copayer -> option string -> option string -> option Z -> bool;
  checkAddress : Data.t -> AddressRecord -> bool;
  checkTxProposal : Data.t -> TxProposal -> bool;

  (** Bitcore.  Keys are handled through their serializations:
      [newPrivateKey e] and [newHDPrivateKey network e] are the keys
      generated from entropy [e]; [HDPrivateKey s network] parses [s];
      [HDPublicKey s] is [(new Bitcore.HDPublicKey(s)).toString()];
      [derive k p] is [k.derive(p).privateKey]. *)
  newPrivateKey : string -> string;
  newHDPrivateKey : option string -> string -> string;
  HDPrivateKey : option string -> option string -> option string;
  HDPublicKey : option string -> option string;
  derive : string -> string -> option string;
  toWIF : string -> string;
  toPublicKey : string -> string;
  sha256_16_base64 : string -> string;
  addressNetwork : string -> option string;
  getSignatures : Transaction -> string -> list TxSignature
}.

(** ** [lib/client/api.js] *)

Section API.
Context `{Collaborators}.

Definition WALLET_INCOMPLETE : string := "Wallet Incomplete".
Definition COPAYERS_NOT_VERIFIED : string :=
  "Copayers in the wallet could not be verified to have known the wallet secret".
Definition FAKE_ADDRESS : string := "Server sent fake address".
Definition FAKE_PROPOSAL : string := "Server sent fake transaction proposal".

Definition _encryptMessage (message encryptingKey : option string) : option string :=
  match message with
  | Some s => if truthy_str message then Some (encryptMessage s encryptingKey) else None
  | None => None
  end.

Definition _decryptMessage (message encryptingKey : option string) : string :=
  match message with
  | Some s =>
      if truthy_str message then
        match decryptMessage s encryptingKey with
        | Some plain => plain
        | None => "<ECANNOTDECRYPT>"
        end
      else ""
  | None => ""
  end.

Definition processAction (encryptingKey : option string) (a : Action) : Action :=
  {| actionCopayerId := actionCopayerId a;
     actionType := actionType a;
     comment := Some (_decryptMessage (comment a) encryptingKey) |}.

Definition processTxp (encryptingKey : option string) (txp : TxProposal) : TxProposal :=
  {| txpId := txpId txp;
     creatorId := creatorId txp;
     toAddress := toAddress txp;
     amount := amount txp;
     changeAddress := changeAddress txp;
     requiredSignatures := requiredSignatures txp;
     inputs := inputs txp;
     message := Some (_decryptMessage (message txp) encryptingKey);
     encryptedMessage := message txp;
     actions := map (processAction encryptingKey) (actions txp) |}.

(** The proposals are objects updated in place; the result is the array
    after the updates. *)
Definition _processTxps (txps : list TxProposal) (encryptingKey : option string)
  : list TxProposal :=
  map (processTxp encryptingKey) txps.

Definition UNKNOWN_ERROR : string :=
  "There was an unknown error processing the request".

Definition errorOf (b : JVal) : M Error :=
  match jprop b "code", jprop b "error" with
  | Some code, Some error =>
      ret (ErrServer (jor code (JStr "ERROR")) (jor error (JStr UNKNOWN_ERROR)))
  | _, _ => throw (TypeError "body.code")
  end.

Definition _parseError (b : Body) : M Error :=
  match b with
  | BUndefined => throw (TypeError "body.code")
  | BJson (JStr s) =>
      match JSON_parse s with
      | Some parsed => errorOf parsed
      | None => errorOf (JObj [("error", JStr s)])
      end
  | BJson j => errorOf j
  | BCreated _ | BStatus _ _ | BAddress _ | BAddresses _ | BTxps _ =>
      errorOf (JObj [])
  end.

Definition _signRequest (method url : string) (args : JVal) (privKey : string) : string :=
  signMessage (toLowerCase method +:+ "|" +:+ url +:+ "|" +:+ JSON_stringify args) privKey.

(** [_tryToComplete], [_load] and [_loadAndCheck] are below [_doRequest],
    which they use.  [_doRequest] hands [(err, body)] to its callback. *)
Definition reqSignature (method url : string) (args : JVal) (data : Data.t)
  : option string :=
  if String.eqb method "get" then
    match Data.roPrivKey data with
    | Some k => if truthy_str (Data.roPrivKey data)
                then Some (_signRequest method url args k) else None
    | None => None
    end
  else
    match Data.rwPrivKey data with
    | Some k => if truthy_str (Data.rwPrivKey data)
                then Some (_signRequest method url args k) else None
    | None => None
    end.

Definition requestArgs (base basep method url : string) (args : JVal) (data : Data.t)
  : Request :=
  {| relUrl := basep +:+ url;
     x_identity := Data.copayerId data;
     x_signature := reqSignature method url args data;
     method := method;
     url := base +:+ url;
     body := args |}.

Definition _doRequest (method url : string) (args : JVal) (data : Data.t)
  : M (option Error * Body) :=
  do base <- this_baseUrl;
  do basep <- this_basePath;
  do reply <- request (requestArgs base basep method url args data);
  match reply with
  | TransportFailure err => ret (Some (ErrTransport err), BUndefined)
  | Response statusCode b =>
      if negb (statusCode =? 200)%Z then
        do e <- _parseError b;
        ret (Some e, BUndefined)
      else ret (None, b)
  end.

Definition _doPostRequest (url : string) (args : JVal) (data : Data.t)
  : M (option Error * Body) :=
  _doRequest "post" url args data.

Definition _doGetRequest (url : string) (data : Data.t) : M (option Error * Body) :=
  _doRequest "get" url (JObj []) data.

(** [body.wallet]: [None] is a TypeError, [Some None] is [undefined]. *)
Definition body_wallet (b : Body) : option (option Wallet.t) :=
  match b with
  | BUndefined | BJson JUndefined | BJson JNull => None
  | BStatus wallet _ => Some (Some wallet)
  | _ => Some None
  end.

(** [body.walletId] *)
Definition body_walletId (b : Body) : option (option string) :=
  match b with
  | BUndefined | BJson JUndefined | BJson JNull => None
  | BCreated walletId => Some (Some walletId)
  | _ => Some None
  end.

Definition _tryToComplete (data : Data.t) : M Data.t :=
  do '(err, ret_) <- _doGetRequest "/v1/wallets/" data;
  match err with
  | Some e => callback (Some e) RNothing
  | None =>
      match body_wallet ret_ with
      | Some (Some wallet) =>
          if negb (bool_decide (Wallet.status wallet = Some "complete")) then
            callback (Some (ErrString WALLET_INCOMPLETE)) RNothing
          else if negb (checkCopayers (Wallet.copayers wallet) (Data.walletPrivKey data)
                          (Data.xPrivKey data) (Data.n data)) then
            callback (Some (ServerCompromisedError COPAYERS_NOT_VERIFIED)) RNothing
          else
            let data' :=
              Data.set_publicKeyRing
                (Some (map Wallet.xPubKey (Wallet.copayers wallet))) data in
            do err <- storage_save data';
            match err with
            | Some e => callback (Some e) RNothing
            | None => ret data'
            end
      | _ => throw (TypeError "wallet.status")
      end
  end.

Definition _load : M Data.t :=
  do '(err, data) <- storage_load;
  match err, data with
  | Some e, _ => callback (Some e) RNothing
  | None, None => callback (Some (ErrString "Wallet file not found.")) RNothing
  | None, Some d => ret d
  end.

(** [data.publicKeyRing && data.m && data.publicKeyRing.length === data.n] *)
Definition pkrComplete (data : Data.t) : bool :=
  match Data.publicKeyRing data with
  | Some ring =>
      truthy_num (Data.m data)
      && bool_decide (Data.n data = Some (Z.of_nat (length ring)))
  | None => false
  end.

(** [data.n > 1] *)
Definition n_gt_1 (data : Data.t) : bool :=
  match Data.n data with
  | Some n => (1 <? n)%Z
  | None => false
  end.

Definition _loadAndCheck : M Data.t :=
  do data <- _load;
  if n_gt_1 data then
    if negb (pkrComplete data) then _tryToComplete data else ret data
  else ret data.

(** An operation of the API: it ends in its callback or in an exception. *)
Definition Op : Type := M Empty_set.

(** [cb] handed to [_doRequest] as it is: [cb(err)] or [cb(null, body)]. *)
Definition handOver (r : option Error * Body) : Op :=
  match r with
  | (Some e, _) => callback (Some e) RNothing
  | (None, b) => callback None (RBody b)
  end.

Definition compromised {A} (msg : string) : M A :=
  callback (Some (ServerCompromisedError msg)) RNothing.

(** [new Bitcore.HDPrivateKey(arg, network)].  The constructor reads a
    serialized key; given nothing, or the name of a network as in
    [_initData], it makes a fresh key instead.  (A network name is not a
    serialized key, so it does not matter that the key is tried
    first.) *)
Definition networkName (arg : option string) : bool :=
  bool_decide (arg = Some "livenet") || bool_decide (arg = Some "testnet").

Definition new_HDPrivateKey (arg network : option string) : M string :=
  match HDPrivateKey arg network with
  | Some xpriv => ret xpriv
  | None =>
      if negb (truthy_str arg) || networkName arg then
        do e <- generate;
        ret (newHDPrivateKey arg e)
      else throw (LibraryError "HDPrivateKey")
  end.

(** [xpriv.derive(path).privateKey] *)
Definition deriveKey (xpriv path : string) : M string :=
  do _ <- emit (EvDerive xpriv path);
  match derive xpriv path with
  | Some k => ret k
  | None => throw (LibraryError "derive")
  end.

Definition _initData (network : option string) (walletPrivKey : string)
    (m n : option Z) : M Data.t :=
  do e <- generate;
  let xPrivKey := newHDPrivateKey network e in
  match HDPublicKey (Some xPrivKey) with
  | None => throw (LibraryError "HDPublicKey")
  | Some xPubKey =>
      do roPrivKey <- deriveKey xPrivKey "m/1/0";
      do rwPrivKey <- deriveKey xPrivKey "m/1/1";
      ret (Data.mk (Some (xPubToCopayerId xPubKey)) (Some xPrivKey) (Some [xPubKey])
             network m n (Some (toWIF roPrivKey)) (Some (toWIF rwPrivKey))
             (Some (toWIF walletPrivKey)) (Some (sha256_16_base64 walletPrivKey)))
  end.

(** ['/v1/wallets/' + walletId + '/copayers'] *)
Definition show (o : option string) : string :=
  match o with Some s => s | None => "undefined" end.

Definition joinArgs (walletId : option string) (walletPrivKey xPubKey copayerName : string)
  : JVal :=
  JObj [("walletId", jstr walletId); ("name", JStr copayerName);
        ("xPubKey", JStr xPubKey);
        ("xPubKeySignature", JStr (signMessage xPubKey walletPrivKey))].

Definition joinReply (r : option Error * Body) : M (option Error * option Wallet.t) :=
  match r with
  | (Some e, _) => ret (Some e, None)
  | (None, b) =>
      match body_wallet b with
      | Some wallet => ret (None, wallet)
      | None => throw (TypeError "body.wallet")
      end
  end.

Definition _doJoinWallet (walletId : option string)
    (walletPrivKey xPubKey copayerName : string) : M (option Error * option Wallet.t) :=
  do r <- _doPostRequest ("/v1/wallets/" +:+ show walletId +:+ "/copayers")
            (joinArgs walletId walletPrivKey xPubKey copayerName) Data.empty;
  joinReply r.

(** [data.publicKeyRing[0]] of the data [_initData] made. *)
Definition firstKey (data : Data.t) : M string :=
  match Data.publicKeyRing data with
  | Some (k :: _) => ret k
  | _ => unmodelled
  end.

Definition createArgs (walletName : string) (m n : option Z)
    (walletPrivKey : string) (network : option string) : JVal :=
  JObj [("name", JStr walletName); ("m", jnum m); ("n", jnum n);
        ("pubKey", JStr (toPublicKey walletPrivKey)); ("network", jstr network)].

Definition createWallet (walletName copayerName : string) (m n : Z)
    (network : option string) : Op :=
  let network := if truthy_str network then network else Some "livenet" in
  if negb (bool_decide (network = Some "testnet") || bool_decide (network = Some "livenet"))
  then callback (Some (ErrString "Invalid network")) RNothing
  else
    do '(_, data) <- storage_load;
    match data with
    | Some _ =>
        do name <- storage_getName;
        callback (Some (ErrString (name +:+ " already contains a wallet"))) RNothing
    | None =>
        do e <- generate;
        let walletPrivKey := newPrivateKey e in
        do '(err, b) <- _doPostRequest "/v1/wallets/"
                          (createArgs walletName (Some m) (Some n) walletPrivKey network)
                          Data.empty;
        match err with
        | Some e => callback (Some e) RNothing
        | None =>
            match body_walletId b with
            | None => throw (TypeError "body.walletId")
            | Some walletId =>
                let secret := toSecret walletId walletPrivKey (show network) in
                do data <- _initData network walletPrivKey (Some m) (Some n);
                do xPubKey <- firstKey data;
                do '(err, _) <- _doJoinWallet walletId walletPrivKey xPubKey copayerName;
                match err with
                | Some e => callback (Some e) RNothing
                | None =>
                    do err <- storage_save data;
                    callback err (RSecret (if (1 <? n)%Z then Some secret else None))
                end
            end
        end
    end.

(** [async.each] starts one join per key of the ring, all at once; the
    replies are then taken in arrival order and the first error ends the
    operation. *)
Fixpoint issueJoins (base basep : string) (walletId : option string)
    (walletPrivKey : string) (ring : list string) (i : nat) : M unit :=
  match ring with
  | [] => ret tt
  | xpub :: rest =>
      let copayerName := "recovered Copayer #" +:+ pretty i in
      do _ <- issue (requestArgs base basep "post"
                       ("/v1/wallets/" +:+ show walletId +:+ "/copayers")
                       (joinArgs walletId walletPrivKey xpub copayerName) Data.empty);
      issueJoins base basep walletId walletPrivKey rest (S i)
  end.

Fixpoint awaitJoins (pending : nat) : Op :=
  match pending with
  | O => callback None RNothing
  | S pending' =>
      do reply <- receive;
      match reply with
      | TransportFailure err => callback (Some (ErrTransport err)) RNothing
      | Response statusCode b =>
          if negb (statusCode =? 200)%Z then
            do e <- _parseError b;
            callback (Some e) RNothing
          else
            do _ <- joinReply (None, b);
            awaitJoins pending'
      end
  end.

Definition reCreateWallet (walletName : string) : Op :=
  do data <- _loadAndCheck;
  do e <- generate;
  let walletPrivKey := newPrivateKey e in
  do '(err, b) <- _doPostRequest "/v1/wallets/"
                    (createArgs walletName (Data.m data) (Data.n data) walletPrivKey
                       (Data.network data))
                    Data.empty;
  match err with
  | Some e => callback (Some e) RNothing
  | None =>
      match body_walletId b with
      | None => throw (TypeError "body.walletId")
      | Some walletId =>
          match Data.publicKeyRing data with
          | None => unmodelled
          | Some ring =>
              do base <- this_baseUrl;
              do basep <- this_basePath;
              do _ <- issueJoins base basep walletId walletPrivKey ring 0;
              awaitJoins (length ring)
          end
      end
  end.

Definition joinWallet (secret copayerName : string) : Op :=
  do '(_, data) <- storage_load;
  match data with
  | Some _ => callback (Some (ErrString "Storage already contains a wallet")) RNothing
  | None =>
      match fromSecret secret with
      | None => callback (Some (ErrException (LibraryError "fromSecret"))) RNothing
      | Some secretData =>
          do data <- _initData (Some (secretNetwork secretData))
                       (secretWalletPrivKey secretData) None None;
          do xPubKey <- firstKey data;
          do '(err, wallet) <- _doJoinWallet (Some (secretWalletId secretData))
                                 (secretWalletPrivKey secretData) xPubKey copayerName;
          match err, wallet with
          | Some e, _ => callback (Some e) RNothing
          | None, None => throw (TypeError "wallet.m")
          | None, Some wallet =>
              do err <- storage_save
                          (Data.set_n (Wallet.n wallet) (Data.set_m (Wallet.m wallet) data));
              callback err RNothing
          end
      end
  end.

Definition getStatus : Op :=
  do data <- _load;
  do '(err, result) <- _doGetRequest "/v1/wallets/" data;
  match result with
  | BStatus wallet (Some txps) =>
      callback err
        (RStatus (BStatus wallet (Some (_processTxps txps (Data.sharedEncryptingKey data))))
           (Data.copayerId data))
  | _ => throw (TypeError "result.pendingTxps")
  end.

Record SendOpts := {
  opts_toAddress : string;
  opts_amount : Z;
  opts_message : option string
}.

Definition proposalArgs (opts : SendOpts) (data : Data.t) (rwPrivKey : string) : JVal :=
  let message := _encryptMessage (opts_message opts) (Data.sharedEncryptingKey data) in
  let hash := getProposalHash (opts_toAddress opts) (opts_amount opts) message in
  JObj [("toAddress", JStr (opts_toAddress opts));
        ("amount", JNum (opts_amount opts));
        ("message", match message with Some c => JStr c | None => JNull end);
        ("proposalSignature", JStr (signMessage hash rwPrivKey))].

Definition sendTxProposal (opts : SendOpts) : Op :=
  do data <- _loadAndCheck;
  match Data.rwPrivKey data with
  | Some rwPrivKey =>
      if truthy_str (Data.rwPrivKey data) then
        do r <- _doPostRequest "/v1/txproposals/" (proposalArgs opts data rwPrivKey) data;
        handOver r
      else callback (Some (ErrString "No key to generate proposals")) RNothing
  | None => callback (Some (ErrString "No key to generate proposals")) RNothing
  end.

Definition createAddress : Op :=
  do data <- _loadAndCheck;
  do '(err, address) <- _doPostRequest "/v1/addresses/" (JObj []) data;
  match err with
  | Some e => callback (Some e) RNothing
  | None =>
      match address with
      | BAddress a =>
          if negb (checkAddress data a) then compromised FAKE_ADDRESS
          else callback None (RBody address)
      | _ => unmodelled
      end
  end.

Definition getMainAddresses (doNotVerify : bool) : Op :=
  do data <- _loadAndCheck;
  do '(err, addresses) <- _doGetRequest "/v1/addresses/" data;
  match err with
  | Some e => callback (Some e) RNothing
  | None =>
      if negb doNotVerify then
        match addresses with
        | BAddresses l =>
            if existsb (fun a => negb (checkAddress data a)) l
            then compromised FAKE_ADDRESS
            else callback None (RBody addresses)
        | BTxps [] | BUndefined => callback None (RBody addresses)
        | _ => unmodelled
        end
      else callback None (RBody addresses)
  end.

Definition getBalance : Op :=
  do data <- _loadAndCheck;
  do r <- _doGetRequest "/v1/balance/" data;
  handOver r.

(** [_.without(ring, myXPubKey)] *)
Definition without (ring : option (list string)) (key : string) : list string :=
  match ring with
  | Some l => filter (fun k => k <> key) l
  | None => []
  end.

Definition jring (ring : option (list string)) : JVal :=
  match ring with
  | Some l => JArr (map JStr l)
  | None => JUndefined
  end.

(** The array [v] that [export] serializes. *)
Definition exported (access : string) (data : Data.t) (myXPubKey : string) : JVal :=
  let full := String.eqb access "full" in
  JArr ([ (if negb full then JNull else jstr (Data.xPrivKey data));
          jnum (Data.m data);
          (if full then JArr (map JStr (without (Data.publicKeyRing data) myXPubKey))
           else jring (Data.publicKeyRing data));
          jstr (Data.sharedEncryptingKey data) ]
        ++ (if negb full then
              [jstr (Data.copayerId data); jstr (Data.roPrivKey data)]
              ++ (if String.eqb access "readwrite"
                  then [jstr (Data.rwPrivKey data)] else [])
            else [])).

Definition export (access : option string) : Op :=
  let access := if truthy_str access then show access else "full" in
  do data <- _loadAndCheck;
  match HDPublicKey (Data.xPrivKey data) with
  | None => throw (LibraryError "HDPublicKey")
  | Some myXPubKey =>
      callback None (RText (JSON_stringify (exported access data myXPubKey)))
  end.

(** Reading a field of the imported array into the wallet data; the
    outer [None] is a value of another type than the exporter writes. *)
Definition readStr (v : JVal) : option (option string) :=
  match v with
  | JStr s => Some (Some s)
  | JNull | JUndefined => Some None
  | _ => None
  end.

Definition readNum (v : JVal) : option (option Z) :=
  match v with
  | JNum z => Some (Some z)
  | JNull | JUndefined => Some None
  | _ => None
  end.

Fixpoint readKeys (items : list JVal) : option (list string) :=
  match items with
  | [] => Some []
  | JStr s :: rest =>
      match readKeys rest with
      | Some l => Some (s :: l)
      | None => None
      end
  | _ => None
  end.

Definition readRing (v : JVal) : option (option (list string)) :=
  match v with
  | JArr items =>
      match readKeys items with
      | Some l => Some (Some l)
      | None => None
      end
  | JNull | JUndefined => Some None
  | _ => None
  end.

(** [data[k] = inData[i++]] over WALLET_CRITICAL_DATA and
    WALLET_EXTRA_DATA; [n], [network] and [walletPrivKey] are not set. *)
Definition readData (items : list JVal) : option Data.t :=
  let at_ i := nth i items JUndefined in
  match readStr (at_ 0%nat), readNum (at_ 1%nat), readRing (at_ 2%nat),
        readStr (at_ 3%nat), readStr (at_ 4%nat), readStr (at_ 5%nat),
        readStr (at_ 6%nat) with
  | Some xPrivKey, Some m, Some ring, Some sharedEncryptingKey,
    Some copayerId, Some roPrivKey, Some rwPrivKey =>
      Some (Data.mk copayerId xPrivKey ring None m None roPrivKey rwPrivKey None
              sharedEncryptingKey)
  | _, _, _, _, _, _, _ => None
  end.

(** The [if (data.xPrivKey)] block of [import]. *)
Definition importOwnKey (data : Data.t) : M Data.t :=
  if truthy_str (Data.xPrivKey data) then
    do xpriv <- new_HDPrivateKey (Data.xPrivKey data) None;
    match HDPublicKey (Some xpriv) with
    | None => throw (LibraryError "HDPublicKey")
    | Some xPubKey =>
        match Data.publicKeyRing data with
        | None => throw (TypeError "data.publicKeyRing.unshift")
        | Some ring =>
            do roPrivKey <- deriveKey xpriv "m/1/0";
            do rwPrivKey <- deriveKey xpriv "m/1/1";
            ret (Data.mk (Some (xPubToCopayerId xPubKey)) (Data.xPrivKey data)
                   (Some (xPubKey :: ring)) (Data.network data) (Data.m data)
                   (Data.n data) (Some (toWIF roPrivKey)) (Some (toWIF rwPrivKey))
                   (Data.walletPrivKey data) (Data.sharedEncryptingKey data))
        end
    end
  else ret data.

Definition networkOf (xPubKey : string) : string :=
  if String.eqb (String.substring 0 4 xPubKey) "tpub" then "testnet" else "livenet".

Definition importData (inData : JVal) : Op :=
  match inData with
  | JArr items =>
      match readData items with
      | None => unmodelled
      | Some data =>
          do data <- importOwnKey data;
          match Data.publicKeyRing data with
          | None => throw (TypeError "data.publicKeyRing.length")
          | Some ring =>
              let data := Data.set_n (Some (Z.of_nat (length ring))) data in
              if negb (truthy_str (Data.copayerId data))
                 || negb (truthy_num (Data.n data))
                 || negb (truthy_num (Data.m data))
              then callback (Some (ErrString "Invalid source data")) RNothing
              else
                match ring with
                | [] => throw (TypeError "data.publicKeyRing[0].substr")
                | k :: _ =>
                    let data := Data.set_network (Some (networkOf k)) data in
                    do err <- storage_save data;
                    callback err (RText (accessFromData data))
                end
          end
      end
  | JNull | JUndefined => throw (TypeError "inData[0]")
  | JNum _ | JBool _ => throw (TypeError "data.publicKeyRing.length")
  | JStr _ | JObj _ => unmodelled
  end.

Definition import (str : string) : Op :=
  do '(_, data) <- storage_load;
  match data with
  | Some _ => callback (Some (ErrString "Storage already contains a wallet")) RNothing
  | None =>
      match JSON_parse str with
      | None => throw SyntaxError
      | Some inData => importData inData
      end
  end.

Definition parseTxProposals (txps : list TxProposal) : Op :=
  do data <- _load;
  if n_gt_1 data && negb (pkrComplete data) then
    callback (Some (ErrString WALLET_INCOMPLETE)) RNothing
  else
    let txps := _processTxps txps (Data.sharedEncryptingKey data) in
    if existsb (fun txp => negb (checkTxProposal data txp)) txps
    then compromised FAKE_PROPOSAL
    else callback None (RTxps txps None).

Definition verifyTxps (doNotVerify getRawTxps : bool) (data : Data.t)
    (l : list TxProposal) : Op :=
  let rawTxps := if getRawTxps then Some l else None in
  let txps := _processTxps l (Data.sharedEncryptingKey data) in
  if existsb (fun txp => negb doNotVerify && negb (checkTxProposal data txp)) txps
  then compromised FAKE_PROPOSAL
  else callback None (RTxps txps rawTxps).

Definition getTxProposals (doNotVerify getRawTxps : bool) : Op :=
  do data <- _loadAndCheck;
  do '(err, txps) <- _doGetRequest "/v1/txproposals/" data;
  match err with
  | Some e => callback (Some e) RNothing
  | None =>
      match txps with
      | BTxps l => verifyTxps doNotVerify getRawTxps data l
      | BAddresses [] => verifyTxps doNotVerify getRawTxps data []
      | BUndefined | BJson JUndefined =>
          if getRawTxps then throw SyntaxError else throw (TypeError "txp.message")
      | BJson JNull => throw (TypeError "txp.message")
      | BJson (JStr _) | BJson (JNum _) | BJson (JBool _) =>
          throw (TypeError "txp.encryptedMessage")
      | _ => unmodelled
      end
  end.

(** [!derived[path]] for the object [derived = {}] of [signTxProposal],
    which holds the keys stored at the paths of [derived]: the test
    fails at a path that has a key, and at a name that the object
    inherits. *)
Definition underived (derived : gmap string string) (path : string) : bool :=
  negb (inherited path) && bool_decide (derived !! path = None).

(** The first loop of [signTxProposal]: [derived] maps a path to its
    key, [privs] collects the keys in the order they were derived. *)
Fixpoint deriveKeys (xpriv : string) (ins : list Input)
    (derived : gmap string string) (privs : list string) : M (list string) :=
  match ins with
  | [] => ret privs
  | i :: rest =>
      if underived derived (path i) then
        do k <- deriveKey xpriv (path i);
        deriveKeys xpriv rest (<[path i := k]> derived) (privs ++ [k])
      else deriveKeys xpriv rest derived privs
  end.

(** [t.from(i, i.publicKeys, txp.requiredSignatures)] for each input, then
    [t.to(...).change(...)]. *)
Definition buildTransaction (txp : TxProposal) : Transaction :=
  {| txFrom := map (fun i => (i, publicKeys i, requiredSignatures txp)) (inputs txp);
     txTo := (toAddress txp, amount txp);
     txChange := address (changeAddress txp) |}.

(** [_.map(privs, function(priv) { return t.getSignatures(priv); })] *)
Fixpoint signAll (t : Transaction) (privs : list string) : M (list (list TxSignature)) :=
  match privs with
  | [] => ret []
  | priv :: rest =>
      do _ <- emit (EvGetSignatures priv);
      do sigs <- signAll t rest;
      ret (getSignatures t priv :: sigs)
  end.

(** [_.sortBy(collection, 'inputIndex')]: a stable sort by ascending key. *)
Fixpoint insertBy {A} (key : A -> nat) (x : A) (l : list A) : list A :=
  match l with
  | [] => [x]
  | y :: rest =>
      if (key x <=? key y)%nat then x :: y :: rest else y :: insertBy key x rest
  end.

Definition sortBy {A} (key : A -> nat) (l : list A) : list A :=
  foldr (insertBy key) [] l.

Definition signatureArgs (signatures : list (list TxSignature)) : JVal :=
  JObj [("signatures",
         JArr (map (fun s => JStr (signature s)) (sortBy inputIndex (concat signatures))))].

Definition signTxProposal (txp : TxProposal) : Op :=
  if negb (truthy_str (creatorId txp)) then throw (ArgumentError "txp.creatorId")
  else
    do data <- _loadAndCheck;
    if negb (checkTxProposal data txp) then compromised FAKE_PROPOSAL
    else
      match addressNetwork (toAddress txp) with
      | None => throw (LibraryError "Address")
      | Some network =>
          do xpriv <- new_HDPrivateKey (Data.xPrivKey data) (Some network);
          do privs <- deriveKeys xpriv (inputs txp) ∅ [];
          let t := buildTransaction txp in
          do signatures <- signAll t privs;
          do r <- _doPostRequest ("/v1/txproposals/" +:+ txpId txp +:+ "/signatures/")
                    (signatureArgs signatures) data;
          handOver r
      end.

Definition rejectArgs (reason : option string) (data : Data.t) : JVal :=
  JObj [("reason",
         match _encryptMessage reason (Data.sharedEncryptingKey data) with
         | Some c => if truthy (JStr c) then JStr c else JStr ""
         | None => JStr ""
         end)].

Definition rejectTxProposal (txp : TxProposal) (reason : option string) : Op :=
  do data <- _loadAndCheck;
  do r <- _doPostRequest ("/v1/txproposals/" +:+ txpId txp +:+ "/rejections/")
            (rejectArgs reason data) data;
  handOver r.

Definition broadcastTxProposal (txp : TxProposal) : Op :=
  do data <- _loadAndCheck;
  do r <- _doPostRequest ("/v1/txproposals/" +:+ txpId txp +:+ "/broadcast/")
            (JObj []) data;
  handOver r.

Definition removeTxProposal (txp : TxProposal) : Op :=
  do data <- _loadAndCheck;
  do r <- _doRequest "delete" ("/v1/txproposals/" +:+ txpId txp) (JObj []) data;
  handOver r.

(** ** The operations, as the caller sees them *)

Inductive Operation :=
  | CreateWallet (walletName copayerName : string) (m n : Z) (network : option string)
  | ReCreateWallet (walletName : string)
  | JoinWallet (secret copayerName : string)
  | GetStatus
  | SendTxProposal (opts : SendOpts)
  | CreateAddress
  | GetMainAddresses (doNotVerify : bool)
  | GetBalance
  | Export (access : option string)
  | Import (str : string)
  | ParseTxProposals (txps : list TxProposal)
  | GetTxProposals (doNotVerify getRawTxps : bool)
  | SignTxProposal (txp : TxProposal)
  | RejectTxProposal (txp : TxProposal) (reason : option string)
  | BroadcastTxProposal (txp : TxProposal)
  | RemoveTxProposal (txp : TxProposal).

Definition operation (o : Operation) : Op :=
  match o with
  | CreateWallet walletName copayerName m n network =>
      createWallet walletName copayerName m n network
  | ReCreateWallet walletName => reCreateWallet walletName
  | JoinWallet secret copayerName => joinWallet secret copayerName
  | GetStatus => getStatus
  | SendTxProposal opts => sendTxProposal opts
  | CreateAddress => createAddress
  | GetMainAddresses doNotVerify => getMainAddresses doNotVerify
  | GetBalance => getBalance
  | Export access => export access
  | Import str => import str
  | ParseTxProposals txps => parseTxProposals txps
  | GetTxProposals doNotVerify getRawTxps => getTxProposals doNotVerify getRawTxps
  | SignTxProposal txp => signTxProposal txp
  | RejectTxProposal txp reason => rejectTxProposal txp reason
  | BroadcastTxProposal txp => broadcastTxProposal txp
  | RemoveTxProposal txp => removeTxProposal txp
  end.

(** Running an operation to its end. *)
Definition run (c : Op) (w : World) : Outcome * World :=
  match c w with
  | (Next e, _) => match e with end
  | (Stop o, w') => (o, w')
  end.
End API.

(** ** A model of the collaborators

    String-level stand-ins for the key library, the verifier and JSON, so
    that the operations can be run on concrete wallets. *)

Module Demo.
Definition quote : string := String (ascii_of_nat 34) EmptyString.

Definition joinWith (sep : string) (l : list string) : string :=
  match l with
  | [] => ""
  | x :: rest => foldl (fun acc y => acc +:+ sep +:+ y) x rest
  end.

(** [JSON.stringify] on values whose strings need no escaping. *)
Fixpoint stringify (v : JVal) : string :=
  match v with
  | JUndefined | JNull => "null"
  | JBool b => if b then "true" else "false"
  | JNum z => pretty z
  | JStr s => quote +:+ s +:+ quote
  | JArr items => "[" +:+ joinWith "," (map stringify items) +:+ "]"
  | JObj fields =>
      "{" +:+ joinWith ","
                (omap id
                   (map (fun '(k, x) =>
                           match x with
                           | JUndefined => None
                           | _ => Some (quote +:+ k +:+ quote +:+ ":" +:+ stringify x)
                           end) fields))
      +:+ "}"
  end.

(** [JSON.parse] on what [stringify] writes: [null], booleans, integers,
    strings, arrays and objects, without white space. *)
Definition isDigit (c : ascii) : bool :=
  let k := nat_of_ascii c in (48 <=? k)%nat && (k <=? 57)%nat.

Fixpoint readDigits (acc : Z) (s : list ascii) : Z * list ascii :=
  match s with
  | c :: rest =>
      if isDigit c
      then readDigits (10 * acc + Z.of_nat (nat_of_ascii c - 48))%Z rest
      else (acc, s)
  | [] => (acc, [])
  end.

Fixpoint readString (acc : list ascii) (s : list ascii) : option (string * list ascii) :=
  match s with
  | c :: rest =>
      if (nat_of_ascii c =? 34)%nat
      then Some (String.string_of_list_ascii (reverse acc), rest)
      else readString (c :: acc) rest
  | [] => None
  end.

Definition ch (c : string) : nat :=
  match c with String a _ => nat_of_ascii a | EmptyString => 0%nat end.

Fixpoint parseValue (fuel : nat) (s : list ascii) : option (JVal * list ascii) :=
  match fuel with
  | O => None
  | S fuel =>
      match s with
      | [] => None
      | c :: rest =>
          let k := nat_of_ascii c in
          if (k =? 34)%nat then
            match readString [] rest with
            | Some (str, rest) => Some (JStr str, rest)
            | None => None
            end
          else if (k =? ch "[")%nat then
            match rest with
            | c' :: rest' =>
                if (nat_of_ascii c' =? ch "]")%nat then Some (JArr [], rest')
                else
                  match parseItems fuel rest with
                  | Some (items, rest) => Some (JArr items, rest)
                  | None => None
                  end
            | [] => None
            end
          else if (k =? ch "{")%nat then
            match rest with
            | c' :: rest' =>
                if (nat_of_ascii c' =? ch "}")%nat then Some (JObj [], rest')
                else
                  match parseFields fuel rest with
                  | Some (fields, rest) => Some (JObj fields, rest)
                  | None => None
                  end
            | [] => None
            end
          else if (k =? ch "-")%nat then
            match rest with
            | c' :: _ =>
                if isDigit c'
                then let '(z, rest) := readDigits 0 rest in Some (JNum (- z), rest)
                else None
            | [] => None
            end
          else if isDigit c then
            let '(z, rest) := readDigits 0 s in Some (JNum z, rest)
          else
            match String.string_of_list_ascii (take 4 s), String.string_of_list_ascii (take 5 s) with
            | "null", _ => Some (JNull, drop 4 s)
            | "true", _ => Some (JBool true, drop 4 s)
            | _, "false" => Some (JBool false, drop 5 s)
            | _, _ => None
            end
      end
  end
with parseItems (fuel : nat) (s : list ascii) : option (list JVal * list ascii) :=
  match fuel with
  | O => None
  | S fuel =>
      match parseValue fuel s with
      | Some (v, c :: rest) =>
          if (nat_of_ascii c =? ch "]")%nat then Some ([v], rest)
          else if (nat_of_ascii c =? ch ",")%nat then
            match parseItems fuel rest with
            | Some (items, rest) => Some (v :: items, rest)
            | None => None
            end
          else None
      | _ => None
      end
  end
with parseFields (fuel : nat) (s : list ascii)
  : option (list (string * JVal) * list ascii) :=
  match fuel with
  | O => None
  | S fuel =>
      match s with
      | q :: rest =>
          if (nat_of_ascii q =? 34)%nat then
            match readString [] rest with
            | Some (k, colon :: rest) =>
                if (nat_of_ascii colon =? ch ":")%nat then
                  match parseValue fuel rest with
                  | Some (v, c :: rest) =>
                      if (nat_of_ascii c =? ch "}")%nat then Some ([(k, v)], rest)
                      else if (nat_of_ascii c =? ch ",")%nat then
                        match parseFields fuel rest with
                        | Some (fields, rest) => Some ((k, v) :: fields, rest)
                        | None => None
                        end
                      else None
                  | _ => None
                  end
                else None
            | _ => None
            end
          else None
      | [] => None
      end
  end.

Definition parse (s : string) : option JVal :=
  let cs := String.list_ascii_of_string s in
  match parseValue (S (length cs)) cs with
  | Some (v, []) => Some v
  | _ => None
  end.

(** Keys.  The extended private key ["xprv-a"] has the extended public
    key ["xpub-a"]; at path [p] it derives the private key ["prv-a/p"],
    whose public key ["pub-a/p"] is also what ["xpub-a"] derives at [p]. *)
Definition dropS (k : nat) (s : string) : string :=
  String.substring k (String.length s - k) s.

Definition isXPriv (s : string) : bool := String.prefix "xprv-" s.

Definition xpubOf (xpriv : string) : string := "xpub-" +:+ dropS 5 xpriv.

Definition derivePriv (xpriv p : string) : option string :=
  if String.prefix "m/" p then Some ("prv-" +:+ dropS 5 xpriv +:+ "/" +:+ p) else None.

Definition derivePub (p xpub : string) : string :=
  "pub-" +:+ dropS 5 xpub +:+ "/" +:+ p.

Definition pubOf (priv : string) : string := "pub-" +:+ dropS 4 priv.

Definition sign (message privKey : string) : string :=
  "sig(" +:+ message +:+ ")by(" +:+ privKey +:+ ")".

Definition verify (message sig pubKey : string) : bool :=
  String.eqb sig (sign message ("prv-" +:+ dropS 4 pubKey)).

Definition cipher (message : string) (key : option string) : string :=
  "enc(" +:+ show key +:+ ")" +:+ message.

Definition decipher (c : string) (key : option string) : option string :=
  let tag := "enc(" +:+ show key +:+ ")" in
  if String.prefix tag c then Some (dropS (String.length tag) c) else None.

Definition addressAt (ring : list string) (p : string) (m : option Z) : string :=
  "addr(" +:+ joinWith "," (map (derivePub p) ring) +:+ ";" +:+ show (pretty <$> m) +:+ ")".

Definition ringOf (data : Data.t) : list string :=
  match Data.publicKeyRing data with Some l => l | None => [] end.

(** Modelled from the spec: [Verifier.checkCopayers], whose module
    [lib/client/verifier.js] is not among the sources.  The check
    "confirms the claimed public key ring actually contains keys that
    collectively could only have been assembled by holders of the wallet
    secret" and "fails closed": every key of the list must carry a
    signature made with the wallet key.  Its arguments [n] and
    [localMasterKey] are used as well: the list must have [n] entries,
    the local key among them. *)
Definition acceptCopayers (copayers : list Wallet.copayer)
    (walletPrivKey xPrivKey : option string) (n : option Z) : bool :=
  match walletPrivKey, xPrivKey with
  | Some wk, Some xk =>
      bool_decide (n = Some (Z.of_nat (length copayers)))
      && forallb (fun c => verify (Wallet.xPubKey c) (Wallet.xPubKeySignature c) (pubOf wk))
           copayers
      && bool_decide (xpubOf xk ∈ map Wallet.xPubKey copayers)
  | _, _ => false
  end.

(** Modelled from the spec: [Verifier.checkAddress] "independently
    re-derives an address from the local public key ring at the claimed
    path and threshold, and compares" it with the address of the server. *)
Definition acceptAddress (data : Data.t) (a : AddressRecord) : bool :=
  bool_decide (addressKeys a = map (derivePub (addressPath a)) (ringOf data))
  && String.eqb (address a) (addressAt (ringOf data) (addressPath a) (Data.m data)).

(** Modelled from the spec: [Verifier.checkTxProposal] "re-derives the
    claimed change address and, for every input, the claimed signer
    public keys from the path; confirms [requiredSignatures == m]". *)
Definition acceptTxProposal (data : Data.t) (txp : TxProposal) : bool :=
  acceptAddress data (changeAddress txp)
  && bool_decide (Some (requiredSignatures txp) = Data.m data)
  && forallb (fun i => bool_decide (publicKeys i = map (derivePub (path i)) (ringOf data)))
       (inputs txp).

(** Bitcore's [t.getSignatures(priv)]: one signature for every input that
    lists the public key of [priv], in input order. *)
Definition signaturesOf (t : Transaction) (priv : string) : list TxSignature :=
  flat_map
    (fun '(i, (_, keys, _)) =>
       flat_map
         (fun k =>
            if String.eqb k (pubOf priv)
            then [ {| inputIndex := i;
                      signature := "der(" +:+ priv +:+ "#" +:+ pretty i +:+ ")" |} ]
            else [])
         keys)
    (imap (fun i x => (i, x)) (txFrom t)).

Definition access (data : Data.t) : string :=
  if truthy_str (Data.xPrivKey data) then "full"
  else if truthy_str (Data.rwPrivKey data) then "readwrite"
  else "readonly".

#[export] Instance collaborators : Collaborators := {|
  JSON_stringify := stringify;
  JSON_parse := parse;
  signMessage := sign;
  encryptMessage := cipher;
  decryptMessage := decipher;
  getProposalHash := fun toAddress amount message =>
    "hash(" +:+ toAddress +:+ "," +:+ pretty amount +:+ "," +:+ show message +:+ ")";
  xPubToCopayerId := fun xpub => "id(" +:+ xpub +:+ ")";
  toSecret := fun walletId walletPrivKey network =>
    show walletId +:+ ":" +:+ walletPrivKey +:+ ":" +:+ network;
  fromSecret := fun secret =>
    if String.prefix "w" secret
    then Some {| secretWalletId := secret;
                 secretWalletPrivKey := "prv-wallet";
                 secretNetwork := "livenet" |}
    else None;
  accessFromData := access;
  checkCopayers := acceptCopayers;
  checkAddress := acceptAddress;
  checkTxProposal := acceptTxProposal;
  newPrivateKey := fun e => "prv-" +:+ e;
  newHDPrivateKey := fun _ e => "xprv-" +:+ e;
  HDPrivateKey := fun s _ =>
    match s with Some x => if isXPriv x then Some x else None | None => None end;
  HDPublicKey := fun s =>
    match s with Some x => if isXPriv x then Some (xpubOf x) else None | None => None end;
  derive := derivePriv;
  toWIF := fun k => k;
  toPublicKey := pubOf;
  sha256_16_base64 := fun k => "sek(" +:+ k +:+ ")";
  addressNetwork := fun a => if String.prefix "addr" a then Some "livenet" else None;
  getSignatures := signaturesOf
|}.

(** *** Alice's wallet

    A 2-of-2 wallet of the copayers [a] (Alice, who holds this file)
    and [b]. *)
Definition walletKey : string := "prv-wallet".

Definition aliceOf (n : Z) (ring : list string) : Data.t :=
  Data.mk (Some "id(xpub-a)") (Some "xprv-a") (Some ring) (Some "livenet")
    (Some 2%Z) (Some n) (Some "prv-a/m/1/0") (Some "prv-a/m/1/1")
    (Some walletKey) (Some "sek(prv-wallet)").

Definition alice (ring : list string) : Data.t := aliceOf 2 ring.

Definition copayerOf (xpub : string) : Wallet.copayer :=
  Wallet.mkCopayer xpub (sign xpub walletKey).

Definition serverWallet (status : string) (keys : list string) : Wallet.t :=
  Wallet.mk (Some status) (map copayerOf keys) (Some 2%Z) (Some 2%Z).

Definition world (file : option Data.t) (replies : list Reply) : World :=
  {| baseUrl := "http://localhost:3001/copay/api";
     basePath := "/copay/api";
     storageName := "wallet.dat";
     loadErr := None;
     stored := file;
     saveErr := None;
     replies := replies;
     entropy := fun k => match k with 0 => "seed0" | 1 => "seed1" | _ => "seed2" end;
     drawn := 0;
     log := [] |}.

Definition inputAt (p : string) (ring : list string) (k : Z) : Input :=
  {| path := p; publicKeys := map (derivePub p) ring; txid := "tx" +:+ pretty k; vout := k |}.

Definition addressRecordAt (p : string) (ring : list string) : AddressRecord :=
  {| address := addressAt ring p (Some 2%Z);
     addressPath := p;
     addressKeys := map (derivePub p) ring |}.

Definition ring2 : list string := ["xpub-a"; "xpub-b"].

(** A proposal with three inputs on two derivation paths. *)
Definition proposal : TxProposal :=
  {| txpId := "txp1";
     creatorId := Some "id(xpub-b)";
     toAddress := "addr-destination";
     amount := 100000;
     changeAddress := addressRecordAt "m/1/7" ring2;
     requiredSignatures := 2;
     inputs := [inputAt "m/0/5" ring2 0; inputAt "m/0/3" ring2 1; inputAt "m/0/5" ring2 2];
     message := None;
     encryptedMessage := None;
     actions := [] |}.

(** The same proposal with [requiredSignatures] altered. *)
Definition tampered : TxProposal :=
  {| txpId := txpId proposal;
     creatorId := creatorId proposal;
     toAddress := toAddress proposal;
     amount := amount proposal;
     changeAddress := changeAddress proposal;
     requiredSignatures := 1;
     inputs := inputs proposal;
     message := message proposal;
     encryptedMessage := encryptedMessage proposal;
     actions := actions proposal |}.

(** Alice with the complete ring, and Alice who has just joined and knows
    her own key only. *)
Definition complete : Data.t := alice ring2.
Definition incomplete : Data.t := alice ["xpub-a"].

Definition accepted : Reply := Response 200 (BJson (JObj [])).

(** The server lists the copayers in the order in which they joined:
    [b], who created the wallet, then Alice. *)
Definition completeOnServer : Reply :=
  Response 200 (BStatus (serverWallet "complete" ["xpub-b"; "xpub-a"]) (Some [])).

(** A 2-of-3 wallet file whose ring holds a key [xpub-x] that is not
    among the copayers [a], [b] and [c] of the server. *)
Definition stale : Data.t := aliceOf 3 ["xpub-a"; "xpub-x"].

Definition threeOnServer : Reply :=
  Response 200
    (BStatus (Wallet.mk (Some "complete")
                (map copayerOf ["xpub-a"; "xpub-b"; "xpub-c"]) (Some 2%Z) (Some 3%Z))
       (Some [])).

Definition pendingOnServer : Reply :=
  Response 200 (BStatus (serverWallet "pending" ["xpub-b"]) (Some [])).

Definition serverError : Reply :=
  Response 500
    (BJson (JObj [("code", JStr "WNOTFOUND"); ("error", JStr "Wallet not found")])).

Definition payment : SendOpts :=
  {| opts_toAddress := "addr-destination";
     opts_amount := 100000;
     opts_message := Some "rent" |}.
End Demo.

(** ** Vocabulary of the properties *)

(** The operations that write a new wallet file. *)
Definition writesNewWallet (o : Operation) : bool :=
  match o with
  | CreateWallet _ _ _ _ _ | JoinWallet _ _ | Import _ => true
  | _ => false
  end.

(** The events by which signatures are produced or submitted: a key
    derivation, a call of [getSignatures], a request that is not a [get]. *)
Definition signingEvent (e : Event) : bool :=
  match e with
  | EvDerive _ _ | EvGetSignatures _ => true
  | EvRequest r => negb (String.eqb (method r) "get")
  | EvLoad | EvSave _ | EvGenerateKey => false
  end.

Definition quiet (evs : list Event) : Prop :=
  Forall (fun e => signingEvent e = false) evs.

Section Vocabulary.
Context `{Collaborators}.

(** The request by which [_tryToComplete] asks for the wallet. *)
Definition repairRequest (data : Data.t) (w : World) : Request :=
  requestArgs (baseUrl w) (basePath w) "get" "/v1/wallets/" (JObj []) data.

(** The data after a repair that adopted the keys of [copayers]. *)
Definition adopt (copayers : list Wallet.copayer) (data : Data.t) : Data.t :=
  Data.set_publicKeyRing (Some (map Wallet.xPubKey copayers)) data.

(** What [_loadAndCheck] can do: hand on the stored data as it is, hand
    on data it has repaired and saved, or end the operation. *)
Inductive Checked (w : World) : Step Data.t -> World -> Prop :=
  | CheckedAsStored d :
      loadErr w = None -> stored w = Some d ->
      n_gt_1 d && negb (pkrComplete d) = false ->
      Checked w (Next d) (with_log (log w ++ [EvLoad]) w)
  | CheckedRepaired d copayers w' :
      loadErr w = None -> stored w = Some d ->
      n_gt_1 d = true -> pkrComplete d = false ->
      checkCopayers copayers (Data.walletPrivKey d) (Data.xPrivKey d) (Data.n d) = true ->
      stored w' = Some (adopt copayers d) ->
      log w' = log w ++ [EvLoad; EvRequest (repairRequest d w); EvSave (adopt copayers d)] ->
      Checked w (Next (adopt copayers d)) w'
  | CheckedFailed o w' evs :
      stored w' = stored w ->
      log w' = log w ++ evs -> quiet evs ->
      (forall res, o <> Called None res) ->
      Checked w (Stop o) w'.
End Vocabulary.

(** The operations that need signing keys, and those that read only. *)
Definition needsSigningKeys (o : Operation) : bool :=
  match o with
  | SendTxProposal _ | CreateAddress | SignTxProposal _ | RejectTxProposal _ _
  | BroadcastTxProposal _ | RemoveTxProposal _ => true
  | _ => false
  end.

Definition readsThroughCheck (o : Operation) : bool :=
  match o with
  | GetBalance | GetMainAddresses _ | GetTxProposals _ _ => true
  | _ => false
  end.

(** The arguments pass the preconditions the operation asserts. *)
Definition argumentsOk (o : Operation) : bool :=
  match o with
  | SignTxProposal txp => truthy_str (creatorId txp)
  | _ => true
  end.

(** The operations that start with [_loadAndCheck]. *)
Definition startsWithCheck (o : Operation) : bool :=
  match o with
  | CreateWallet _ _ _ _ _ | JoinWallet _ _ | Import _ | GetStatus | ParseTxProposals _ =>
      false
  | _ => true
  end.

(** [w'] comes after [w]: the log has grown, and the wallet file is the
    same unless a wallet satisfying [P] was saved. *)
Definition follows (P : Data.t -> Prop) (w w' : World) : Prop :=
  (stored w' = stored w \/ exists d, stored w' = Some d /\ P d)
  /\ exists evs, log w' = log w ++ evs.

(** Whatever [c] does, the world follows, and a value it returns
    satisfies [Q]. *)
Definition sat {A} (P : Data.t -> Prop) (c : M A) (Q : A -> Prop) : Prop :=
  forall w,
    follows P w (c w).2
    /\ match (c w).1 with Next a => Q a | Stop _ => True end.

Definition ok {A} (P : Data.t -> Prop) (c : M A) : Prop := sat P c (fun _ => True).

Definition never : Data.t -> Prop := fun _ => False.

(** The ring of the wallet file is within [n]. *)
Definition ringBound (d : Data.t) : Prop :=
  match Data.publicKeyRing d, Data.n d with
  | Some ring, Some n => (Z.of_nat (length ring) <= n)%Z
  | Some _, None => False
  | None, _ => True
  end.

Section Changes.
Context `{Collaborators}.

(** The ways in which an operation can leave the wallet file. *)
Inductive StoreChange (w w' : World) : Prop :=
  | Unchanged :
      stored w' = stored w -> StoreChange w w'
  | RingReplaced d copayers :
      stored w = Some d -> n_gt_1 d = true -> pkrComplete d = false ->
      checkCopayers copayers (Data.walletPrivKey d) (Data.xPrivKey d) (Data.n d) = true ->
      stored w' = Some (adopt copayers d) ->
      StoreChange w w'
  | WalletCreated d xPubKey :
      stored w = None -> stored w' = Some d ->
      Data.publicKeyRing d = Some [xPubKey] ->
      StoreChange w w'
  | WalletImported d ring :
      stored w = None -> stored w' = Some d ->
      Data.publicKeyRing d = Some ring -> Data.n d = Some (Z.of_nat (length ring)) ->
      StoreChange w w'.
End Changes.

(** A wallet as [_initData] makes it, and one as [import] makes it. *)
Definition created (d : Data.t) : Prop :=
  exists xPubKey, Data.publicKeyRing d = Some [xPubKey].

Definition imported (d : Data.t) : Prop :=
  exists ring,
    Data.publicKeyRing d = Some ring /\ Data.n d = Some (Z.of_nat (length ring)).

(** The paths of [ps] that are not in [seen], each once, in the order in
    which they first occur. *)
Fixpoint newPaths (seen ps : list string) : list string :=
  match ps with
  | [] => []
  | p :: rest =>
      if decide (p ∈ seen) then newPaths seen rest
      else p :: newPaths (p :: seen) rest
  end.

(** The paths of [ps] that are not names which objects inherit. *)
Definition ownPaths (ps : list string) : list string :=
  filter (fun p => inherited p = false) ps.

(** The indices, counted from [i], at which [p] occurs in [ps]. *)
Fixpoint positionsFrom (i : nat) (p : string) (ps : list string) : list nat :=
  match ps with
  | [] => []
  | q :: rest =>
      if decide (q = p) then i :: positionsFrom (S i) p rest
      else positionsFrom (S i) p rest
  end.

(** The value [JSON.parse(JSON.stringify(v))] of a value that holds
    [undefined]: in an array it has become [null], in an object the
    property is gone. *)
Fixpoint jsonify (v : JVal) : JVal :=
  match v with
  | JUndefined => JNull
  | JArr items => JArr (map jsonify items)
  | JObj fields =>
      JObj (omap (fun '(k, x) =>
                    match x with
                    | JUndefined => None
                    | _ => Some (k, jsonify x)
                    end) fields)
  | _ => v
  end.

(** ** Vocabulary of further properties *)

Definition isRequest (e : Event) : Prop :=
  match e with EvRequest _ => True | _ => False end.

(** Since [w], no request has gone out and no reply was taken. *)
Definition silent (w w' : World) : Prop :=
  replies w' = replies w
  /\ exists evs, log w' = log w ++ evs /\ Forall (fun e => ~ isRequest e) evs.

(** Every event that [c] adds to the log satisfies [Q]. *)
Definition emits (Q : Event -> Prop) {A} (c : M A) : Prop :=
  forall w, exists evs, log (c w).2 = log w ++ evs /\ Forall Q evs.

(** A request that carries neither [x-identity] nor [x-signature]. *)
Definition anonymous (e : Event) : Prop :=
  match e with
  | EvRequest r => x_identity r = None /\ x_signature r = None
  | _ => True
  end.

(** An event that stays on this machine: no request, no fresh key. *)
Definition offline (e : Event) : Prop :=
  match e with
  | EvRequest _ | EvGenerateKey => False
  | _ => True
  end.

(** An event that does not belong to the signing of a transaction: no
    call of [getSignatures], and no derivation but that of the two request
    keys. *)
Definition notSigning (e : Event) : Prop :=
  match e with
  | EvGetSignatures _ => False
  | EvDerive _ p => p = "m/1/0" \/ p = "m/1/1"
  | _ => True
  end.

Section MoreVocabulary.
Context `{Collaborators}.

(** The value whose [code] and [error] the error of a failed request is
  made of: the body as it came, or, of a body that is text, what the
  text parses to, or the text itself as the [error] when it does not
  parse.  A body of the wallet service's own replies has neither
  property; there is no such value when no body came. *)
Definition errorSource (b : Body) (j : JVal) : Prop :=
match b with
| BUndefined => False
| BJson (JStr s) =>
    JSON_parse s = Some j \/ (JSON_parse s = None /\ j = JObj [("error", JStr s)])
| BJson v => j = v
| _ => j = JObj []
end.

(** The reply [reply] makes its request fail with the error [e]. *)
Definition failsWith (reply : Reply) (e : Error) : Prop :=
match reply with
| TransportFailure err => e = ErrTransport err
| Response statusCode b =>
    statusCode <> 200%Z /\ forall w, _parseError b w = (Next e, w)
end.

(** When the next reply fails with [e], the computation [c] either goes
  on, or ends, without having sent a request, or it ends by handing [e]
  to the callback. *)
Definition surfaces (e : Error) {A} (c : M A) : Prop :=
forall w reply rest,
  replies w = reply :: rest -> failsWith reply e ->
  match c w with
  | (Next _, w') => silent w w'
  | (Stop o, w') => o = Called (Some e) RNothing \/ silent w w'
  end.

(** Wallet data as [_initData] makes it from fresh entropy. *)
Definition initialised (network : option string) (walletPrivKey : string)
  (m n : option Z) (d : Data.t) : Prop :=
exists xPrivKey xPubKey roPrivKey rwPrivKey,
  HDPublicKey (Some xPrivKey) = Some xPubKey
  /\ derive xPrivKey "m/1/0" = Some roPrivKey
  /\ derive xPrivKey "m/1/1" = Some rwPrivKey
  /\ d = Data.mk (Some (xPubToCopayerId xPubKey)) (Some xPrivKey) (Some [xPubKey])
           network m n (Some (toWIF roPrivKey)) (Some (toWIF rwPrivKey))
           (Some (toWIF walletPrivKey)) (Some (sha256_16_base64 walletPrivKey)).
End MoreVocabulary.

(** The computation [c] writes the wallet file at most once, as its last
    step before it reports success: either the file is as it was and [c]
    has not reported success, or [c] has reported success with a result
    [res] and the file holds data [d] with [P d res]. *)
Definition settles (P : Data.t -> Result -> Prop) {A} (c : M A) (Q : A -> Prop) : Prop :=
  forall w,
    match c w with
    | (Next a, w') => stored w' = stored w /\ Q a
    | (Stop o, w') =>
        (stored w' = stored w /\ forall res, o <> Called None res)
        \/ exists d res, o = Called None res /\ stored w' = Some d /\ P d res
    end.

(** Further wallets, proposals and replies of the model. *)
Module Samples.
(** Alice's proposal with the message [m]. *)
Definition withMessage (m : option string) : TxProposal :=
  {| txpId := txpId Demo.proposal;
     creatorId := creatorId Demo.proposal;
     toAddress := toAddress Demo.proposal;
     amount := amount Demo.proposal;
     changeAddress := changeAddress Demo.proposal;
     requiredSignatures := requiredSignatures Demo.proposal;
     inputs := inputs Demo.proposal;
     message := m;
     encryptedMessage := None;
     actions := [] |}.

(** A proposal whose second input has a path that the key library
    does not derive. *)
Definition underivable : TxProposal :=
  {| txpId := txpId Demo.proposal;
     creatorId := creatorId Demo.proposal;
     toAddress := toAddress Demo.proposal;
     amount := amount Demo.proposal;
     changeAddress := changeAddress Demo.proposal;
     requiredSignatures := requiredSignatures Demo.proposal;
     inputs := [Demo.inputAt "m/0/5" Demo.ring2 0; Demo.inputAt "x/0/3" Demo.ring2 1;
                Demo.inputAt "m/0/4" Demo.ring2 2];
     message := None;
     encryptedMessage := None;
     actions := [] |}.

(** Alice's wallet as a [readonly] export and import leaves it. *)
Definition readOnlyCopy : Data.t :=
  Data.mk (Some "id(xpub-a)") None (Some Demo.ring2) (Some "livenet")
    (Some 2%Z) (Some 2%Z) (Some "prv-a/m/1/0") None None (Some "sek(prv-wallet)").

Definition addressesOnServer : Reply :=
  Response 200
    (BAddresses [Demo.addressRecordAt "m/0/1" Demo.ring2;
                 Demo.addressRecordAt "m/0/2" Demo.ring2]).

Definition addressOnServer : Reply :=
  Response 200 (BAddress (Demo.addressRecordAt "m/0/1" Demo.ring2)).

Definition proposalsOnServer : Reply := Response 200 (BTxps [Demo.proposal]).

(** A proposal whose inputs have, for paths, names that every object
    inherits. *)
Definition inheritedPaths : TxProposal :=
  {| txpId := txpId Demo.proposal;
     creatorId := creatorId Demo.proposal;
     toAddress := toAddress Demo.proposal;
     amount := amount Demo.proposal;
     changeAddress := changeAddress Demo.proposal;
     requiredSignatures := requiredSignatures Demo.proposal;
     inputs := [Demo.inputAt "constructor" Demo.ring2 0;
                Demo.inputAt "toString" Demo.ring2 1];
     message := None;
     encryptedMessage := None;
     actions := [] |}.

(** An export whose first entry is the name of a network, where the
    master key should be. *)
Definition namedExport : list JVal :=
  [JStr "livenet"; JNum 2; JArr [JStr "xpub-b"]; JStr "sek(prv-wallet)"].

Definition createdOnServer : Reply := Response 200 (BCreated "w9").
End Samples.
(** * Properties *)

(** ** Stepping through an operation *)

Section Stepping.
Context `{Collaborators}.

Lemma bind_next {A B} (c : M A) (k : A -> M B) w a w' :
  c w = (Next a, w') -> bind c k w = k a w'.
Proof. intros E. unfold bind. by rewrite E. Qed.

Lemma bind_stop {A B} (c : M A) (k : A -> M B) w o w' :
  c w = (Stop o, w') -> bind c k w = (Stop o, w').
Proof. intros E. unfold bind. by rewrite E. Qed.

Lemma run_bind_next {A} (c : M A) (k : A -> Op) w a w' :
  c w = (Next a, w') -> run (bind c k) w = run (k a) w'.
Proof. intros E. unfold run. by rewrite (bind_next _ _ _ _ _ E). Qed.

Lemma run_bind_stop {A} (c : M A) (k : A -> Op) w o w' :
  c w = (Stop o, w') -> run (bind c k) w = (o, w').
Proof. intros E. unfold run. by rewrite (bind_stop _ _ _ _ _ E). Qed.

Lemma _load_stored w d :
  loadErr w = None -> stored w = Some d ->
  _load w = (Next d, with_log (log w ++ [EvLoad]) w).
Proof.
  intros E1 E2. unfold _load, storage_load, bind, emit. cbn. by rewrite E1, E2.
Qed.
End Stepping.

(** ** Requests *)

Section Requests.
Context `{Collaborators}.

(** What [_doRequest] puts on the wire, and what is left of the world. *)
Lemma _doRequest_issue method url args data w :
  exists r w',
    _doRequest method url args data w = (r, w')
    /\ stored w' = stored w
    /\ saveErr w' = saveErr w
    /\ loadErr w' = loadErr w
    /\ replies w' = tail (replies w)
    /\ log w' = log w
                ++ [EvRequest (requestArgs (baseUrl w) (basePath w) method url args data)].
Proof.
  unfold _doRequest, this_baseUrl, this_basePath, request, issue, receive, emit, bind, ret.
  cbn. destruct (replies w) as [|[err|code b] rest] eqn:R; cbn.
  1, 2: by eexists _, _; repeat split; cbn; rewrite ?R.
  destruct (negb (code =? 200)%Z); cbn.
  2: by eexists _, _; repeat split; cbn; rewrite ?R.
  match goal with |- context [_parseError b ?w0] =>
    assert (exists s, _parseError b w0 = (s, w0)) as [s E]
  end.
  { unfold _parseError, errorOf, throw, ret. repeat case_match; eauto. }
  rewrite E. destruct s; cbn; by eexists _, _; repeat split; cbn; rewrite ?R.
Qed.
End Requests.

(** ** Loading the wallet and completing it *)

Section LoadAndCheck.
Context `{Collaborators}.

Lemma _parseError_world b w : exists s, _parseError b w = (s, w).
Proof. unfold _parseError, errorOf, throw, ret. repeat case_match; eauto. Qed.

Lemma _parseError_no_success b w res w' :
  _parseError b w <> (Stop (Called None res), w').
Proof. unfold _parseError, errorOf, throw, ret. repeat case_match; congruence. Qed.

Lemma _loadAndCheck_as_stored w d :
  loadErr w = None -> stored w = Some d ->
  n_gt_1 d && negb (pkrComplete d) = false ->
  _loadAndCheck w = (Next d, with_log (log w ++ [EvLoad]) w).
Proof.
  intros E1 E2 C. unfold _loadAndCheck.
  rewrite (bind_next _ _ _ _ _ (_load_stored w d E1 E2)).
  destruct (n_gt_1 d); [|done]. by destruct (pkrComplete d).
Qed.

Lemma _loadAndCheck_repairs w d :
  loadErr w = None -> stored w = Some d ->
  n_gt_1 d = true -> pkrComplete d = false ->
  _loadAndCheck w = _tryToComplete d (with_log (log w ++ [EvLoad]) w).
Proof.
  intros E1 E2 N C. unfold _loadAndCheck.
  rewrite (bind_next _ _ _ _ _ (_load_stored w d E1 E2)). by rewrite N, C.
Qed.

(** The server's copayers do not verify: nothing is saved. *)
Lemma repair_rejected d w wallet txps rest :
  replies w = Response 200 (BStatus wallet txps) :: rest ->
  Wallet.status wallet = Some "complete" ->
  checkCopayers (Wallet.copayers wallet) (Data.walletPrivKey d) (Data.xPrivKey d)
    (Data.n d) = false ->
  _tryToComplete d w =
    (Stop (Called (Some (ServerCompromisedError COPAYERS_NOT_VERIFIED)) RNothing),
     with_replies rest (with_log (log w ++ [EvRequest (repairRequest d w)]) w)).
Proof.
  intros R S C.
  unfold _tryToComplete, _doGetRequest, _doRequest, this_baseUrl, this_basePath,
    request, issue, receive, emit, bind, ret, callback.
  cbn. rewrite R. cbn. rewrite S, C. by rewrite bool_decide_eq_true_2.
Qed.

(** The server's copayers verify: their keys become the ring, and the
    data is saved before it is handed on. *)
Lemma repair_adopted d w wallet txps rest :
  replies w = Response 200 (BStatus wallet txps) :: rest ->
  Wallet.status wallet = Some "complete" ->
  checkCopayers (Wallet.copayers wallet) (Data.walletPrivKey d) (Data.xPrivKey d)
    (Data.n d) = true ->
  saveErr w = None ->
  _tryToComplete d w =
    (Next (adopt (Wallet.copayers wallet) d),
     with_stored (Some (adopt (Wallet.copayers wallet) d))
       (with_log (log w ++ [EvRequest (repairRequest d w)]
                  ++ [EvSave (adopt (Wallet.copayers wallet) d)])
          (with_replies rest w))).
Proof.
  intros R S C E.
  unfold _tryToComplete, _doGetRequest, _doRequest, this_baseUrl, this_basePath,
    request, issue, receive, storage_save, emit, bind, ret, callback.
  cbn. rewrite R. cbn. rewrite S, C. rewrite bool_decide_eq_true_2 by done.
  cbn. rewrite E. cbn. by rewrite <- app_assoc.
Qed.

Lemma _tryToComplete_spec d w :
  exists r w',
    _tryToComplete d w = (r, w')
    /\ ((exists copayers,
           r = Next (adopt copayers d)
           /\ checkCopayers copayers (Data.walletPrivKey d) (Data.xPrivKey d)
                (Data.n d) = true
           /\ stored w' = Some (adopt copayers d)
           /\ log w' = log w ++ [EvRequest (repairRequest d w); EvSave (adopt copayers d)])
        \/ (exists o evs,
              r = Stop o
              /\ stored w' = stored w
              /\ log w' = log w ++ EvRequest (repairRequest d w) :: evs
              /\ quiet evs
              /\ forall res, o <> Called None res)).
Proof.
  unfold _tryToComplete.
  destruct (_doRequest_issue "get" "/v1/wallets/" (JObj []) d w)
    as (r0 & w0 & E & S0 & SE & _ & _ & L0).
  unfold _doGetRequest, bind. rewrite E.
  assert (Q : quiet []) by constructor.
  assert (stop : forall o, (forall res, o <> Called None res) ->
            exists r w',
              (Stop o, w0) = (r, w')
              /\ ((exists copayers,
                     r = Next (adopt copayers d)
                     /\ checkCopayers copayers (Data.walletPrivKey d) (Data.xPrivKey d)
                          (Data.n d) = true
                     /\ stored w' = Some (adopt copayers d)
                     /\ log w' = log w ++ [EvRequest (repairRequest d w);
                                            EvSave (adopt copayers d)])
                  \/ (exists o evs,
                        r = Stop o
                        /\ stored w' = stored w
                        /\ log w' = log w ++ EvRequest (repairRequest d w) :: evs
                        /\ quiet evs
                        /\ forall res, o <> Called None res))).
  { intros o NS. eexists _, _. split; [reflexivity|]. right.
    exists o, []. by split_and!. }
  destruct r0 as [[err b]|o].
  - destruct err as [e|]; [by apply stop|].
    destruct (body_wallet b) as [[wallet|]|]; [|by apply stop..].
    destruct (negb (bool_decide _)); [by apply stop|].
    destruct (checkCopayers _ _ _ _) eqn:C; cbn; [|by apply stop].
    unfold storage_save, emit, bind. cbn. rewrite SE.
    destruct (saveErr w) as [e|].
    + eexists _, _. split; [reflexivity|]. right. unfold callback.
      exists (Called (Some e) RNothing), [EvSave (adopt (Wallet.copayers wallet) d)].
      split_and!; cbn; try done.
      * rewrite L0, <- app_assoc. reflexivity.
      * by repeat constructor.
    + eexists _, _. split; [reflexivity|]. left. eexists. split_and!; cbn; eauto.
      rewrite L0, <- app_assoc. reflexivity.
  - apply stop. intros res ->. revert E.
    unfold _doRequest, this_baseUrl, this_basePath, request, issue, receive, emit,
      bind, ret. cbn.
    destruct (replies w) as [|[?|code b] ?]; cbn; try done.
    destruct (negb _); [|done].
    match goal with |- context [_parseError b ?w1] =>
      destruct (_parseError b w1) as [[?|o'] ?] eqn:P end; [done|].
    intros ?; simplify_eq. by eapply _parseError_no_success.
Qed.

(** A repair that ends the operation: it has not reported success, the
    wallet file is as it was, and nothing was done beyond the request,
    but for the save that failed. *)
Lemma _tryToComplete_stops d w o w' :
  _tryToComplete d w = (Stop o, w') ->
  (forall res, o <> Called None res)
  /\ stored w' = stored w
  /\ (log w' = log w ++ [EvRequest (repairRequest d w)]
      \/ exists copayers,
           checkCopayers copayers (Data.walletPrivKey d) (Data.xPrivKey d) (Data.n d)
             = true
           /\ log w' = log w ++ [EvRequest (repairRequest d w);
                                  EvSave (adopt copayers d)]).
Proof.
  unfold _tryToComplete.
  destruct (_doRequest_issue "get" "/v1/wallets/" (JObj []) d w)
    as (r0 & w0 & E & S0 & SE & _ & _ & L0).
  unfold _doGetRequest, bind. rewrite E.
  assert (stop : forall o1, (forall res, o1 <> Called None res) ->
            (Stop o1 : Step Data.t, w0) = (Stop o, w') ->
            (forall res, o <> Called None res)
            /\ stored w' = stored w
            /\ (log w' = log w ++ [EvRequest (repairRequest d w)]
                \/ exists copayers,
                     checkCopayers copayers (Data.walletPrivKey d) (Data.xPrivKey d)
                       (Data.n d) = true
                     /\ log w' = log w ++ [EvRequest (repairRequest d w);
                                            EvSave (adopt copayers d)])).
  { intros o1 NS ?; simplify_eq. split_and!; [done|done|by left]. }
  destruct r0 as [[err b]|o0].
  - destruct err as [e|]; [by apply stop|].
    destruct (body_wallet b) as [[wallet|]|]; [|by apply stop..].
    destruct (negb (bool_decide _)); [by apply stop|].
    destruct (checkCopayers _ _ _ _) eqn:C; cbn; [|by apply stop].
    unfold storage_save, emit, bind. cbn. rewrite SE.
    destruct (saveErr w) as [e|]; [|done].
    unfold callback. intros ?; simplify_eq. split_and!; [done|done|].
    right. exists (Wallet.copayers wallet). split; [done|]. cbn.
    rewrite L0, <- app_assoc. reflexivity.
  - apply stop. intros res ->. revert E.
    unfold _doRequest, this_baseUrl, this_basePath, request, issue, receive, emit,
      bind, ret. cbn.
    destruct (replies w) as [|[?|code b] ?]; cbn; try done.
    destruct (negb _); [|done].
    match goal with |- context [_parseError b ?w1] =>
      destruct (_parseError b w1) as [[?|o'] ?] eqn:P end; [done|].
    intros ?; simplify_eq. by eapply _parseError_no_success.
Qed.

Lemma _loadAndCheck_spec w :
  exists r w', _loadAndCheck w = (r, w') /\ Checked w r w'.
Proof.
  destruct (loadErr w) as [e|] eqn:E1; [|destruct (stored w) as [d|] eqn:E2].
  - eexists _, _. split.
    + unfold _loadAndCheck, _load, storage_load, emit, bind, callback. cbn.
      rewrite E1. reflexivity.
    + eapply (CheckedFailed _ _ _ [EvLoad]); cbn; try done. by repeat constructor.
  - destruct (n_gt_1 d && negb (pkrComplete d)) eqn:C.
    + apply andb_true_iff in C as [N C]. apply negb_true_iff in C.
      rewrite (_loadAndCheck_repairs w d E1 E2 N C).
      destruct (_tryToComplete_spec d (with_log (log w ++ [EvLoad]) w))
        as (r & w' & E & [(cs & -> & V & S & L)|(o & evs & -> & S & L & Q & NS)]).
      * eexists _, _. split; [exact E|].
        eapply CheckedRepaired; eauto. cbn in L. rewrite L, <- app_assoc. reflexivity.
      * eexists _, _. split; [exact E|].
        eapply (CheckedFailed _ _ _ (EvLoad :: EvRequest (repairRequest d w) :: evs)); eauto.
        -- cbn in L. rewrite L, <- app_assoc. reflexivity.
        -- by repeat constructor.
    + eexists _, _. split; [by apply _loadAndCheck_as_stored|].
      by apply CheckedAsStored.
  - eexists _, _. split.
    + unfold _loadAndCheck, _load, storage_load, emit, bind, callback. cbn.
      rewrite E1, E2. reflexivity.
    + eapply (CheckedFailed _ _ _ [EvLoad]); cbn; try done. by repeat constructor.
Qed.

(** The server does not hold the wallet complete: the repair gives up. *)
Lemma repair_incomplete d w wallet txps rest :
  replies w = Response 200 (BStatus wallet txps) :: rest ->
  Wallet.status wallet <> Some "complete" ->
  _tryToComplete d w =
    (Stop (Called (Some (ErrString "Wallet Incomplete")) RNothing),
     with_replies rest (with_log (log w ++ [EvRequest (repairRequest d w)]) w)).
Proof.
  intros R S.
  unfold _tryToComplete, _doGetRequest, _doRequest, this_baseUrl, this_basePath,
    request, issue, receive, emit, bind, ret, callback.
  cbn. rewrite R. cbn. by rewrite bool_decide_eq_false_2.
Qed.

Lemma repair_unreachable d w e rest :
  replies w = TransportFailure e :: rest ->
  _tryToComplete d w =
    (Stop (Called (Some (ErrTransport e)) RNothing),
     with_replies rest (with_log (log w ++ [EvRequest (repairRequest d w)]) w)).
Proof.
  intros R.
  unfold _tryToComplete, _doGetRequest, _doRequest, this_baseUrl, this_basePath,
    request, issue, receive, emit, bind, ret, callback.
  cbn. rewrite R. done.
Qed.

(** The copayers verify but the save fails: the error of the save ends
    the operation. *)
Lemma repair_not_saved d w wallet txps rest e :
  replies w = Response 200 (BStatus wallet txps) :: rest ->
  Wallet.status wallet = Some "complete" ->
  checkCopayers (Wallet.copayers wallet) (Data.walletPrivKey d) (Data.xPrivKey d)
    (Data.n d) = true ->
  saveErr w = Some e ->
  _tryToComplete d w =
    (Stop (Called (Some e) RNothing),
     with_log (log w ++ [EvRequest (repairRequest d w)]
               ++ [EvSave (adopt (Wallet.copayers wallet) d)])
       (with_replies rest w)).
Proof.
  intros R S C E.
  unfold _tryToComplete, _doGetRequest, _doRequest, this_baseUrl, this_basePath,
    request, issue, receive, storage_save, emit, bind, ret, callback.
  cbn. rewrite R. cbn. rewrite S, C. rewrite bool_decide_eq_true_2 by done.
  cbn. rewrite E. cbn. by rewrite <- app_assoc.
Qed.

(** The server answers the repair with another status than 200. *)
Lemma repair_refused d w statusCode b e rest :
  replies w = Response statusCode b :: rest ->
  statusCode <> 200%Z ->
  (forall w', _parseError b w' = (Next e, w')) ->
  _tryToComplete d w =
    (Stop (Called (Some e) RNothing),
     with_replies rest (with_log (log w ++ [EvRequest (repairRequest d w)]) w)).
Proof.
  intros R N P.
  unfold _tryToComplete, _doGetRequest, _doRequest, this_baseUrl, this_basePath,
    request, issue, receive, emit, bind, ret, callback.
  cbn. rewrite R. cbn. destruct (Z.eqb_spec statusCode 200); [done|]. cbn.
  by rewrite P.
Qed.

Lemma short_ring_is_incomplete d ring n :
  Data.n d = Some n -> (1 < n)%Z ->
  Data.publicKeyRing d = Some ring -> (Z.of_nat (length ring) < n)%Z ->
  n_gt_1 d = true /\ pkrComplete d = false.
Proof.
  intros N G R L. unfold n_gt_1, pkrComplete. rewrite N, R. split.
  - by apply Z.ltb_lt.
  - rewrite bool_decide_eq_false_2; [apply andb_false_r|]. intros ?; simplify_eq. lia.
Qed.
End LoadAndCheck.

(** ** Reasoning about what an operation leaves behind *)

Section Logic.
Context `{Collaborators}.
Variable P : Data.t -> Prop.

Lemma follows_refl w : follows P w w.
Proof. split; [by left|]. exists []. by rewrite app_nil_r. Qed.

Lemma follows_trans w1 w2 w3 : follows P w1 w2 -> follows P w2 w3 -> follows P w1 w3.
Proof.
  intros [S1 [e1 L1]] [S2 [e2 L2]]. split.
  - destruct S2 as [S2|S2]; [|by right]. by rewrite S2.
  - exists (e1 ++ e2). by rewrite L2, L1, app_assoc.
Qed.

Lemma sat_bind {A B} (c : M A) (k : A -> M B) Q Q' :
  sat P c Q -> (forall a, Q a -> sat P (k a) Q') -> sat P (bind c k) Q'.
Proof.
  intros C K w. unfold bind. specialize (C w).
  destruct (c w) as [[a|o] w1]; cbn in *; [|by destruct C].
  destruct C as [F Qa]. specialize (K a Qa w1).
  destruct (k a w1) as [r w2]; cbn in *. destruct K as [F' R].
  split; [by eapply follows_trans|done].
Qed.

Lemma ok_bind {A B} (c : M A) (k : A -> M B) :
  ok P c -> (forall a, ok P (k a)) -> ok P (bind c k).
Proof. intros C K. eapply sat_bind; [exact C|]. intros a _. apply K. Qed.

Lemma sat_ret {A} (a : A) (Q : A -> Prop) : Q a -> sat P (ret a) Q.
Proof. intros Qa w. split; [apply follows_refl|done]. Qed.

Lemma ok_ret {A} (a : A) : ok P (ret a).
Proof. by apply sat_ret. Qed.

Lemma sat_callback {A} err res (Q : A -> Prop) : sat P (callback err res) Q.
Proof. intros w. split; [apply follows_refl|done]. Qed.

Lemma sat_throw {A} e (Q : A -> Prop) : sat P (throw e) Q.
Proof. intros w. split; [apply follows_refl|done]. Qed.

Lemma sat_unmodelled {A} (Q : A -> Prop) : sat P unmodelled Q.
Proof. intros w. split; [apply follows_refl|done]. Qed.

Lemma sat_compromised {A} msg (Q : A -> Prop) : sat P (compromised msg) Q.
Proof. apply sat_callback. Qed.

Lemma ok_emit e : ok P (emit e).
Proof. intros w. split; [|done]. split; [by left|]. by exists [e]. Qed.

Lemma ok_receive : ok P receive.
Proof.
  intros w. unfold receive. destruct (replies w); (split; [|done]).
  - apply follows_refl.
  - split; [by left|]. exists []. by rewrite app_nil_r.
Qed.

Lemma ok_this_baseUrl : ok P this_baseUrl.
Proof. intros w. split; [apply follows_refl|done]. Qed.

Lemma ok_this_basePath : ok P this_basePath.
Proof. intros w. split; [apply follows_refl|done]. Qed.

Lemma ok_storage_getName : ok P storage_getName.
Proof. intros w. split; [apply follows_refl|done]. Qed.

Lemma ok_generate : ok P generate.
Proof.
  unfold generate. apply ok_bind; [apply ok_emit|]. intros _ w.
  split; [|done]. split; [by left|]. exists []. by rewrite app_nil_r.
Qed.

Lemma ok_storage_load : ok P storage_load.
Proof.
  unfold storage_load. apply ok_bind; [apply ok_emit|]. intros _ w.
  split; [apply follows_refl|done].
Qed.

Lemma ok_storage_save d : P d -> ok P (storage_save d).
Proof.
  intros Pd. unfold storage_save. apply ok_bind; [apply ok_emit|]. intros _ w.
  destruct (saveErr w); (split; [|done]).
  - apply follows_refl.
  - split; [right; by exists d|]. exists []. by rewrite app_nil_r.
Qed.
End Logic.

(** Taking a computation apart, down to the steps above. *)
Ltac ok_step :=
  match goal with
  | |- ok _ (bind _ _) => apply ok_bind; [|intros ?]
  | |- sat _ (bind _ _) _ => apply ok_bind; [|intros ?]
  | |- ok _ (ret _) => apply ok_ret
  | |- sat _ (ret _) _ => apply ok_ret
  | |- ok _ (callback _ _) => apply sat_callback
  | |- sat _ (callback _ _) _ => apply sat_callback
  | |- ok _ (throw _) => apply sat_throw
  | |- sat _ (throw _) _ => apply sat_throw
  | |- ok _ unmodelled => apply sat_unmodelled
  | |- sat _ unmodelled _ => apply sat_unmodelled
  | |- ok _ (compromised _) => apply sat_compromised
  | |- ok _ (emit _) => apply ok_emit
  | |- ok _ receive => apply ok_receive
  | |- ok _ this_baseUrl => apply ok_this_baseUrl
  | |- ok _ this_basePath => apply ok_this_basePath
  | |- ok _ storage_getName => apply ok_storage_getName
  | |- ok _ generate => apply ok_generate
  | |- ok _ storage_load => apply ok_storage_load
  | |- ok _ (match ?x with _ => _ end) => destruct x
  | |- sat _ (match ?x with _ => _ end) _ => destruct x
  | |- ok _ (let _ := _ in _) => cbv zeta
  | |- ok _ _ => progress eauto with ok
  end.

Ltac ok_auto := repeat (cbv beta; ok_step).

Create HintDb ok discriminated.

Section Helpers.
Context `{Collaborators}.
Variable P : Data.t -> Prop.

Lemma ok_errorOf b : ok P (errorOf b).
Proof. unfold errorOf. ok_auto. Qed.

Lemma ok_parseError b : ok P (_parseError b).
Proof. unfold _parseError. ok_auto; apply ok_errorOf. Qed.

Lemma ok_issue r : ok P (issue r).
Proof. apply ok_emit. Qed.

Lemma ok_request r : ok P (request r).
Proof. unfold request. ok_auto. apply ok_issue. Qed.

Lemma ok_doRequest verb route args data : ok P (_doRequest verb route args data).
Proof. unfold _doRequest. ok_auto; try apply ok_request; apply ok_parseError. Qed.

Lemma ok_doPostRequest route args data : ok P (_doPostRequest route args data).
Proof. apply ok_doRequest. Qed.

Lemma ok_doGetRequest route data : ok P (_doGetRequest route data).
Proof. apply ok_doRequest. Qed.

Lemma ok_handOver r : ok P (handOver r).
Proof. unfold handOver. ok_auto. Qed.

Lemma ok_deriveKey xpriv p : ok P (deriveKey xpriv p).
Proof. unfold deriveKey. ok_auto. Qed.

Lemma ok_joinReply r : ok P (joinReply r).
Proof. unfold joinReply. ok_auto. Qed.

Lemma ok_doJoinWallet walletId walletPrivKey xPubKey copayerName :
  ok P (_doJoinWallet walletId walletPrivKey xPubKey copayerName).
Proof. unfold _doJoinWallet. ok_auto; [apply ok_doPostRequest|apply ok_joinReply]. Qed.

Lemma ok_firstKey data : ok P (firstKey data).
Proof. unfold firstKey. ok_auto. Qed.

Lemma ok_load : ok P _load.
Proof. unfold _load. ok_auto. Qed.

Lemma ok_deriveKeys xpriv ins derived privs : ok P (deriveKeys xpriv ins derived privs).
Proof.
  revert derived privs. induction ins as [|i rest IH]; intros derived privs; cbn.
  - ok_auto.
  - destruct (underived derived (path i)); [|apply IH].
    apply ok_bind; [apply ok_deriveKey|]. intros k. apply IH.
Qed.

Lemma ok_new_HDPrivateKey arg network : ok P (new_HDPrivateKey arg network).
Proof. unfold new_HDPrivateKey. ok_auto. Qed.

Lemma ok_signAll t privs : ok P (signAll t privs).
Proof. induction privs as [|priv rest IH]; cbn; ok_auto. Qed.

Lemma ok_issueJoins base basep walletId walletPrivKey ring i :
  ok P (issueJoins base basep walletId walletPrivKey ring i).
Proof.
  revert i. induction ring as [|k rest IH]; intros i; cbn; ok_auto;
    auto using ok_issue.
Qed.

Lemma ok_awaitJoins pending : ok P (awaitJoins pending).
Proof.
  induction pending as [|pending IH]; cbn; ok_auto;
    auto using ok_parseError, ok_joinReply.
Qed.
End Helpers.

#[export] Hint Resolve ok_errorOf ok_parseError ok_issue ok_request ok_doRequest
  ok_doPostRequest ok_doGetRequest ok_handOver ok_deriveKey ok_joinReply ok_doJoinWallet
  ok_firstKey ok_load ok_deriveKeys ok_signAll ok_issueJoins ok_awaitJoins
  ok_new_HDPrivateKey : ok.

(** ** Operations behind [_loadAndCheck] *)

Section ThroughCheck.
Context `{Collaborators}.

Lemma ok_never_stored {A} (c : M A) w :
  ok never c -> stored (c w).2 = stored w /\ exists evs, log (c w).2 = log w ++ evs.
Proof.
  intros C. destruct (C w) as [[[S|(d & _ & [])] L] _]. by split.
Qed.

(** Each of these operations is [_loadAndCheck] followed by steps that
    save nothing. *)
Lemma through_check o :
  startsWithCheck o = true -> argumentsOk o = true ->
  exists k, operation o = bind _loadAndCheck k /\ forall d, ok never (k d).
Proof.
  intros S A. destruct o; try discriminate S; cbn [operation].
  - eexists. split; [reflexivity|]. intros d. ok_auto.
  - eexists. split; [reflexivity|]. intros d. ok_auto.
  - eexists. split; [reflexivity|]. intros d. ok_auto.
  - eexists. split; [reflexivity|]. intros d. ok_auto.
  - eexists. split; [reflexivity|]. intros d. ok_auto.
  - eexists. split; [reflexivity|]. intros d. ok_auto.
  - eexists. split; [reflexivity|]. intros d. unfold verifyTxps. ok_auto.
  - cbn in A. unfold signTxProposal. rewrite A. cbn [negb].
    eexists. split; [reflexivity|]. intros d. ok_auto.
  - eexists. split; [reflexivity|]. intros d. ok_auto.
  - eexists. split; [reflexivity|]. intros d. ok_auto.
  - eexists. split; [reflexivity|]. intros d. ok_auto.
Qed.

Lemma run_through_check (k : Data.t -> Op) w :
  (forall d, ok never (k d)) ->
  exists r w1 out w',
    _loadAndCheck w = (r, w1) /\ Checked w r w1
    /\ run (bind _loadAndCheck k) w = (out, w')
    /\ stored w' = stored w1
    /\ (exists evs, log w' = log w1 ++ evs)
    /\ (forall d, r = Next d -> run (k d) w1 = (out, w'))
    /\ (forall o, r = Stop o -> out = o /\ w' = w1).
Proof.
  intros K. destruct (_loadAndCheck_spec w) as (r & w1 & E & C).
  destruct r as [d|o].
  - rewrite (run_bind_next _ _ _ _ _ E).
    destruct (ok_never_stored (k d) w1 (K d)) as [S L].
    unfold run. destruct (k d w1) as [[[]|out] w'] eqn:R. cbn in S, L.
    exists (Next d), w1, out, w'. split_and!; try done.
    intros d' ?; simplify_eq. by rewrite R.
  - rewrite (run_bind_stop _ _ _ _ _ E).
    exists (Stop o), w1, o, w1. split_and!; try done.
    + exists []. by rewrite app_nil_r.
    + by intros ? ?; simplify_eq.
Qed.
End ThroughCheck.

(** ** Request signatures *)

Section RequestSignature.
Context `{Collaborators}.

(** C4. Every request carries, as [x-signature], the signature of the
    message [lowercase(method) + "|" + url + "|" + JSON.stringify(args)]:
    under the read-only key when the method is [get], under the
    read-write key otherwise; when the wallet data has no such key the
    request goes out all the same, without a signature. *)
Theorem request_signature (verb route : string) (args : JVal) (data : Data.t) (w : World) :
  exists r reply w',
    _doRequest verb route args data w = (reply, w')
    /\ log w' = log w ++ [EvRequest r]
    /\ method r = verb
    /\ url r = baseUrl w +:+ route
    /\ body r = args
    /\ x_identity r = Data.copayerId data
    /\ x_signature r =
         let message := toLowerCase verb +:+ "|" +:+ route +:+ "|" +:+ JSON_stringify args in
         let key := if String.eqb verb "get"
                    then Data.roPrivKey data else Data.rwPrivKey data in
         match key with
         | Some k => if String.eqb k "" then None else Some (signMessage message k)
         | None => None
         end.
Proof.
  destruct (_doRequest_issue verb route args data w) as (reply & w' & E & _ & _ & _ & _ & L).
  eexists _, reply, w'. repeat split; try eassumption; try reflexivity.
  cbn. unfold reqSignature, _signRequest, truthy_str. cbn.
  destruct (String.eqb verb "get").
  - destruct (Data.roPrivKey data) as [k|]; cbn; [|done]. by destruct (String.eqb k "").
  - destruct (Data.rwPrivKey data) as [k|]; cbn; [|done]. by destruct (String.eqb k "").
Qed.
End RequestSignature.

(** ** A store that already holds a wallet *)

Section ExistingWallet.
Context `{Collaborators}.

Lemma stored_wallet_survives (w : World) (d : Data.t) (o : Operation) :
  stored w = Some d -> writesNewWallet o = true ->
  stored (run (operation o) w).2 = Some d.
Proof.
  intros S W. destruct o; try discriminate W; cbn [operation].
  - unfold createWallet. destruct (negb _); [done|].
    unfold run, bind, storage_load, storage_getName, emit, callback. cbn. by rewrite S.
  - unfold joinWallet, run, bind, storage_load, emit, callback. cbn. by rewrite S.
  - unfold import, run, bind, storage_load, emit, callback. cbn. by rewrite S.
Qed.

(** C10. When the storage already contains a wallet, [createWallet],
    [joinWallet] and [import] each end with an error, and all they have
    done by then is at most the load: no request went out, [save] was
    not called, and the stored wallet is the one that was there. *)
Theorem existing_wallet_is_kept (w : World) (d : Data.t) (o : Operation) :
  stored w = Some d ->
  writesNewWallet o = true ->
  exists e w',
    run (operation o) w = (Called (Some (ErrString e)) RNothing, w')
    /\ stored w' = Some d
    /\ replies w' = replies w
    /\ (log w' = log w \/ log w' = log w ++ [EvLoad]).
Proof.
  intros S W. destruct o; try discriminate W; cbn [operation].
  - unfold createWallet.
    destruct (negb _).
    + eexists _, w. unfold run, callback. eauto.
    + unfold run, bind, storage_load, storage_getName, emit, callback. cbn. rewrite S.
      eexists _, _. split; [reflexivity|]. cbn. eauto.
  - unfold joinWallet, run, bind, storage_load, emit, callback. cbn. rewrite S.
    eexists _, _. split; [reflexivity|]. cbn. eauto.
  - unfold import, run, bind, storage_load, emit, callback. cbn. rewrite S.
    eexists _, _. split; [reflexivity|]. cbn. eauto.
Qed.
End ExistingWallet.

(** ** Creating and cosigning proposals *)

Section Proposals.
Context `{Collaborators}.

Lemma handOver_run r w :
  run (handOver r) w =
    (match r with
     | (Some e, _) => Called (Some e) RNothing
     | (None, b) => Called None (RBody b)
     end, w).
Proof. by destruct r as [[e|] b]. Qed.

(** What becomes of an operation that ends by handing the reply of one
    request to its callback. *)
Lemma request_then_handOver verb route args data w :
  exists o w',
    run (do r <- _doRequest verb route args data; handOver r) w = (o, w')
    /\ stored w' = stored w
    /\ log w' = log w
                ++ [EvRequest (requestArgs (baseUrl w) (basePath w) verb route args data)]
    /\ (forall b rest, replies w = Response 200 b :: rest -> o = Called None (RBody b))
    /\ (forall e rest, replies w = TransportFailure e :: rest ->
          o = Called (Some (ErrTransport e)) RNothing).
Proof.
  destruct (_doRequest_issue verb route args data w) as (r & w' & E & S & _ & _ & _ & L).
  destruct r as [r|o].
  - rewrite (run_bind_next _ _ _ _ _ E), handOver_run.
    eexists _, _. split; [reflexivity|]. repeat split; try done.
    + intros b rest R. revert E.
      unfold _doRequest, this_baseUrl, this_basePath, request, issue, receive, emit,
        bind, ret. cbn. rewrite R. cbn. by intros ?; simplify_eq.
    + intros e rest R. revert E.
      unfold _doRequest, this_baseUrl, this_basePath, request, issue, receive, emit,
        bind, ret. cbn. rewrite R. cbn. by intros ?; simplify_eq.
  - rewrite (run_bind_stop _ _ _ _ _ E).
    eexists _, _. split; [reflexivity|]. repeat split; try done.
    + intros b rest R. revert E.
      unfold _doRequest, this_baseUrl, this_basePath, request, issue, receive, emit,
        bind, ret. cbn. rewrite R. cbn. done.
    + intros e rest R. revert E.
      unfold _doRequest, this_baseUrl, this_basePath, request, issue, receive, emit,
        bind, ret. cbn. rewrite R. cbn. done.
Qed.

(** C1. A proposal that fails [checkTxProposal] against the wallet data
    that load-and-check hands on (the data then in the store) is not
    signed: [signTxProposal] ends with the ServerCompromised error right
    there, so that since its start no key was derived, [getSignatures]
    was not called, and no request other than a [get] went out. *)
Theorem tampered_proposal_is_not_signed (txp : TxProposal) (w w1 : World) (data : Data.t) :
  truthy_str (creatorId txp) = true ->
  _loadAndCheck w = (Next data, w1) ->
  checkTxProposal data txp = false ->
  run (signTxProposal txp) w =
    (Called (Some (ServerCompromisedError "Server sent fake transaction proposal"))
       RNothing, w1)
  /\ stored w1 = Some data
  /\ exists evs, log w1 = log w ++ evs /\ quiet evs.
Proof.
  intros T L C. split; [|].
  - unfold signTxProposal. rewrite T. cbn [negb].
    rewrite (run_bind_next _ _ _ _ _ L), C. reflexivity.
  - destruct (_loadAndCheck_spec w) as (r & w' & E & K). rewrite L in E.
    simplify_eq. inversion K; subst.
    + split; [done|]. exists [EvLoad]. split; [done|]. by repeat constructor.
    + split; [done|]. eexists. split; [eassumption|]. by repeat constructor.
Qed.

(** C9. [sendTxProposal] needs the read-write key.  Without it the
    operation ends with the error [No key to generate proposals] in the
    world load-and-check left: nothing is sent.  With it, exactly one
    request goes out, a [post] to [/v1/txproposals/] whose body holds the
    address, the amount, the message encrypted under the shared
    encrypting key, and as [proposalSignature] the signature, under the
    read-write key, of the hash of these three; the request itself is
    signed under the same key, over the canonical message. *)
Theorem sendTxProposal_signs_the_proposal (opts : SendOpts) (w w1 : World) (data : Data.t) :
  _loadAndCheck w = (Next data, w1) ->
  (truthy_str (Data.rwPrivKey data) = false ->
   run (sendTxProposal opts) w =
     (Called (Some (ErrString "No key to generate proposals")) RNothing, w1))
  /\ (forall rwPrivKey,
        Data.rwPrivKey data = Some rwPrivKey -> rwPrivKey <> "" ->
        let ciphertext :=
          match opts_message opts with
          | Some message =>
              if String.eqb message "" then None
              else Some (encryptMessage message (Data.sharedEncryptingKey data))
          | None => None
          end in
        let hash := getProposalHash (opts_toAddress opts) (opts_amount opts) ciphertext in
        let args :=
          JObj [("toAddress", JStr (opts_toAddress opts));
                ("amount", JNum (opts_amount opts));
                ("message", match ciphertext with Some c => JStr c | None => JNull end);
                ("proposalSignature", JStr (signMessage hash rwPrivKey))] in
        exists o w2 r,
          run (sendTxProposal opts) w = (o, w2)
          /\ log w2 = log w1 ++ [EvRequest r]
          /\ method r = "post"
          /\ url r = baseUrl w1 +:+ "/v1/txproposals/"
          /\ body r = args
          /\ x_signature r =
               Some (signMessage ("post|/v1/txproposals/|" +:+ JSON_stringify args)
                       rwPrivKey)
          /\ (forall b rest, replies w1 = Response 200 b :: rest ->
                o = Called None (RBody b))).
Proof.
  intros L. split.
  - intros T. unfold sendTxProposal. rewrite (run_bind_next _ _ _ _ _ L).
    destruct (Data.rwPrivKey data); [|done]. by rewrite T.
  - intros k K NE ciphertext hash args.
    assert (T : truthy_str (Data.rwPrivKey data) = true).
    { rewrite K. unfold truthy_str. cbn. by destruct (String.eqb_spec k ""). }
    assert (A : proposalArgs opts data k = args).
    { unfold proposalArgs, args, hash, ciphertext, _encryptMessage, truthy_str.
      destruct (opts_message opts) as [msg|]; cbn; [|done].
      by destruct (String.eqb msg ""). }
    unfold sendTxProposal. rewrite (run_bind_next _ _ _ _ _ L), T, K, A.
    destruct (request_then_handOver "post" "/v1/txproposals/" args data w1)
      as (o & w2 & E & _ & Lg & OK & _).
    unfold _doPostRequest. rewrite E. eexists o, w2, _.
    split; [reflexivity|]. split; [exact Lg|]. cbn.
    repeat split; try done.
    unfold reqSignature, _signRequest. cbn. by rewrite T, K.
Qed.
End Proposals.

(** ** Completing the wallet before signing *)

Section Repair.
Context `{Collaborators}.

(** C3. An operation that needs signing keys first checks the stored
    wallet: the wallet needs the repair when [n > 1] and the ring is not
    complete, as a ring shorter than [n] is not; a wallet that does not
    need it is used as it is, after the load alone.  On a wallet that
    needs the repair the operation first fetches the wallet from the
    server.  It goes on only when [checkCopayers] has
    accepted the copayer list of the server and the ring made of its
    keys has been saved.  In every other case it ends there, without
    success, with the stored wallet as it was and with nothing done
    after the fetch but for a save that failed: with the error of the
    transport or of the server when the request fails, with [Wallet
    Incomplete] when the server does not hold the wallet complete, and
    when the server's list arrives and [checkCopayers] rejects it, with
    the ServerCompromised error, [save] not having been called: the
    stored wallet is still the incomplete one.  If [checkCopayers]
    accepts, the keys of the list become the ring and the data is saved:
    should the save fail the operation ends with that error, otherwise
    the rest of the operation runs on the adopted data, in a world whose
    store holds it. *)
Theorem incomplete_wallet_is_completed_first
    (o : Operation) (w : World) (d : Data.t) :
  needsSigningKeys o = true -> argumentsOk o = true ->
  loadErr w = None -> stored w = Some d ->
  (forall ring n,
     Data.n d = Some n -> (1 < n)%Z ->
     Data.publicKeyRing d = Some ring -> (Z.of_nat (length ring) < n)%Z ->
     n_gt_1 d = true /\ pkrComplete d = false)
  /\ (n_gt_1 d && negb (pkrComplete d) = false ->
      exists k,
        operation o = bind _loadAndCheck k
        /\ run (operation o) w = run (k d) (with_log (log w ++ [EvLoad]) w))
  /\ (n_gt_1 d = true -> pkrComplete d = false ->
  let fetched := [EvLoad; EvRequest (repairRequest d w)] in
  exists out w',
    run (operation o) w = (out, w')
    /\ (exists evs, log w' = log w ++ fetched ++ evs)
    /\ (stored w' = Some d
        /\ (forall res, out <> Called None res)
        /\ (log w' = log w ++ fetched
            \/ exists copayers,
                 checkCopayers copayers (Data.walletPrivKey d) (Data.xPrivKey d)
                   (Data.n d) = true
                 /\ log w' = log w ++ fetched ++ [EvSave (adopt copayers d)])
        \/ exists copayers,
             checkCopayers copayers (Data.walletPrivKey d) (Data.xPrivKey d) (Data.n d)
               = true
             /\ stored w' = Some (adopt copayers d)
             /\ exists evs, log w' = log w ++ fetched ++ [EvSave (adopt copayers d)] ++ evs)
    /\ (forall e rest,
          replies w = TransportFailure e :: rest ->
          out = Called (Some (ErrTransport e)) RNothing
          /\ stored w' = Some d
          /\ log w' = log w ++ fetched)
    /\ (forall statusCode b e rest,
          replies w = Response statusCode b :: rest ->
          statusCode <> 200%Z ->
          (forall w0, _parseError b w0 = (Next e, w0)) ->
          out = Called (Some e) RNothing
          /\ stored w' = Some d
          /\ log w' = log w ++ fetched)
    /\ (forall wallet txps rest,
          replies w = Response 200 (BStatus wallet txps) :: rest ->
          Wallet.status wallet <> Some "complete" ->
          out = Called (Some (ErrString "Wallet Incomplete")) RNothing
          /\ stored w' = Some d
          /\ log w' = log w ++ fetched)
    /\ forall wallet txps rest,
         replies w = Response 200 (BStatus wallet txps) :: rest ->
         Wallet.status wallet = Some "complete" ->
         let d' := adopt (Wallet.copayers wallet) d in
         (checkCopayers (Wallet.copayers wallet) (Data.walletPrivKey d)
            (Data.xPrivKey d) (Data.n d) = false ->
          out = Called
                  (Some (ServerCompromisedError
                     "Copayers in the wallet could not be verified to have known the wallet secret"))
                  RNothing
          /\ stored w' = Some d
          /\ log w' = log w ++ fetched)
         /\ (checkCopayers (Wallet.copayers wallet) (Data.walletPrivKey d)
               (Data.xPrivKey d) (Data.n d) = true ->
             Data.publicKeyRing d' = Some (map Wallet.xPubKey (Wallet.copayers wallet))
             /\ match saveErr w with
                | Some e =>
                    out = Called (Some e) RNothing
                    /\ stored w' = Some d
                    /\ log w' = log w ++ fetched ++ [EvSave d']
                | None =>
                    stored w' = Some d'
                    /\ (exists evs, log w' = log w ++ fetched ++ [EvSave d'] ++ evs)
                    /\ exists k,
                         operation o = bind _loadAndCheck k
                         /\ (out, w') =
                              run (k d')
                                (with_stored (Some d')
                                   (with_log (log w ++ fetched ++ [EvSave d'])
                                      (with_replies rest w)))
                end)).
Proof.
  intros NS A E1 E2.
  destruct (through_check o) as (k & -> & K); [by destruct o|done|].
  split; [intros ring n; apply short_ring_is_incomplete|].
  split.
  { intros G. exists k. split; [done|].
    apply run_bind_next. by apply _loadAndCheck_as_stored. }
  intros GT C fetched.
  pose proof (_loadAndCheck_repairs w d E1 E2 GT C) as LC.
  set (w0 := with_log (log w ++ [EvLoad]) w) in *.
  destruct (run (bind _loadAndCheck k) w) as [out w'] eqn:Run.
  exists out, w'. split; [done|].
  assert (Universal :
    (exists evs, log w' = log w ++ fetched ++ evs)
    /\ (stored w' = Some d
        /\ (forall res, out <> Called None res)
        /\ (log w' = log w ++ fetched
            \/ exists copayers,
                 checkCopayers copayers (Data.walletPrivKey d) (Data.xPrivKey d)
                   (Data.n d) = true
                 /\ log w' = log w ++ fetched ++ [EvSave (adopt copayers d)])
        \/ exists copayers,
             checkCopayers copayers (Data.walletPrivKey d) (Data.xPrivKey d) (Data.n d)
               = true
             /\ stored w' = Some (adopt copayers d)
             /\ exists evs,
                  log w' = log w ++ fetched ++ [EvSave (adopt copayers d)] ++ evs)).
  { destruct (_tryToComplete_spec d w0)
      as (r & w1 & E & [(cs & -> & V & S & Lg)|(o' & evs & -> & S & Lg & _ & _)]).
    - rewrite E in LC. rewrite (run_bind_next _ _ _ _ _ LC) in Run.
      destruct (ok_never_stored (k (adopt cs d)) w1 (K (adopt cs d))) as [St [evs Le]].
      unfold run in Run. destruct (k (adopt cs d) w1) as [[[]|out'] w''].
      simplify_eq. cbn in St, Le, Lg.
      assert (Lw : log w' = log w ++ fetched ++ [EvSave (adopt cs d)] ++ evs).
      { rewrite Le, Lg. unfold fetched. by rewrite <- !app_assoc. }
      split.
      + exists ([EvSave (adopt cs d)] ++ evs). exact Lw.
      + right. exists cs. split_and!; [done|congruence|by exists evs].
    - destruct (_tryToComplete_stops d w0 o' w1 E) as (NoS & _ & Stops).
      rewrite E in LC. rewrite (run_bind_stop _ _ _ _ _ LC) in Run. simplify_eq.
      cbn in S, Lg. split.
      + exists evs. rewrite Lg. unfold fetched. by rewrite <- !app_assoc.
      + left. split_and!; [congruence|done|]. cbn in Stops.
        destruct Stops as [St|(cs & V & St)]; [left|right; exists cs; split; [done|]];
          rewrite St; unfold fetched; by rewrite <- !app_assoc. }
  split; [apply Universal|]. split; [apply Universal|].
  assert (Stopped : forall o1 w1,
            _tryToComplete d w0 = (Stop o1, w1) -> out = o1 /\ w' = w1).
  { intros o1 w1 T. rewrite T in LC.
    rewrite (run_bind_stop _ _ _ _ _ LC) in Run. by simplify_eq. }
  split.
  { intros e rest Rp.
    destruct (Stopped _ _ (repair_unreachable d w0 e rest Rp)) as [-> ->].
    cbn. rewrite E2. split_and!; try done. by rewrite <- app_assoc. }
  split.
  { intros statusCode b e rest Rp NC PE.
    destruct (Stopped _ _ (repair_refused d w0 statusCode b e rest Rp NC PE)) as [-> ->].
    cbn. rewrite E2. split_and!; try done. by rewrite <- app_assoc. }
  split.
  { intros wallet txps rest Rp NC.
    destruct (Stopped _ _ (repair_incomplete d w0 wallet txps rest Rp NC)) as [-> ->].
    cbn. rewrite E2. split_and!; try done. by rewrite <- app_assoc. }
  intros wallet txps rest Rp S d'.
  assert (Rp0 : replies w0 = Response 200 (BStatus wallet txps) :: rest) by done.
  destruct (checkCopayers _ _ _ _) eqn:V.
  - split; [done|]. intros _. split; [done|].
    destruct (saveErr w) as [e|] eqn:SE.
    + rewrite (repair_not_saved d w0 wallet txps rest e Rp0 S V SE) in LC.
      rewrite (run_bind_stop _ _ _ _ _ LC) in Run. simplify_eq.
      cbn. rewrite E2. split_and!; try done. by rewrite <- app_assoc.
    + rewrite (repair_adopted d w0 wallet txps rest Rp0 S V SE) in LC.
      rewrite (run_bind_next _ _ _ _ _ LC) in Run.
      match type of Run with run (k ?a) ?w1 = _ =>
        destruct (ok_never_stored (k a) w1 (K a)) as [St [evs Lg]];
        assert (Run' := Run); unfold run in Run;
        destruct (k a w1) as [[[]|out'] w'']
      end.
      simplify_eq. cbn in St, Lg. split_and!.
      * done.
      * exists evs. rewrite Lg. unfold fetched, d'. cbn.
        rewrite <- !app_assoc. reflexivity.
      * exists k. split; [done|]. rewrite <- Run'. f_equal.
        unfold w0, fetched, d'. cbn. by rewrite <- !app_assoc.
  - split; [|done]. intros _.
    rewrite (repair_rejected d w0 wallet txps rest Rp0 S V) in LC.
    rewrite (run_bind_stop _ _ _ _ _ LC) in Run. simplify_eq.
    cbn. rewrite E2. split_and!; try done. by rewrite <- app_assoc.
Qed.
End Repair.

(** ** Lists of paths, positions and sorted signatures *)

Section Lists.
Lemma newPaths_spec seen ps x : x ∈ newPaths seen ps <-> x ∈ ps /\ x ∉ seen.
Proof.
  revert seen. induction ps as [|p rest IH]; intros seen; cbn.
  - set_solver.
  - destruct (decide (p ∈ seen)).
    + rewrite IH. set_solver.
    + rewrite elem_of_cons, IH. destruct (decide (x = p)); set_solver.
Qed.

Lemma newPaths_NoDup seen ps : NoDup (newPaths seen ps).
Proof.
  revert seen. induction ps as [|p rest IH]; intros seen; cbn.
  - constructor.
  - destruct (decide (p ∈ seen)); [apply IH|].
    constructor; [|apply IH]. rewrite newPaths_spec. set_solver.
Qed.

(** [sortBy] *)
Lemma insertBy_Permutation {A} (key : A -> nat) x l : insertBy key x l ≡ₚ x :: l.
Proof.
  induction l as [|y rest IH]; cbn; [done|].
  destruct (key x <=? key y)%nat; [done|]. rewrite IH. apply Permutation_swap.
Qed.

Lemma sortBy_Permutation {A} (key : A -> nat) l : sortBy key l ≡ₚ l.
Proof.
  induction l as [|x rest IH]; cbn; [done|].
  rewrite insertBy_Permutation. by rewrite IH.
Qed.

Lemma insertBy_Sorted {A} (key : A -> nat) x l :
  Sorted le (map key l) -> Sorted le (map key (insertBy key x l)).
Proof.
  induction l as [|y rest IH]; cbn; intros S.
  - by repeat constructor.
  - destruct (Nat.leb_spec (key x) (key y)); cbn.
    + constructor; [done|]. by constructor.
    + apply Sorted_inv in S as [S T]. constructor; [by apply IH|].
      destruct rest as [|z rest]; cbn.
      * constructor. lia.
      * destruct (Nat.leb_spec (key x) (key z)); cbn; constructor; [lia|].
        by inversion T.
Qed.

Lemma sortBy_Sorted {A} (key : A -> nat) l : Sorted le (map key (sortBy key l)).
Proof.
  induction l as [|x rest IH]; cbn; [constructor|]. by apply insertBy_Sorted.
Qed.

(** Every input has exactly one path. *)
Lemma positions_one_more i q ups (f : string -> list nat) :
  NoDup ups -> q ∈ ups ->
  concat (map (fun p => if decide (q = p) then i :: f p else f p) ups)
  ≡ₚ i :: concat (map f ups).
Proof.
  induction ups as [|u rest IH]; intros N I; [by apply elem_of_nil in I|].
  apply NoDup_cons in N as [NI N]. cbn. destruct (decide (q = u)) as [->|NE].
  - cbn. constructor. apply Permutation_app_head.
    erewrite map_ext_in; [reflexivity|]. intros p Ip. cbn.
    destruct (decide (u = p)) as [->|]; [|done].
    by apply list_elem_of_In in Ip.
  - apply elem_of_cons in I as [?|I]; [done|].
    rewrite (IH N I). by rewrite Permutation_middle.
Qed.

Lemma positions_cover i ps ups :
  NoDup ups -> (forall p, p ∈ ps -> p ∈ ups) ->
  concat (map (fun p => positionsFrom i p ps) ups) ≡ₚ seq i (length ps).
Proof.
  revert i. induction ps as [|q rest IH]; intros i N C; cbn.
  - clear C. induction ups as [|u ups IHu]; cbn; [done|].
    apply NoDup_cons in N as [_ N]. by apply IHu.
  - rewrite (positions_one_more i q ups (fun p => positionsFrom (S i) p rest) N).
    + f_equiv. apply IH; [done|]. intros p I. apply C. by right.
    + apply C. by left.
Qed.

Lemma Sorted_seq i k : Sorted le (seq i k).
Proof.
  revert i. induction k as [|k IH]; intros i; cbn; constructor; [apply IH|].
  destruct k; cbn; constructor. lia.
Qed.
End Lists.

(** ** The signatures of a verified proposal *)

Section Signing.
Context `{Collaborators}.

Lemma ownPaths_all ps : Forall (fun p => inherited p = false) ps -> ownPaths ps = ps.
Proof.
  induction 1 as [|p ps O F IH]; [done|]. unfold ownPaths in *.
  rewrite filter_cons_True by done. by rewrite IH.
Qed.

Lemma ownPaths_cons p ps :
  ownPaths (p :: ps) = if inherited p then ownPaths ps else p :: ownPaths ps.
Proof.
  unfold ownPaths. destruct (inherited p) eqn:O.
  - rewrite filter_cons_False; [done|]. by rewrite O.
  - by rewrite filter_cons_True.
Qed.

Lemma deriveKeys_run xpriv ins :
  forall derived privs seen w,
    (forall p, is_Some (derived !! p) <-> p ∈ seen) ->
    Forall (fun i => is_Some (derive xpriv (path i))) ins ->
    exists keys,
      deriveKeys xpriv ins derived privs w =
        (Next (privs ++ keys),
         with_log (log w ++ map (EvDerive xpriv) (newPaths seen (ownPaths (map path ins))))
           w)
      /\ Forall2 (fun p k => derive xpriv p = Some k)
           (newPaths seen (ownPaths (map path ins))) keys.
Proof.
  induction ins as [|i rest IH]; intros derived privs seen w D F.
  - exists []. split; [|constructor]. cbn. unfold ret.
    rewrite !app_nil_r. by destruct w.
  - inversion F as [|? ? [k K] F']; subst. cbn [deriveKeys map].
    rewrite ownPaths_cons. unfold underived.
    destruct (inherited (path i)) eqn:O; cbn [negb andb]; [by apply IH|].
    cbn [newPaths].
    destruct (derived !! path i) as [k'|] eqn:L.
    + rewrite bool_decide_eq_false_2 by done.
      assert (path i ∈ seen) by (apply D; eauto).
      destruct (decide (path i ∈ seen)); [|done]. by apply IH.
    + rewrite bool_decide_eq_true_2 by done.
      assert (path i ∉ seen) by (rewrite <- D, L; by intros [? ?]).
      destruct (decide (path i ∈ seen)); [done|].
      unfold deriveKey, bind, emit. rewrite K. cbn.
      destruct (IH (<[path i := k]> derived) (privs ++ [k]) (path i :: seen)
                  (with_log (log w ++ [EvDerive xpriv (path i)]) w)) as (keys & E & F2).
      * intros p. rewrite elem_of_cons. destruct (decide (path i = p)) as [->|].
        -- rewrite lookup_insert_eq. split; eauto.
        -- rewrite lookup_insert_ne by done. rewrite D. naive_solver.
      * done.
      * exists (k :: keys). split; [|by constructor].
        rewrite E. cbn. rewrite <- !app_assoc. reflexivity.
Qed.

Lemma signAll_run t privs w :
  signAll t privs w =
    (Next (map (getSignatures t) privs),
     with_log (log w ++ map EvGetSignatures privs) w).
Proof.
  revert w. induction privs as [|priv rest IH]; intros w; cbn.
  - unfold ret. rewrite app_nil_r. by destruct w.
  - unfold bind, emit. rewrite IH. cbn. unfold ret. by rewrite <- app_assoc.
Qed.

Lemma signed_positions t xpriv paths ups keys :
  (forall p k, p ∈ paths -> derive xpriv p = Some k ->
     map inputIndex (getSignatures t k) = positionsFrom 0 p paths) ->
  (forall p, p ∈ ups -> p ∈ paths) ->
  Forall2 (fun p k => derive xpriv p = Some k) ups keys ->
  map inputIndex (concat (map (getSignatures t) keys))
  = concat (map (fun p => positionsFrom 0 p paths) ups).
Proof.
  intros F I D. induction D as [|p k ups keys K D IH]; cbn; [done|].
  rewrite map_app, IH by (intros q ?; apply I; by right). f_equal.
  apply F; [|done]. apply I. by left.
Qed.

(** C2. A proposal that passes verification is signed as follows: for
    each distinct derivation path of its inputs the key is derived once
    (one [derive] per path, whatever the order of the inputs), each key
    is handed to [getSignatures] once, and the one request that follows
    submits the signatures of all keys, flattened and sorted by ascending
    input index.  The paths are those that [derived] holds no entry for:
    a path that is a name every object inherits, such as [constructor],
    is never derived.  When no path of the proposal is such a name, and
    Bitcore signs, with the key of a path, each input of that path once,
    the submitted list has one signature per input: the signature of
    input 0 first, then that of input 1, and so on. *)
Theorem verified_proposal_signatures
    (txp : TxProposal) (w w1 : World) (data : Data.t) (network xpriv : string) :
  truthy_str (creatorId txp) = true ->
  _loadAndCheck w = (Next data, w1) ->
  checkTxProposal data txp = true ->
  addressNetwork (toAddress txp) = Some network ->
  HDPrivateKey (Data.xPrivKey data) (Some network) = Some xpriv ->
  Forall (fun i => is_Some (derive xpriv (path i))) (inputs txp) ->
  exists paths keys signatures out w2 r,
    run (signTxProposal txp) w = (out, w2)
    /\ NoDup paths
    /\ (forall p, p ∈ paths <-> p ∈ map path (inputs txp) /\ inherited p = false)
    /\ Forall2 (fun p k => derive xpriv p = Some k) paths keys
    /\ log w2 = log w1 ++ map (EvDerive xpriv) paths ++ map EvGetSignatures keys
                 ++ [EvRequest r]
    /\ method r = "post"
    /\ url r = baseUrl w1 +:+ "/v1/txproposals/" +:+ txpId txp +:+ "/signatures/"
    /\ body r = JObj [("signatures", JArr (map (fun s => JStr (signature s)) signatures))]
    /\ signatures ≡ₚ concat (map (getSignatures (buildTransaction txp)) keys)
    /\ Sorted le (map inputIndex signatures)
    /\ ((forall p k,
           p ∈ map path (inputs txp) -> derive xpriv p = Some k ->
           map inputIndex (getSignatures (buildTransaction txp) k)
           = positionsFrom 0 p (map path (inputs txp))) ->
        Forall (fun i => inherited (path i) = false) (inputs txp) ->
        map inputIndex signatures = seq 0 (length (inputs txp)))
    /\ (forall b rest, replies w1 = Response 200 b :: rest -> out = Called None (RBody b)).
Proof.
  intros T L C A X Fd.
  set (t := buildTransaction txp) in *.
  set (paths := newPaths [] (ownPaths (map path (inputs txp)))).
  destruct (deriveKeys_run xpriv (inputs txp) ∅ [] [] w1) as (keys & D & F2); [|done|].
  { intros p. rewrite lookup_empty. split; [by intros [? ?]|by intros ?%elem_of_nil]. }
  fold paths in D, F2. cbn in D.
  set (signatures := sortBy inputIndex (concat (map (getSignatures t) keys))).
  assert (I : forall p, p ∈ paths <-> p ∈ map path (inputs txp) /\ inherited p = false).
  { intros p. unfold paths, ownPaths. rewrite newPaths_spec, list_elem_of_filter.
    set_solver. }
  assert (N : new_HDPrivateKey (Data.xPrivKey data) (Some network) w1 = (Next xpriv, w1)).
  { unfold new_HDPrivateKey. by rewrite X. }
  destruct (request_then_handOver "post"
              ("/v1/txproposals/" +:+ txpId txp +:+ "/signatures/")
              (signatureArgs (map (getSignatures t) keys)) data
              (with_log (log w1 ++ map (EvDerive xpriv) paths ++ map EvGetSignatures keys) w1))
    as (out & w2 & R & _ & Lg & OK & _).
  eexists paths, keys, signatures, out, w2, _.
  split_and!.
  - unfold signTxProposal. rewrite T. cbn [negb].
    rewrite (run_bind_next _ _ _ _ _ L), C. cbn [negb]. rewrite A.
    rewrite (run_bind_next _ _ _ _ _ N).
    rewrite (run_bind_next _ _ _ _ _ D).
    rewrite (run_bind_next _ _ _ _ _ (signAll_run t keys _)).
    unfold _doPostRequest. cbn. rewrite <- app_assoc. exact R.
  - apply newPaths_NoDup.
  - exact I.
  - exact F2.
  - rewrite Lg. cbn. rewrite <- !app_assoc. reflexivity.
  - done.
  - done.
  - done.
  - apply sortBy_Permutation.
  - apply sortBy_Sorted.
  - intros F O. apply (Sorted_unique le); [apply sortBy_Sorted|apply Sorted_seq|].
    assert (I' : forall p, p ∈ map path (inputs txp) -> p ∈ paths).
    { intros p Ip. apply I. split; [done|].
      apply list_elem_of_fmap in Ip as (i & -> & Ii).
      by apply (proj1 (Forall_forall _ _) O). }
    unfold signatures. rewrite sortBy_Permutation.
    rewrite (signed_positions t xpriv (map path (inputs txp)) paths keys F);
      [|intros p Ip; by apply I|done].
    rewrite positions_cover; [by rewrite length_map|apply newPaths_NoDup|apply I'].
  - exact OK.
Qed.
End Signing.

(** ** Operations that only read *)

Section ReadOnly.
Context `{Collaborators}.

Lemma readsThroughCheck_run o w d :
  readsThroughCheck o = true ->
  loadErr w = None -> stored w = Some d ->
  n_gt_1 d = true -> pkrComplete d = false ->
  forall out w1,
    _tryToComplete d (with_log (log w ++ [EvLoad]) w) = (Stop out, w1) ->
    run (operation o) w = (out, w1).
Proof.
  intros R E1 E2 N C out w1 T.
  pose proof (_loadAndCheck_repairs w d E1 E2 N C) as L. rewrite T in L.
  destruct o; try discriminate R; cbn [operation].
  - unfold getMainAddresses. by rewrite (run_bind_stop _ _ _ _ _ L).
  - unfold getBalance. by rewrite (run_bind_stop _ _ _ _ _ L).
  - unfold getTxProposals. by rewrite (run_bind_stop _ _ _ _ _ L).
Qed.

(** C5, as the code has it.  [getStatus] proceeds on an incomplete
    wallet: it loads the wallet without the completeness check, sends its
    one request and saves nothing, and a status reply becomes its
    result.  [getBalance], [getMainAddresses] and [getTxProposals] load
    through [_loadAndCheck]: on a wallet with [n > 1] and an incomplete
    ring they run the repair first, they end with the error of the
    repair when it fails, and it fails with [Wallet Incomplete] when the
    server does not hold the wallet complete either. *)
Theorem reading_an_incomplete_wallet (w : World) (d : Data.t) :
  loadErr w = None -> stored w = Some d ->
  n_gt_1 d = true -> pkrComplete d = false ->
  (exists out w',
     run getStatus w = (out, w')
     /\ stored w' = Some d
     /\ log w' = log w
                  ++ [EvLoad;
                      EvRequest (requestArgs (baseUrl w) (basePath w) "get" "/v1/wallets/"
                                   (JObj []) d)]
     /\ forall wallet txps rest,
          replies w = Response 200 (BStatus wallet (Some txps)) :: rest ->
          out = Called None
                  (RStatus
                     (BStatus wallet
                        (Some (_processTxps txps (Data.sharedEncryptingKey d))))
                     (Data.copayerId d)))
  /\ (forall o, readsThroughCheck o = true ->
        (forall out w1,
           _tryToComplete d (with_log (log w ++ [EvLoad]) w) = (Stop out, w1) ->
           run (operation o) w = (out, w1))
        /\ (forall wallet txps rest,
              replies w = Response 200 (BStatus wallet txps) :: rest ->
              Wallet.status wallet <> Some "complete" ->
              exists w1,
                run (operation o) w =
                  (Called (Some (ErrString "Wallet Incomplete")) RNothing, w1)
                /\ stored w1 = Some d
                /\ log w1 = log w ++ [EvLoad; EvRequest (repairRequest d w)])).
Proof.
  intros E1 E2 N C. split.
  - unfold getStatus. rewrite (run_bind_next _ _ _ _ _ (_load_stored w d E1 E2)).
    destruct (_doRequest_issue "get" "/v1/wallets/" (JObj []) d
                (with_log (log w ++ [EvLoad]) w))
      as (r & w' & E & S & _ & _ & _ & L).
    unfold _doGetRequest. cbn in S, L. rewrite <- app_assoc in L. cbn in L.
    destruct r as [[err b]|out].
    + rewrite (run_bind_next _ _ _ _ _ E).
      assert (exists out, run (match b with
                   | BStatus wallet (Some txps) =>
                       callback err
                         (RStatus (BStatus wallet
                            (Some (_processTxps txps (Data.sharedEncryptingKey d))))
                            (Data.copayerId d))
                   | _ => throw (TypeError "result.pendingTxps")
                   end) w' = (out, w')) as [out O].
      { destruct b as [| | |? [?|]| | |]; eexists; reflexivity. }
      eexists _, _. split; [exact O|]. split; [congruence|]. split; [exact L|].
      intros wallet txps rest R. revert E O.
      unfold _doRequest, this_baseUrl, this_basePath, request, issue, receive, emit,
        bind, ret. cbn. rewrite R. cbn. intros ?; simplify_eq. cbn.
      unfold run, callback. by intros ?; simplify_eq.
    + rewrite (run_bind_stop _ _ _ _ _ E).
      eexists _, _. split; [reflexivity|]. split; [congruence|]. split; [exact L|].
      intros wallet txps rest R. revert E.
      unfold _doRequest, this_baseUrl, this_basePath, request, issue, receive, emit,
        bind, ret. cbn. rewrite R. cbn. done.
  - intros o R. split.
    + by apply readsThroughCheck_run.
    + intros wallet txps rest Rp S.
      eexists. split.
      * eapply readsThroughCheck_run; try eassumption.
        by apply (repair_incomplete d _ wallet txps rest).
      * cbn. rewrite <- app_assoc. by rewrite E2.
Qed.

(** A request that fails at the transport leaves [getStatus] with no
    result to read. *)
Lemma getStatus_without_reply w d e rest :
  loadErr w = None -> stored w = Some d ->
  replies w = TransportFailure e :: rest ->
  fst (run getStatus w) = Threw (TypeError "result.pendingTxps").
Proof.
  intros E1 E2 R. unfold getStatus.
  rewrite (run_bind_next _ _ _ _ _ (_load_stored w d E1 E2)).
  unfold run, _doGetRequest, _doRequest, this_baseUrl, this_basePath, request, issue,
    receive, emit, bind, ret, throw. cbn. rewrite R. done.
Qed.
End ReadOnly.

(** ** Export and import *)

Section ExportImport.
Context `{Collaborators}.

Lemma own_key_first (x : string) (ring : list string) :
  NoDup ring -> x ∈ ring -> x :: filter (fun k => k <> x) ring ≡ₚ ring.
Proof.
  induction ring as [|k rest IH]; intros N I; [by apply elem_of_nil in I|].
  apply NoDup_cons in N as [NI N]. destruct (decide (k = x)) as [->|NE].
  - rewrite filter_cons_False by (by intros ?). f_equiv.
    clear IH I N. induction rest as [|k rest IH]; [done|].
    apply not_elem_of_cons in NI as [? ?].
    rewrite filter_cons_True by congruence. f_equiv. by apply IH.
  - apply elem_of_cons in I as [?|I]; [congruence|].
    rewrite filter_cons_True by congruence. rewrite Permutation_swap. f_equiv. by apply IH.
Qed.

Lemma readKeys_strings l : readKeys (map JStr l) = Some l.
Proof. induction l as [|k rest IH]; cbn; [done|]. by rewrite IH. Qed.

Lemma jsonify_strings l : map jsonify (map JStr l) = map JStr l.
Proof. induction l as [|k rest IH]; cbn; [done|]. by rewrite IH. Qed.

Lemma truthy_str_Some s : s <> "" -> truthy_str (Some s) = true.
Proof. intros NE. unfold truthy_str. cbn. by destruct (String.eqb_spec s ""). Qed.

(** C6. A complete wallet that holds its master key is exported with
    access [full] and the text is imported into an empty store: the
    import succeeds and saves a wallet with the same [copayerId], [m] and
    [n], whose ring is the local key followed by the other keys of the
    exported ring, in their order: the exported ring, with the local key
    moved to the front. *)
Theorem export_import_round_trip
    (w fresh : World) (d : Data.t) (x xpriv xPubKey : string)
    (ring : list string) (m : Z) :
  loadErr w = None -> stored w = Some d ->
  Data.xPrivKey d = Some x -> x <> "" ->
  HDPublicKey (Some x) = Some xPubKey ->
  Data.copayerId d = Some (xPubToCopayerId xPubKey) ->
  xPubToCopayerId xPubKey <> "" ->
  Data.m d = Some m -> m <> 0%Z ->
  Data.publicKeyRing d = Some ring ->
  Data.n d = Some (Z.of_nat (length ring)) ->
  NoDup ring -> xPubKey ∈ ring ->
  stored fresh = None -> saveErr fresh = None ->
  HDPrivateKey (Some x) None = Some xpriv ->
  HDPublicKey (Some xpriv) = Some xPubKey ->
  is_Some (derive xpriv "m/1/0") -> is_Some (derive xpriv "m/1/1") ->
  JSON_parse (JSON_stringify (exported "full" d xPubKey))
    = Some (jsonify (exported "full" d xPubKey)) ->
  exists str w' access fresh' d',
    run (export (Some "full")) w = (Called None (RText str), w')
    /\ run (import str) fresh = (Called None (RText access), fresh')
    /\ stored fresh' = Some d'
    /\ Data.copayerId d' = Data.copayerId d
    /\ Data.m d' = Data.m d
    /\ Data.n d' = Data.n d
    /\ Data.publicKeyRing d' = Some (xPubKey :: filter (fun k => k <> xPubKey) ring)
    /\ xPubKey :: filter (fun k => k <> xPubKey) ring ≡ₚ ring.
Proof.
  intros E1 E2 X NX PX CI NCI M NM R N ND I SF SE XP PXP [ro RO] [rw RW] J.
  pose proof (own_key_first xPubKey ring ND I) as Perm.
  assert (LC : _loadAndCheck w = (Next d, with_log (log w ++ [EvLoad]) w)).
  { apply _loadAndCheck_as_stored; [done..|].
    unfold pkrComplete. rewrite R, M, N.
    rewrite bool_decide_eq_true_2 by done.
    unfold truthy_str, truthy_num. cbn.
    destruct (m =? 0)%Z eqn:Z0; [apply Z.eqb_eq in Z0; done|].
    cbn. apply andb_false_r. }
  assert (S : exists sek, readStr (jsonify (jstr (Data.sharedEncryptingKey d))) = Some sek).
  { destruct (Data.sharedEncryptingKey d); cbn; eauto. }
  destruct S as [sek Sek].
  eexists _, _, _, _, _. split_and!.
  - unfold export. cbn. rewrite (run_bind_next _ _ _ _ _ LC), X, PX. reflexivity.
  - unfold import, run, bind, storage_load, emit. cbn. rewrite SF, J.
    unfold exported. cbn. rewrite X, M, R. cbn.
    unfold importData, readData. cbn.
    rewrite jsonify_strings, readKeys_strings.
    rewrite Sek.
    assert (EX : String.eqb x "" = false) by (by apply String.eqb_neq).
    assert (EC : String.eqb (xPubToCopayerId xPubKey) "" = false)
      by (by apply String.eqb_neq).
    assert (EM : (m =? 0)%Z = false) by (by apply Z.eqb_neq).
    unfold importOwnKey, new_HDPrivateKey, bind, deriveKey, emit, ret. cbn.
    rewrite EX. cbn. rewrite XP. cbn. rewrite PXP, RO. cbn. rewrite RW. cbn.
    rewrite EC, EM. cbn.
    assert (EN : forall k, (Z.of_nat (S k) =? 0)%Z = false)
      by (intros; apply Z.eqb_neq; lia).
    rewrite EN. cbn.
    unfold storage_save, bind, emit, callback. cbn. rewrite SE. reflexivity.
  - reflexivity.
  - by rewrite CI.
  - by rewrite M.
  - cbn. rewrite N. do 2 f_equal. change (S ?a) with (length (xPubKey :: filter (fun k => k <> xPubKey) ring)).
    by rewrite Perm.
  - reflexivity.
  - exact Perm.
Qed.
End ExportImport.

(** ** What the operations do to the wallet file *)

Section Store.
Context `{Collaborators}.

Lemma sat_initData P network walletPrivKey m n :
  sat P (_initData network walletPrivKey m n) created.
Proof.
  unfold _initData. eapply sat_bind; [apply ok_generate|]. intros e _. cbv zeta.
  destruct (HDPublicKey _); [|apply sat_throw].
  eapply sat_bind; [apply ok_deriveKey|]. intros ro _.
  eapply sat_bind; [apply ok_deriveKey|]. intros rw _.
  apply sat_ret. by eexists.
Qed.

Ltac created_step :=
  cbv beta;
  first [ eapply sat_bind; [apply sat_initData|intros ? ?]
        | apply ok_storage_save
        | ok_step ].

Lemma ok_createWallet walletName copayerName m n network :
  ok created (createWallet walletName copayerName m n network).
Proof. unfold createWallet. cbv zeta. repeat created_step. done. Qed.

Lemma ok_joinWallet secret copayerName : ok created (joinWallet secret copayerName).
Proof.
  unfold joinWallet. repeat created_step.
  match goal with D : created _ |- _ => destruct D as [k D]; by exists k end.
Qed.

Lemma sat_importOwnKey P data : ok P (importOwnKey data).
Proof. unfold importOwnKey. ok_auto. Qed.

Lemma ok_importData inData : ok imported (importData inData).
Proof.
  unfold importData. destruct inData; try apply sat_throw; try apply sat_unmodelled.
  destruct (readData items); [|apply sat_unmodelled].
  apply ok_bind; [apply sat_importOwnKey|]. intros data.
  destruct (Data.publicKeyRing data) as [ring|] eqn:R; [|apply sat_throw].
  cbv zeta. destruct (_ || _); [apply sat_callback|].
  destruct ring as [|k ring]; [apply sat_throw|].
  apply ok_bind; [|intros; apply sat_callback].
  apply ok_storage_save. exists (k :: ring). by cbn.
Qed.

Lemma ok_import str : ok imported (import str).
Proof. unfold import. ok_auto. apply ok_importData. Qed.

Lemma ok_getStatus : ok never getStatus.
Proof. unfold getStatus. ok_auto. Qed.

Lemma ok_parseTxProposals txps : ok never (parseTxProposals txps).
Proof. unfold parseTxProposals. ok_auto. Qed.

Lemma run_stored P (c : Op) w :
  ok P c ->
  stored (run c w).2 = stored w \/ exists d, stored (run c w).2 = Some d /\ P d.
Proof.
  intros C. destruct (C w) as [[S _] _]. unfold run.
  by destruct (c w) as [[[]|o] w'].
Qed.

(** C8, as the code has it.  An operation leaves the wallet file in one
    of four ways: unchanged; with the ring replaced, as one assignment,
    by the keys of the copayers that the server listed and
    [checkCopayers] accepted for this wallet (the repair of a wallet with
    [n > 1] and an incomplete ring); or, the store having been empty,
    with a new wallet whose ring is the local key alone ([createWallet],
    [joinWallet]) or a ring that [n] counts ([import]).  The ring of a
    stored wallet stays within [n] as long as [checkCopayers] accepts
    only lists of [n] copayers. *)
Theorem ring_changes (o : Operation) (w : World) :
  StoreChange w (run (operation o) w).2
  /\ ((forall copayers walletPrivKey xPrivKey n,
         checkCopayers copayers walletPrivKey xPrivKey n = true ->
         n = Some (Z.of_nat (length copayers))) ->
      forall d, stored w = Some d -> ringBound d ->
      exists d', stored (run (operation o) w).2 = Some d' /\ ringBound d').
Proof.
  assert (C : StoreChange w (run (operation o) w).2).
  { destruct (startsWithCheck o) eqn:SC.
    - destruct (argumentsOk o) eqn:A.
      + destruct (through_check o SC A) as (k & -> & K).
        destruct (run_through_check k w K)
          as (r & w1 & out & w' & E & C & R & S & _ & _ & _).
        rewrite R. cbn. inversion C; subst.
        * apply Unchanged. by rewrite S.
        * eapply RingReplaced; eauto. by rewrite S.
        * apply Unchanged. by rewrite S.
      + destruct o; try discriminate A. cbn in A. cbn [operation].
        unfold signTxProposal. rewrite A. by apply Unchanged.
    - destruct (writesNewWallet o) eqn:W.
      + destruct (stored w) as [d|] eqn:S.
        * apply Unchanged. by rewrite (stored_wallet_survives w d o S W).
        * destruct o; try discriminate W; cbn [operation].
          -- destruct (run_stored _ _ w
                         (ok_createWallet walletName copayerName m n network))
               as [U|(d & S' & k & R)]; [by apply Unchanged|].
             by eapply WalletCreated.
          -- destruct (run_stored _ _ w (ok_joinWallet secret copayerName))
               as [U|(d & S' & k & R)]; [by apply Unchanged|].
             by eapply WalletCreated.
          -- destruct (run_stored _ _ w (ok_import str))
               as [U|(d & S' & ring & R & N)]; [by apply Unchanged|].
             by eapply WalletImported.
      + destruct o; try discriminate SC; try discriminate W; cbn [operation].
        * destruct (run_stored _ _ w ok_getStatus) as [U|(d & _ & [])].
          by apply Unchanged.
        * destruct (run_stored _ _ w (ok_parseTxProposals txps)) as [U|(d & _ & [])].
          by apply Unchanged. }
  split; [exact C|].
  intros V d S B. destruct C as [U|d0 cs S0 _ _ Vd S'|? ? S0|? ? S0]; simplify_eq.
  - exists d. by rewrite U.
  - eexists. split; [eassumption|].
    unfold ringBound, adopt. cbn. rewrite (V _ _ _ _ Vd), length_map. lia.
Qed.
End Store.

(** * Further properties of [lib/client/api.js] *)

(** ** Errors of [_parseError] *)

Section ParseError.
Context `{Collaborators}.

(** X1. The error that [_parseError] makes of a body has the code and
  the message of the body, [error] being the name of the message there;
  where the body has none, or a falsy one, the code is [ERROR] and the
  message is the text for unknown errors.  So both are truthy, always.
  The world is as it was. *)
Theorem parseError_is_structured (b : Body) (w w' : World) (e : Error) :
_parseError b w = (Next e, w') ->
w' = w
/\ exists j code message,
     errorSource b j
     /\ jprop j "code" = Some code
     /\ jprop j "error" = Some message
     /\ e = ErrServer (if truthy code then code else JStr "ERROR")
              (if truthy message then message
               else JStr "There was an unknown error processing the request")
     /\ exists code' message',
          e = ErrServer code' message'
          /\ truthy code' = true /\ truthy message' = true.
Proof.
assert (O : forall j s, errorOf j w = (Next e, s) ->
          s = w /\ exists code message,
            jprop j "code" = Some code
            /\ jprop j "error" = Some message
            /\ e = ErrServer (if truthy code then code else JStr "ERROR")
                     (if truthy message then message
                      else JStr "There was an unknown error processing the request")
            /\ exists code' message',
                 e = ErrServer code' message'
                 /\ truthy code' = true /\ truthy message' = true).
{ intros j s. unfold errorOf, ret, throw.
  destruct (jprop j "code") as [c|], (jprop j "error") as [m|]; try done.
  intros ?; simplify_eq. split; [done|]. exists c, m. split_and!; try done.
  eexists _, _. split; [done|]. unfold jor. split.
  - by destruct (truthy c) eqn:T.
  - by destruct (truthy m) eqn:T. }
assert (W : forall j, errorSource b j -> forall s, errorOf j w = (Next e, s) ->
          s = w
          /\ exists j code message,
               errorSource b j
               /\ jprop j "code" = Some code
               /\ jprop j "error" = Some message
               /\ e = ErrServer (if truthy code then code else JStr "ERROR")
                        (if truthy message then message
                         else JStr "There was an unknown error processing the request")
               /\ exists code' message',
                    e = ErrServer code' message'
                    /\ truthy code' = true /\ truthy message' = true).
{ intros j B s E. destruct (O j s E) as (-> & c & m & ?). split; [done|].
  by exists j, c, m. }
unfold _parseError. destruct b as [|j| | | | |]; [done| |by apply W..].
destruct j as [| | | |s| |]; try by apply W.
destruct (JSON_parse s) as [j|] eqn:P; apply W; cbn; rewrite P; auto.
Qed.

(** X2. [_parseError] throws, in place of returning an error, only for
  a body that is absent or [null], or a text that parses to [null]: what
  it does then is to read a property of nothing.  For every other body
  it returns an error and leaves the world as it is. *)
Theorem parseError_throws_on_null_only (b : Body) (w : World) :
(exists e, _parseError b w = (Next e, w))
\/ (_parseError b w = (Stop (Threw (TypeError "body.code")), w)
    /\ (b = BUndefined
        \/ exists j,
             (j = JNull \/ j = JUndefined)
             /\ (b = BJson j \/ exists s, b = BJson (JStr s) /\ JSON_parse s = Some j))).
Proof.
assert (O : forall j,
          (exists e, errorOf j w = (Next e, w))
          \/ (errorOf j w = (Stop (Threw (TypeError "body.code")), w)
              /\ (j = JNull \/ j = JUndefined))).
{ intros j. unfold errorOf, ret, throw.
  destruct j; cbn; try (left; by eexists); right; auto. }
unfold _parseError. destruct b as [|j| | | | |]; try (left; by eexists).
- right. split; [done|by left].
- destruct j as [| | | |s| |]; try (left; by eexists).
  + right. split; [done|]. right. exists JUndefined. split; [by right|by left].
  + right. split; [done|]. right. exists JNull. split; [by left|by left].
  + destruct (JSON_parse s) as [j|] eqn:P; [|left; by eexists].
    destruct (O j) as [E|[E N]]; [by left|]. right. split; [done|]. right.
    exists j. split; [done|]. right. by exists s.
Qed.
End ParseError.

(** ** The first failing request ends the operation with its error *)

Section Surfaces.
Context `{Collaborators}.
Variable e : Error.

Lemma silent_refl w : silent w w.
Proof. split; [done|]. exists []. by rewrite app_nil_r. Qed.

Lemma silent_trans w1 w2 w3 : silent w1 w2 -> silent w2 w3 -> silent w1 w3.
Proof.
intros [R1 (e1 & L1 & F1)] [R2 (e2 & L2 & F2)]. split; [congruence|].
exists (e1 ++ e2). split; [by rewrite L2, L1, app_assoc|by apply Forall_app].
Qed.

Lemma silent_emit ev w : ~ isRequest ev -> silent w (with_log (log w ++ [ev]) w).
Proof. intros N. split; [done|]. exists [ev]. split; [done|]. by constructor. Qed.

Lemma surf_bind {A B} (c : M A) (k : A -> M B) :
surfaces e c -> (forall a, surfaces e (k a)) -> surfaces e (bind c k).
Proof.
intros C K w reply rest R F. unfold bind. specialize (C w reply rest R F).
destruct (c w) as [[a|o] w1]; [|done].
assert (R1 : replies w1 = reply :: rest) by (destruct C as [-> _]; done).
specialize (K a w1 reply rest R1 F).
destruct (k a w1) as [[b|o] w2].
- by eapply silent_trans.
- destruct K as [K|K]; [by left|right; by eapply silent_trans].
Qed.

Lemma surf_assoc {A B C} (c : M A) (f : A -> M B) (k : B -> M C) :
surfaces e (bind c (fun x => bind (f x) k)) -> surfaces e (bind (bind c f) k).
Proof.
intros S w reply rest R F. specialize (S w reply rest R F). unfold bind in *.
by destruct (c w) as [[a|o] w1].
Qed.

Lemma surf_ret {A} (a : A) : surfaces e (ret a).
Proof. intros w ? ? _ _. apply silent_refl. Qed.

Lemma surf_callback {A} err res : surfaces e (@callback A err res).
Proof. intros w ? ? _ _. right. apply silent_refl. Qed.

Lemma surf_throw {A} x : surfaces e (@throw A x).
Proof. intros w ? ? _ _. right. apply silent_refl. Qed.

Lemma surf_unmodelled {A} : surfaces e (@unmodelled A).
Proof. intros w ? ? _ _. right. apply silent_refl. Qed.

Lemma surf_emit ev : ~ isRequest ev -> surfaces e (emit ev).
Proof. intros N w ? ? _ _. by apply silent_emit. Qed.

Lemma surf_this_baseUrl : surfaces e this_baseUrl.
Proof. intros w ? ? _ _. apply silent_refl. Qed.

Lemma surf_this_basePath : surfaces e this_basePath.
Proof. intros w ? ? _ _. apply silent_refl. Qed.

Lemma surf_storage_getName : surfaces e storage_getName.
Proof. intros w ? ? _ _. apply silent_refl. Qed.

Lemma surf_generate : surfaces e generate.
Proof.
intros w ? ? _ _. cbn. split; [done|]. exists [EvGenerateKey].
split; [done|]. constructor; [tauto|done].
Qed.

Lemma surf_storage_load : surfaces e storage_load.
Proof.
intros w ? ? _ _. cbn. split; [done|]. exists [EvLoad].
split; [done|]. constructor; [tauto|done].
Qed.

Lemma surf_storage_save d : surfaces e (storage_save d).
Proof.
intros w ? ? _ _. unfold storage_save, bind, emit. cbn.
destruct (saveErr w); cbn; (split; [done|]); exists [EvSave d];
  (split; [done|]); (constructor; [tauto|done]).
Qed.

(** The request itself: its failure is what the continuation is given. *)
Lemma failed_request verb route args data w reply rest :
replies w = reply :: rest -> failsWith reply e ->
_doRequest verb route args data w
= (Next (Some e, BUndefined),
   with_replies rest
     (with_log (log w ++ [EvRequest (requestArgs (baseUrl w) (basePath w)
                                       verb route args data)]) w)).
Proof.
intros R F. unfold _doRequest, bind, this_baseUrl, this_basePath, request, issue,
  emit, receive. cbn. rewrite R. destruct reply as [err|statusCode b]; cbn in *.
- by subst.
- destruct F as [N P]. destruct (Z.eqb_spec statusCode 200); [done|]. cbn.
  by rewrite P.
Qed.

Lemma surf_request {A} verb route args data (k : option Error * Body -> M A) :
(forall w, k (Some e, BUndefined) w = (Stop (Called (Some e) RNothing), w)) ->
surfaces e (bind (_doRequest verb route args data) k).
Proof.
intros K w reply rest R F. unfold bind.
rewrite (failed_request _ _ _ _ _ _ _ R F), K. by left.
Qed.

Lemma surf_join {A} walletId walletPrivKey xPubKey copayerName
  (k : option Error * option Wallet.t -> M A) :
(forall w, k (Some e, None) w = (Stop (Called (Some e) RNothing), w)) ->
surfaces e (bind (_doJoinWallet walletId walletPrivKey xPubKey copayerName) k).
Proof.
intros K. unfold _doJoinWallet. apply surf_assoc. apply surf_request.
intros w. unfold bind, joinReply, ret. by rewrite K.
Qed.
End Surfaces.

Ltac surf_step :=
  match goal with
  | |- surfaces _ (bind (_doRequest _ _ _ _) _) =>
      apply surf_request; intros ?; reflexivity
  | |- surfaces _ (bind (_doPostRequest _ _ _) _) =>
      apply surf_request; intros ?; reflexivity
  | |- surfaces _ (bind (_doGetRequest _ _) _) =>
      apply surf_request; intros ?; reflexivity
  | |- surfaces _ (bind (_doJoinWallet _ _ _ _) _) =>
      apply surf_join; intros ?; reflexivity
  | |- surfaces _ (bind _ _) => apply surf_bind; [|intros ?]
  | |- surfaces _ (ret _) => apply surf_ret
  | |- surfaces _ (callback _ _) => apply surf_callback
  | |- surfaces _ (compromised _) => apply surf_callback
  | |- surfaces _ (throw _) => apply surf_throw
  | |- surfaces _ unmodelled => apply surf_unmodelled
  | |- surfaces _ (emit _) => apply surf_emit; cbn; tauto
  | |- surfaces _ this_baseUrl => apply surf_this_baseUrl
  | |- surfaces _ this_basePath => apply surf_this_basePath
  | |- surfaces _ storage_getName => apply surf_storage_getName
  | |- surfaces _ generate => apply surf_generate
  | |- surfaces _ storage_load => apply surf_storage_load
  | |- surfaces _ (storage_save _) => apply surf_storage_save
  | |- surfaces _ (match ?x with _ => _ end) => destruct x
  | |- surfaces _ (let _ := _ in _) => cbv zeta
  end.

Ltac surf_auto := repeat (cbv beta; surf_step).

Section SurfacesOperations.
Context `{Collaborators}.
Variable e : Error.

Lemma surf_deriveKey xpriv p : surfaces e (deriveKey xpriv p).
Proof. unfold deriveKey. surf_auto. Qed.

Lemma surf_load : surfaces e _load.
Proof. unfold _load. surf_auto. Qed.

Lemma surf_loadAndCheck : surfaces e _loadAndCheck.
Proof.
unfold _loadAndCheck. apply surf_bind; [apply surf_load|]. intros d.
unfold _tryToComplete. surf_auto.
Qed.

Lemma surf_initData network walletPrivKey m n :
surfaces e (_initData network walletPrivKey m n).
Proof. unfold _initData. surf_auto; apply surf_deriveKey. Qed.

Lemma surf_firstKey d : surfaces e (firstKey d).
Proof. unfold firstKey. surf_auto. Qed.

Lemma surf_deriveKeys xpriv ins derived privs :
surfaces e (deriveKeys xpriv ins derived privs).
Proof.
revert derived privs. induction ins as [|i rest IH]; intros derived privs; cbn.
- surf_auto.
- destruct (underived derived (path i)); [|apply IH].
  apply surf_bind; [apply surf_deriveKey|]. intros k. apply IH.
Qed.

Lemma surf_new_HDPrivateKey arg network : surfaces e (new_HDPrivateKey arg network).
Proof. unfold new_HDPrivateKey. surf_auto. Qed.

Lemma surf_signAll t privs : surfaces e (signAll t privs).
Proof. induction privs as [|priv rest IH]; cbn; surf_auto. apply IH. Qed.

Lemma surf_importOwnKey d : surfaces e (importOwnKey d).
Proof.
unfold importOwnKey. surf_auto; auto using surf_deriveKey, surf_new_HDPrivateKey.
Qed.

(** X3. When the first reply of the server is a failure, of the transport
  or a status other than 200, every operation but [getStatus] ends by
  handing that failure to its callback as the error, unless it ended
  before it sent any request. *)
Theorem first_failure_is_the_error (o : Operation) (w : World)
  (reply : Reply) (rest : list Reply) :
o <> GetStatus ->
replies w = reply :: rest ->
failsWith reply e ->
(run (operation o) w).1 = Called (Some e) RNothing
\/ silent w (run (operation o) w).2.
Proof.
intros N R F.
assert (S : surfaces e (operation o)).
{ destruct o; [| | |done| | | | | | | | | | | |]; cbn.
  - unfold createWallet. surf_auto; auto using surf_initData, surf_firstKey.
  - unfold reCreateWallet. apply surf_bind; [apply surf_loadAndCheck|]. intros d.
    surf_auto.
  - unfold joinWallet. surf_auto; auto using surf_initData, surf_firstKey.
  - unfold sendTxProposal. apply surf_bind; [apply surf_loadAndCheck|]. intros d.
    surf_auto.
  - unfold createAddress. apply surf_bind; [apply surf_loadAndCheck|]. intros d.
    surf_auto.
  - unfold getMainAddresses. apply surf_bind; [apply surf_loadAndCheck|]. intros d.
    surf_auto.
  - unfold getBalance. apply surf_bind; [apply surf_loadAndCheck|]. intros d.
    surf_auto.
  - unfold export. apply surf_bind; [apply surf_loadAndCheck|]. intros d.
    surf_auto.
  - unfold import, importData. surf_auto; apply surf_importOwnKey.
  - unfold parseTxProposals. apply surf_bind; [apply surf_load|]. intros d.
    surf_auto.
  - unfold getTxProposals. apply surf_bind; [apply surf_loadAndCheck|]. intros d.
    surf_auto.
  - unfold signTxProposal. destruct (negb _); [surf_auto|].
    apply surf_bind; [apply surf_loadAndCheck|]. intros d.
    destruct (negb _); [surf_auto|].
    destruct (addressNetwork _); [|surf_auto].
    apply surf_bind; [apply surf_new_HDPrivateKey|]. intros xpriv.
    apply surf_bind; [apply surf_deriveKeys|]. intros privs.
    apply surf_bind; [apply surf_signAll|]. intros sigs. surf_auto.
  - unfold rejectTxProposal. apply surf_bind; [apply surf_loadAndCheck|]. intros d.
    surf_auto.
  - unfold broadcastTxProposal. apply surf_bind; [apply surf_loadAndCheck|]. intros d.
    surf_auto.
  - unfold removeTxProposal. apply surf_bind; [apply surf_loadAndCheck|]. intros d.
    surf_auto. }
specialize (S w reply rest R F).
unfold run. destruct (operation o w) as [[[]|out] w']. exact S.
Qed.
End SurfacesOperations.

(** ** What an operation may add to the log *)

Section Emits.
Context `{Collaborators}.
Variable Q : Event -> Prop.

Lemma emits_bind {A B} (c : M A) (k : A -> M B) :
emits Q c -> (forall a, emits Q (k a)) -> emits Q (bind c k).
Proof.
intros C K w. unfold bind. destruct (C w) as (e1 & L1 & F1).
destruct (c w) as [[a|o] w1]; cbn in *; [|by exists e1].
destruct (K a w1) as (e2 & L2 & F2). exists (e1 ++ e2).
split; [by rewrite L2, L1, app_assoc|by apply Forall_app].
Qed.

Lemma emits_nothing {A} (c : M A) : (forall w, log (c w).2 = log w) -> emits Q c.
Proof. intros E w. exists []. by rewrite E, app_nil_r. Qed.

Lemma emits_ret {A} (a : A) : emits Q (ret a).
Proof. by apply emits_nothing. Qed.

Lemma emits_callback {A} err res : emits Q (@callback A err res).
Proof. by apply emits_nothing. Qed.

Lemma emits_throw {A} x : emits Q (@throw A x).
Proof. by apply emits_nothing. Qed.

Lemma emits_unmodelled {A} : emits Q (@unmodelled A).
Proof. by apply emits_nothing. Qed.

Lemma emits_emit ev : Q ev -> emits Q (emit ev).
Proof. intros Qe w. exists [ev]. split; [done|]. by constructor. Qed.

Lemma emits_receive : emits Q receive.
Proof. apply emits_nothing. intros w. unfold receive. by destruct (replies w). Qed.

Lemma emits_this_baseUrl : emits Q this_baseUrl.
Proof. by apply emits_nothing. Qed.

Lemma emits_this_basePath : emits Q this_basePath.
Proof. by apply emits_nothing. Qed.

Lemma emits_storage_getName : emits Q storage_getName.
Proof. by apply emits_nothing. Qed.

Lemma emits_generate : Q EvGenerateKey -> emits Q generate.
Proof.
intros Qe. unfold generate. apply emits_bind; [by apply emits_emit|].
intros _. by apply emits_nothing.
Qed.

Lemma emits_storage_load : Q EvLoad -> emits Q storage_load.
Proof.
intros Qe. unfold storage_load. apply emits_bind; [by apply emits_emit|].
intros _. by apply emits_nothing.
Qed.

Lemma emits_storage_save d : Q (EvSave d) -> emits Q (storage_save d).
Proof.
intros Qe. unfold storage_save. apply emits_bind; [by apply emits_emit|].
intros _. apply emits_nothing. intros w. by destruct (saveErr w).
Qed.
End Emits.

Ltac emits_step :=
  match goal with
  | |- emits _ (bind _ _) => apply emits_bind; [|intros ?]
  | |- emits _ (ret _) => apply emits_ret
  | |- emits _ (callback _ _) => apply emits_callback
  | |- emits _ (compromised _) => apply emits_callback
  | |- emits _ (throw _) => apply emits_throw
  | |- emits _ unmodelled => apply emits_unmodelled
  | |- emits _ (emit _) => apply emits_emit; cbn; tauto
  | |- emits _ (issue _) => apply emits_emit; cbn; tauto
  | |- emits _ receive => apply emits_receive
  | |- emits _ this_baseUrl => apply emits_this_baseUrl
  | |- emits _ this_basePath => apply emits_this_basePath
  | |- emits _ storage_getName => apply emits_storage_getName
  | |- emits _ generate => apply emits_generate; cbn; tauto
  | |- emits _ storage_load => apply emits_storage_load; cbn; tauto
  | |- emits _ (storage_save _) => apply emits_storage_save; cbn; tauto
  | |- emits _ (match ?x with _ => _ end) => destruct x
  | |- emits _ (let _ := _ in _) => cbv zeta
  | |- emits _ _ => progress eauto with emits
  end.

Ltac emits_auto := repeat (cbv beta; emits_step).

Create HintDb emits discriminated.

Section EmitsHelpers.
Context `{Collaborators}.
Variable Q : Event -> Prop.

Lemma emits_errorOf b : emits Q (errorOf b).
Proof. unfold errorOf. emits_auto. Qed.

Lemma emits_parseError b : emits Q (_parseError b).
Proof. unfold _parseError. emits_auto; apply emits_errorOf. Qed.

Lemma emits_doRequest verb route args data :
(forall base basep, Q (EvRequest (requestArgs base basep verb route args data))) ->
emits Q (_doRequest verb route args data).
Proof.
intros R. unfold _doRequest, request, issue.
apply emits_bind; [apply emits_this_baseUrl|]. intros base.
apply emits_bind; [apply emits_this_basePath|]. intros basep.
apply emits_bind.
- apply emits_bind; [by apply emits_emit|]. intros _. apply emits_receive.
- intros r. emits_auto. apply emits_parseError.
Qed.

Lemma emits_handOver r : emits Q (handOver r).
Proof. unfold handOver. emits_auto. Qed.

Lemma emits_joinReply r : emits Q (joinReply r).
Proof. unfold joinReply. emits_auto. Qed.

Lemma emits_firstKey d : emits Q (firstKey d).
Proof. unfold firstKey. emits_auto. Qed.

Lemma emits_deriveKey xpriv p : Q (EvDerive xpriv p) -> emits Q (deriveKey xpriv p).
Proof. intros D. unfold deriveKey. apply emits_bind; [by apply emits_emit|]. intros _. emits_auto. Qed.

Lemma emits_load : Q EvLoad -> emits Q _load.
Proof. intros L. unfold _load. apply emits_bind; [by apply emits_storage_load|]. intros ?. emits_auto. Qed.

Lemma emits_initData network walletPrivKey m n :
Q EvGenerateKey ->
(forall xpriv, Q (EvDerive xpriv "m/1/0")) -> (forall xpriv, Q (EvDerive xpriv "m/1/1")) ->
emits Q (_initData network walletPrivKey m n).
Proof.
intros G D0 D1. unfold _initData. apply emits_bind; [by apply emits_generate|].
intros e. cbv zeta. destruct (HDPublicKey _); [|emits_auto].
apply emits_bind; [by apply emits_deriveKey|]. intros ?.
apply emits_bind; [by apply emits_deriveKey|]. intros ?. emits_auto.
Qed.

Lemma emits_new_HDPrivateKey arg network :
Q EvGenerateKey -> emits Q (new_HDPrivateKey arg network).
Proof.
intros G. unfold new_HDPrivateKey. destruct (HDPrivateKey _ _); [emits_auto|].
destruct (_ || _); [|emits_auto].
apply emits_bind; [by apply emits_generate|]. intros ?. emits_auto.
Qed.

Lemma emits_importOwnKey d :
Q EvGenerateKey ->
(forall xpriv, Q (EvDerive xpriv "m/1/0")) -> (forall xpriv, Q (EvDerive xpriv "m/1/1")) ->
emits Q (importOwnKey d).
Proof.
intros G D0 D1. unfold importOwnKey. destruct (truthy_str _); [|emits_auto].
apply emits_bind; [by apply emits_new_HDPrivateKey|]. intros xpriv.
destruct (HDPublicKey _); [|emits_auto].
destruct (Data.publicKeyRing d); [|emits_auto].
apply emits_bind; [by apply emits_deriveKey|]. intros ?.
apply emits_bind; [by apply emits_deriveKey|]. intros ?. emits_auto.
Qed.

Lemma emits_loadAndCheck :
Q EvLoad -> (forall r, Q (EvRequest r)) -> (forall d, Q (EvSave d)) ->
emits Q _loadAndCheck.
Proof.
intros L R S. unfold _loadAndCheck. apply emits_bind; [by apply emits_load|].
intros d. destruct (n_gt_1 d); [|emits_auto]. destruct (negb _); [|emits_auto].
unfold _tryToComplete, _doGetRequest.
apply emits_bind; [by apply emits_doRequest|]. intros [err b].
destruct err; [emits_auto|]. destruct (body_wallet b) as [[wallet|]|]; [|emits_auto..].
destruct (negb _); [emits_auto|]. destruct (negb _); [emits_auto|]. cbv zeta.
apply emits_bind; [by apply emits_storage_save|]. intros ?. emits_auto.
Qed.

Lemma emits_issueJoins base basep walletId walletPrivKey ring i :
(forall r, x_identity r = None -> x_signature r = None -> Q (EvRequest r)) ->
emits Q (issueJoins base basep walletId walletPrivKey ring i).
Proof.
intros R. revert i. induction ring as [|k rest IH]; intros i; cbn; [emits_auto|].
apply emits_bind; [|intros _; apply IH]. apply emits_emit. by apply R.
Qed.

Lemma emits_awaitJoins pending : emits Q (awaitJoins pending).
Proof.
induction pending as [|pending IH]; cbn; emits_auto;
  auto using emits_parseError, emits_joinReply.
Qed.
End EmitsHelpers.

#[export] Hint Resolve emits_errorOf emits_parseError emits_handOver emits_joinReply
  emits_firstKey emits_awaitJoins : emits.

Section EmitsOperations.
Context `{Collaborators}.

Lemma unsigned_request base basep verb route args :
anonymous (EvRequest (requestArgs base basep verb route args Data.empty)).
Proof. cbn. unfold reqSignature. by destruct (String.eqb verb "get"). Qed.

Lemma emits_anonymous_post Q route args :
(forall r, x_identity r = None -> x_signature r = None -> Q (EvRequest r)) ->
emits Q (_doPostRequest route args Data.empty).
Proof.
intros R. apply emits_doRequest. intros base basep.
by apply R; apply (unsigned_request base basep "post" route args).
Qed.

Lemma emits_anonymous_join Q walletId walletPrivKey xPubKey copayerName :
(forall r, x_identity r = None -> x_signature r = None -> Q (EvRequest r)) ->
emits Q (_doJoinWallet walletId walletPrivKey xPubKey copayerName).
Proof.
intros R. unfold _doJoinWallet.
apply emits_bind; [by apply emits_anonymous_post|]. intros r. apply emits_joinReply.
Qed.

Lemma emits_import Q str :
Q EvLoad -> Q EvGenerateKey -> (forall d, Q (EvSave d)) ->
(forall xpriv, Q (EvDerive xpriv "m/1/0")) -> (forall xpriv, Q (EvDerive xpriv "m/1/1")) ->
emits Q (import str).
Proof.
intros L G S D0 D1. unfold import.
apply emits_bind; [by apply emits_storage_load|]. intros [_ [d|]]; [emits_auto|].
destruct (JSON_parse str) as [inData|]; [|emits_auto]. unfold importData.
destruct inData as [| | | | |items|]; try solve [emits_auto].
destruct (readData items); [|emits_auto].
apply emits_bind; [by apply emits_importOwnKey|]. intros d.
destruct (Data.publicKeyRing d) as [ring|]; [|emits_auto]. cbv zeta.
destruct (_ || _); [emits_auto|]. destruct ring; [emits_auto|].
apply emits_bind; [by apply emits_storage_save|]. intros ?. emits_auto.
Qed.

(** X4. The requests by which [createWallet] and [joinWallet] set a wallet
  up carry no [x-identity] and no [x-signature]; so do those of
  [reCreateWallet], but for the GET of the repair that may precede
  them. *)
Theorem setup_requests_are_unsigned :
(forall walletName copayerName m n network,
   emits anonymous (createWallet walletName copayerName m n network))
/\ (forall secret copayerName, emits anonymous (joinWallet secret copayerName))
/\ (forall walletName,
      emits (fun e => anonymous e \/ exists r, e = EvRequest r /\ method r = "get")
        (reCreateWallet walletName)).
Proof.
split_and!.
- intros. unfold createWallet. cbv zeta. destruct (negb _); [emits_auto|].
  apply emits_bind; [by apply emits_storage_load|]. intros [_ [d|]]; [emits_auto|].
  apply emits_bind; [by apply emits_generate|]. intros e.
  apply emits_bind; [by apply emits_anonymous_post|]. intros [[err|] b]; [emits_auto|].
  destruct (body_walletId b); [|emits_auto].
  apply emits_bind; [by apply emits_initData|]. intros d.
  apply emits_bind; [apply emits_firstKey|]. intros x.
  apply emits_bind; [by apply emits_anonymous_join|]. intros [[err|] ?]; [emits_auto|].
  apply emits_bind; [by apply emits_storage_save|]. intros ?. emits_auto.
- intros. unfold joinWallet.
  apply emits_bind; [by apply emits_storage_load|]. intros [_ [d|]]; [emits_auto|].
  destruct (fromSecret secret); [|emits_auto].
  apply emits_bind; [by apply emits_initData|]. intros d.
  apply emits_bind; [apply emits_firstKey|]. intros x.
  apply emits_bind; [by apply emits_anonymous_join|].
  intros [[err|] [wallet|]]; [emits_auto..| |emits_auto].
  apply emits_bind; [by apply emits_storage_save|]. intros ?. emits_auto.
- intros. unfold reCreateWallet. apply emits_bind.
  { unfold _loadAndCheck. apply emits_bind; [apply emits_load; by left|].
    intros d. destruct (n_gt_1 d); [|emits_auto]. destruct (negb _); [|emits_auto].
    unfold _tryToComplete, _doGetRequest.
    apply emits_bind.
    { apply emits_doRequest. intros. right. by eexists. }
    intros [err b].
    destruct err; [emits_auto|]. destruct (body_wallet b) as [[wallet|]|]; [|emits_auto..].
    destruct (negb _); [emits_auto|]. destruct (negb _); [emits_auto|]. cbv zeta.
    apply emits_bind; [apply emits_storage_save; by left|]. intros ?. emits_auto. }
  intros d. apply emits_bind; [apply emits_generate; by left|]. intros e. cbv zeta.
  apply emits_bind; [apply emits_anonymous_post; by left|]. intros [[err|] b]; [emits_auto|].
  destruct (body_walletId b); [|emits_auto]. destruct (Data.publicKeyRing d); [|emits_auto].
  apply emits_bind; [apply emits_this_baseUrl|]. intros base.
  apply emits_bind; [apply emits_this_basePath|]. intros basep.
  apply emits_bind; [apply emits_issueJoins; by left|]. intros _. apply emits_awaitJoins.
Qed.

(** X5. [import] and [parseTxProposals] send no request, and
  [parseTxProposals] generates no key.  ([import] may: Bitcore's
  constructor makes a fresh key of an [xPrivKey] entry that is the name
  of a network.) *)
Theorem import_and_parse_send_nothing :
(forall str, emits (fun e => ~ isRequest e) (import str))
/\ (forall txps, emits offline (parseTxProposals txps)).
Proof.
split.
- intros. apply emits_import; cbn; tauto.
- intros. unfold parseTxProposals.
  apply emits_bind; [by apply emits_load|]. intros d. emits_auto.
Qed.

(** X6. No operation other than [signTxProposal] calls [getSignatures],
  and none of them derives a key at another path than those of the two
  request keys, [m/1/0] and [m/1/1]. *)
Theorem only_signTxProposal_signs (o : Operation) :
(forall txp, o <> SignTxProposal txp) ->
emits notSigning (operation o).
Proof.
assert (C : emits notSigning _loadAndCheck) by by apply emits_loadAndCheck.
assert (R : forall verb route args data, emits notSigning (_doRequest verb route args data))
  by (intros; by apply emits_doRequest).
assert (J : forall a b c d, emits notSigning (_doJoinWallet a b c d)).
{ intros. unfold _doJoinWallet. apply emits_bind; [apply R|]. intros ?.
  apply emits_joinReply. }
assert (I : forall a b c d, emits notSigning (_initData a b c d)).
{ intros. apply emits_initData; cbn; tauto. }
assert (L : emits notSigning _load) by by apply emits_load.
intros N. destruct o; cbn; try (by destruct (N txp)).
- unfold createWallet. emits_auto; auto; apply R.
- unfold reCreateWallet. apply emits_bind; [apply C|]. intros d. emits_auto; try apply R.
  apply emits_issueJoins. done.
- unfold joinWallet. emits_auto; auto.
- unfold getStatus. apply emits_bind; [apply L|]. intros d.
  apply emits_bind; [apply R|]. intros ?. emits_auto.
- unfold sendTxProposal. apply emits_bind; [apply C|]. intros d. emits_auto; apply R.
- unfold createAddress. apply emits_bind; [apply C|]. intros d.
  apply emits_bind; [apply R|]. intros ?. emits_auto.
- unfold getMainAddresses. apply emits_bind; [apply C|]. intros d.
  apply emits_bind; [apply R|]. intros ?. emits_auto.
- unfold getBalance. apply emits_bind; [apply C|]. intros d.
  apply emits_bind; [apply R|]. intros ?. emits_auto.
- unfold export. apply emits_bind; [apply C|]. intros d. emits_auto.
- apply emits_import; cbn; tauto.
- unfold parseTxProposals. apply emits_bind; [apply L|]. intros d. emits_auto.
- unfold getTxProposals, verifyTxps. apply emits_bind; [apply C|]. intros d.
  apply emits_bind; [apply R|]. intros ?. emits_auto.
- unfold rejectTxProposal. apply emits_bind; [apply C|]. intros d.
  apply emits_bind; [apply R|]. intros ?. emits_auto.
- unfold broadcastTxProposal. apply emits_bind; [apply C|]. intros d.
  apply emits_bind; [apply R|]. intros ?. emits_auto.
- unfold removeTxProposal. apply emits_bind; [apply C|]. intros d.
  apply emits_bind; [apply R|]. intros ?. emits_auto.
Qed.
End EmitsOperations.

(** ** What a successful operation has verified *)

Section Verified.
Context `{Collaborators}.

(** An operation behind [_loadAndCheck] succeeds only on data that
  [_loadAndCheck] handed on, and that data is what the file holds. *)
Lemma success_through_check (k : Data.t -> Op) w res w' :
run (bind _loadAndCheck k) w = (Called None res, w') ->
exists d w1,
  _loadAndCheck w = (Next d, w1) /\ stored w1 = Some d
  /\ run (k d) w1 = (Called None res, w').
Proof.
intros R. destruct (_loadAndCheck_spec w) as (r & w1 & E & C).
destruct C as [d E1 E2 C|d cs w1 E1 E2 N C V S L|o w1 evs S L Q NS].
- rewrite (run_bind_next _ _ _ _ _ E) in R. by exists d, (with_log (log w ++ [EvLoad]) w).
- rewrite (run_bind_next _ _ _ _ _ E) in R. by exists (adopt cs d), w1.
- rewrite (run_bind_stop _ _ _ _ _ E) in R. simplify_eq. by destruct (NS res).
Qed.

Lemma _doRequest_no_success verb route args data w res w' :
_doRequest verb route args data w <> (Stop (Called None res), w').
Proof.
unfold _doRequest, this_baseUrl, this_basePath, request, issue, receive, emit, bind, ret.
cbn. destruct (replies w) as [|[err|code b] rest]; cbn; try done.
destruct (negb (code =? 200)%Z); cbn; [|done].
match goal with |- context [_parseError b ?w0] =>
  pose proof (_parseError_no_success b w0 res w') as P;
  destruct (_parseError b w0) as [[e|o] w2]
end; congruence.
Qed.

(** A request that was answered without error was answered with the
  status 200, and with the body that the callback is given. *)
Lemma _doRequest_answered verb route args data w b w' :
_doRequest verb route args data w = (Next (None, b), w') ->
exists rest, replies w = Response 200 b :: rest.
Proof.
unfold _doRequest, this_baseUrl, this_basePath, request, issue, receive, emit, bind, ret.
cbn. destruct (replies w) as [|[err|code c] rest]; cbn; try done.
destruct (Z.eqb_spec code 200) as [->|NE]; cbn.
- intros ?; simplify_eq. by exists rest.
- match goal with |- context [_parseError c ?w0] =>
    destruct (_parseError c w0) as [[e|o] w2] end; done.
Qed.

(** The request of an operation that succeeds afterwards. *)
Lemma success_after_request verb route args data (k : option Error * Body -> Op) w res w' :
run (bind (_doRequest verb route args data) k) w = (Called None res, w') ->
exists r w1,
  stored w1 = stored w /\ run (k r) w1 = (Called None res, w')
  /\ forall b, r = (None, b) -> exists rest, replies w = Response 200 b :: rest.
Proof.
intros R. destruct (_doRequest_issue verb route args data w) as (r & w1 & E & S & _).
destruct r as [r|o].
- rewrite (run_bind_next _ _ _ _ _ E) in R. exists r, w1. split_and!; [done..|].
  intros b ->. by eapply _doRequest_answered.
- rewrite (run_bind_stop _ _ _ _ _ E) in R. simplify_eq.
  by destruct (_doRequest_no_success verb route args data w res w').
Qed.

Lemma existsb_negb_false {A} (f : A -> bool) l :
existsb (fun a => negb (f a)) l = false -> Forall (fun a => f a = true) l.
Proof.
induction l as [|a l IH]; cbn; [by constructor|].
intros E. apply orb_false_iff in E as [E1 E2]. apply negb_false_iff in E1.
constructor; auto.
Qed.

(** X7. The proposals that [getTxProposals] returns, unless it was told
  not to verify, are the proposals in the server's reply to the request
  that followed the check of the wallet, with their messages decrypted;
  each has passed [Verifier.checkTxProposal] against the wallet data on
  file; and the raw list, returned only on demand, is the list of the
  reply. *)
Theorem getTxProposals_are_verified (getRawTxps : bool) (w w' : World)
  (txps : list TxProposal) (raw : option (list TxProposal)) :
run (getTxProposals false getRawTxps) w = (Called None (RTxps txps raw), w') ->
exists d w1 b rest l,
  _loadAndCheck w = (Next d, w1)
  /\ replies w1 = Response 200 b :: rest
  /\ (b = BTxps l \/ (b = BAddresses [] /\ l = []))
  /\ stored w' = Some d
  /\ txps = _processTxps l (Data.sharedEncryptingKey d)
  /\ Forall (fun txp => checkTxProposal d txp = true) txps
  /\ raw = (if getRawTxps then Some l else None).
Proof.
intros R. apply success_through_check in R as (d & w1 & LC & S & R).
apply success_after_request in R as ([err b] & w2 & S2 & R & A).
assert (V : forall l,
          run (verifyTxps false getRawTxps d l) w2 = (Called None (RTxps txps raw), w') ->
          stored w' = Some d
          /\ txps = _processTxps l (Data.sharedEncryptingKey d)
          /\ Forall (fun txp => checkTxProposal d txp = true) txps
          /\ raw = (if getRawTxps then Some l else None)).
{ intros l. unfold verifyTxps, run, compromised, callback. cbn.
  destruct (existsb _ _) eqn:X; [done|]. intros ?; simplify_eq.
  split_and!; try done; [congruence|]. by apply existsb_negb_false. }
destruct err; [done|]. destruct (A b eq_refl) as [rest Rp].
destruct b as [|j| | | |[|]|l]; try done.
- by destruct getRawTxps.
- destruct j; try done. by destruct getRawTxps.
- apply V in R. exists d, w1, (BAddresses []), rest, []. split_and!; try apply R; auto.
- apply V in R. exists d, w1, (BTxps l), rest, l. split_and!; try apply R; auto.
Qed.

(** X8. The addresses that [getMainAddresses] returns, unless it was told
  not to verify, have each passed [Verifier.checkAddress] against the
  wallet data on file. *)
Theorem getMainAddresses_are_verified (w w' : World) (l : list AddressRecord) :
run (getMainAddresses false) w = (Called None (RBody (BAddresses l)), w') ->
exists d, stored w' = Some d /\ Forall (fun a => checkAddress d a = true) l.
Proof.
intros R. apply success_through_check in R as (d & w1 & _ & S & R).
apply success_after_request in R as ([err b] & w2 & S2 & R & _).
destruct err; [done|]. cbn in R.
destruct b as [|j| | | |l'|[|]]; try done.
unfold run, compromised, callback in R. destruct (existsb _ _) eqn:X; [done|].
simplify_eq. exists d. split; [congruence|]. by apply existsb_negb_false.
Qed.

(** X9. [createAddress] succeeds only with the address in the server's
  reply to the request that followed the check of the wallet, and only
  if that address has passed [Verifier.checkAddress] against the wallet
  data on file. *)
Theorem createAddress_is_verified (w w' : World) (res : Result) :
run createAddress w = (Called None res, w') ->
exists d w1 a rest,
  _loadAndCheck w = (Next d, w1)
  /\ replies w1 = Response 200 (BAddress a) :: rest
  /\ stored w' = Some d
  /\ res = RBody (BAddress a)
  /\ checkAddress d a = true.
Proof.
intros R. apply success_through_check in R as (d & w1 & LC & S & R).
apply success_after_request in R as ([err b] & w2 & S2 & R & A).
destruct err; [done|]. destruct (A b eq_refl) as [rest Rp].
cbn in R. destruct b as [| | | |a| |]; try done.
unfold run, compromised, callback in R. destruct (checkAddress d a) eqn:X; [|done].
cbn in R. simplify_eq. exists d, w1, a, rest. split_and!; [done|done|congruence|done..].
Qed.

(** X10. [parseTxProposals] does nothing but load the wallet file: it
  succeeds only on a wallet that needs no repair, with the given
  proposals after decryption, each of which has passed
  [Verifier.checkTxProposal]. *)
Theorem parseTxProposals_checks_locally (txps : list TxProposal) (w w' : World)
  (res : Result) :
run (parseTxProposals txps) w = (Called None res, w') ->
w' = with_log (log w ++ [EvLoad]) w
/\ exists d,
     stored w = Some d
     /\ n_gt_1 d && negb (pkrComplete d) = false
     /\ res = RTxps (_processTxps txps (Data.sharedEncryptingKey d)) None
     /\ Forall (fun txp => checkTxProposal d txp = true)
          (_processTxps txps (Data.sharedEncryptingKey d)).
Proof.
unfold parseTxProposals, run, bind, _load, storage_load, emit, compromised, callback.
cbn. destruct (loadErr w); [done|]. destruct (stored w) as [d|]; [|done]. cbn.
destruct (n_gt_1 d && negb (pkrComplete d)) eqn:C; [done|].
destruct (existsb _ _) eqn:X; [done|]. intros ?; simplify_eq.
split; [done|]. exists d. split_and!; try done. by apply existsb_negb_false.
Qed.
End Verified.

(** ** A new wallet file is written on success only *)

Section Settles.
Context `{Collaborators}.
Variable P : Data.t -> Result -> Prop.

Lemma settles_bind {A B} (c : M A) (k : A -> M B) Q Q' :
settles P c Q -> (forall a, Q a -> settles P (k a) Q') -> settles P (bind c k) Q'.
Proof.
intros C K w. unfold bind. specialize (C w).
destruct (c w) as [[a|o] w1]; [|done]. destruct C as [S Qa].
specialize (K a Qa w1). destruct (k a w1) as [[b|o] w2].
- destruct K as [S' Qb]. split; [congruence|done].
- destruct K as [[S' N]|K]; [left|by right]. split; [congruence|done].
Qed.

Lemma settles_ret {A} (a : A) (Q : A -> Prop) : Q a -> settles P (ret a) Q.
Proof. by intros Qa w. Qed.

Lemma settles_error {A} e res (Q : A -> Prop) : settles P (callback (Some e) res) Q.
Proof. intros w. by left. Qed.

Lemma settles_throw {A} x (Q : A -> Prop) : settles P (throw x) Q.
Proof. intros w. by left. Qed.

Lemma settles_unmodelled {A} (Q : A -> Prop) : settles P unmodelled Q.
Proof. intros w. by left. Qed.

Lemma settles_storage_load : settles P storage_load (fun _ => True).
Proof. by intros w. Qed.


Lemma settles_generate : settles P generate (fun _ => True).
Proof. by intros w. Qed.


Lemma settles_deriveKey xpriv p :
settles P (deriveKey xpriv p) (fun k => derive xpriv p = Some k).
Proof.
intros w. unfold deriveKey, bind, emit, ret, throw. cbn.
destruct (derive xpriv p); cbn; [done|left]. by split.
Qed.




(** The save with which such an operation ends. *)
Lemma settles_save {A} d res (Q : A -> Prop) :
P d res -> settles P (bind (storage_save d) (fun err => callback err res)) Q.
Proof.
intros Pd w. unfold storage_save, bind, emit, callback. cbn.
destruct (saveErr w); cbn; [by left|]. right. by exists d, res.
Qed.

Lemma settles_new_HDPrivateKey arg network :
settles P (new_HDPrivateKey arg network) (fun _ => True).
Proof.
unfold new_HDPrivateKey. destruct (HDPrivateKey _ _); [by apply settles_ret|].
destruct (_ || _); [|apply settles_throw].
eapply settles_bind; [apply settles_generate|]. intros ? _. by apply settles_ret.
Qed.

Lemma settles_importOwnKey d : settles P (importOwnKey d) (fun _ => True).
Proof.
unfold importOwnKey. destruct (truthy_str _); [|by apply settles_ret].
eapply settles_bind; [apply settles_new_HDPrivateKey|]. intros xpriv _.
destruct (HDPublicKey _); [|apply settles_throw].
destruct (Data.publicKeyRing d); [|apply settles_throw].
eapply settles_bind; [apply settles_deriveKey|]. intros ro _.
eapply settles_bind; [apply settles_deriveKey|]. intros rw _.
by apply settles_ret.
Qed.

Lemma settles_run (c : Op) w :
settles P c (fun _ => True) ->
(stored (run c w).2 = stored w /\ forall res, (run c w).1 <> Called None res)
\/ exists d res,
     (run c w).1 = Called None res /\ stored (run c w).2 = Some d /\ P d res.
Proof. intros C. specialize (C w). unfold run. by destruct (c w) as [[[]|o] w']. Qed.
End Settles.

Section NewWallets.
Context `{Collaborators}.


(** X12. [joinWallet] writes the wallet file as its last step and reports
  success only then: either the file is as it was and the callback got
  no success, or the one reply of the server had the status 200 and a
  wallet, and the file holds data made from fresh keys for the network
  and the wallet key of the secret, with the own key as the only key of
  the ring and with the [m] and [n] of the wallet in that reply. *)
Theorem joinWallet_all_or_nothing (secret copayerName : string) (w : World) :
let r := run (joinWallet secret copayerName) w in
(stored r.2 = stored w /\ forall res, r.1 <> Called None res)
\/ exists d d0 secretData wallet txps rest,
     r.1 = Called None RNothing
     /\ stored r.2 = Some d
     /\ fromSecret secret = Some secretData
     /\ replies w = Response 200 (BStatus wallet txps) :: rest
     /\ initialised (Some (secretNetwork secretData)) (secretWalletPrivKey secretData)
          None None d0
     /\ d = Data.set_n (Wallet.n wallet) (Data.set_m (Wallet.m wallet) d0).
Proof.
cbv zeta. unfold joinWallet, run, bind, storage_load, emit. cbn.
destruct (stored w) as [d|] eqn:S; [by left|].
destruct (fromSecret secret) as [sd|] eqn:F; [|by left].
unfold _initData, generate, bind, emit, deriveKey. cbn.
destruct (HDPublicKey _) as [x|] eqn:X; [|by left]. cbn.
destruct (derive _ "m/1/0") as [ro|] eqn:D0; [|by left]. cbn.
destruct (derive _ "m/1/1") as [rw|] eqn:D1; [|by left]. cbn.
unfold _doJoinWallet, _doPostRequest, _doRequest, bind, this_baseUrl, this_basePath,
  request, issue, emit, receive. cbn.
destruct (replies w) as [|[err|code b] rest] eqn:R; cbn; [by left..|].
destruct (Z.eqb_spec code 200) as [->|NE]; cbn.
- destruct b as [|j| |wallet txps| | |]; cbn; try (by left).
  + destruct j; cbn; by left.
  + unfold storage_save, bind, emit, callback. cbn.
    destruct (saveErr w) as [e|] eqn:SE; cbn; [by left|].
    right. eexists _, _, sd, wallet, txps, rest.
    split_and!; [reflexivity|reflexivity|reflexivity|reflexivity| |reflexivity].
    eexists _, _, _, _. split_and!; [exact X|exact D0|exact D1|reflexivity].
- match goal with |- context [_parseError b ?w0] =>
    pose proof (_parseError_no_success b w0) as NS;
    destruct (_parseError_world b w0) as [s PW];
    rewrite PW
  end.
  destruct s as [e|o]; cbn; left; (split; [done|]); [done|].
  intros res ->. by eapply NS.
Qed.

(** X13. [import] writes the wallet file as its last step and reports
  success only then: either the file is as it was and the callback got
  no success, or the file holds a wallet with a copayer id and an [m],
  a ring that is not empty, [n] the length of the ring and the network
  that the first key of the ring shows, and the result is the access
  level of that wallet. *)
Theorem import_all_or_nothing (str : string) (w : World) :
let r := run (import str) w in
(stored r.2 = stored w /\ forall res, r.1 <> Called None res)
\/ exists d k ring,
     r.1 = Called None (RText (accessFromData d))
     /\ stored r.2 = Some d
     /\ Data.publicKeyRing d = Some (k :: ring)
     /\ Data.n d = Some (Z.of_nat (length (k :: ring)))
     /\ Data.network d = Some (networkOf k)
     /\ truthy_str (Data.copayerId d) = true
     /\ truthy_num (Data.m d) = true.
Proof.
cbv zeta.
set (P := fun d res =>
       exists k ring,
         res = RText (accessFromData d)
         /\ Data.publicKeyRing d = Some (k :: ring)
         /\ Data.n d = Some (Z.of_nat (length (k :: ring)))
         /\ Data.network d = Some (networkOf k)
         /\ truthy_str (Data.copayerId d) = true
         /\ truthy_num (Data.m d) = true).
destruct (settles_run P (import str) w)
  as [?|(d & res & O & S & k & ring & -> & ?)]; [|by left|right; by exists d, k, ring].
unfold import.
eapply settles_bind; [apply settles_storage_load|]. intros [_ [d|]] _;
  [apply settles_error|].
destruct (JSON_parse str) as [inData|]; [|apply settles_throw]. unfold importData.
destruct inData as [| | | | |items|];
  try apply settles_throw; try apply settles_unmodelled.
destruct (readData items) as [d0|]; [|apply settles_unmodelled].
eapply settles_bind; [apply settles_importOwnKey|]. intros d _.
destruct (Data.publicKeyRing d) as [ring|] eqn:R; [|apply settles_throw]. cbv zeta.
destruct (_ || _) eqn:V; [apply settles_error|].
destruct ring as [|k ring]; [apply settles_throw|].
apply settles_save. exists k, ring.
apply orb_false_iff in V as [V Vm]. apply orb_false_iff in V as [Vc Vn].
apply negb_false_iff in Vc, Vm. split_and!; done.
Qed.
End NewWallets.

(** ** Exports without the master key *)

Section RestrictedExport.
Context `{Collaborators}.

Lemma readStr_jstr o : readStr (jsonify (jstr o)) = Some o.
Proof. by destruct o. Qed.

Lemma complete_as_stored w d m ring :
loadErr w = None -> stored w = Some d ->
Data.m d = Some m -> m <> 0%Z ->
Data.publicKeyRing d = Some ring -> Data.n d = Some (Z.of_nat (length ring)) ->
_loadAndCheck w = (Next d, with_log (log w ++ [EvLoad]) w).
Proof.
intros E1 E2 M NM R N. apply _loadAndCheck_as_stored; [done..|].
unfold pkrComplete. rewrite R, M, N. rewrite bool_decide_eq_true_2 by done.
unfold truthy_num. cbn. destruct (Z.eqb_spec m 0); [done|]. apply andb_false_r.
Qed.

(** X14. A complete wallet is exported with an access level other than
  [full] and the text is imported into an empty store: the import
  succeeds and saves a wallet with the same [copayerId], [m], [n],
  [roPrivKey] and shared encrypting key and the same ring in the same
  order, without the master key and without the wallet key, with the
  [rwPrivKey] only if the level was [readwrite], and with the network
  that the first key of the ring shows. *)
Theorem restricted_export_import_round_trip
  (access : string) (w fresh : World) (d : Data.t) (myXPubKey c k : string)
  (ring : list string) (m : Z) :
access <> "" -> access <> "full" ->
loadErr w = None -> stored w = Some d ->
HDPublicKey (Data.xPrivKey d) = Some myXPubKey ->
Data.copayerId d = Some c -> c <> "" ->
Data.m d = Some m -> m <> 0%Z ->
Data.publicKeyRing d = Some (k :: ring) ->
Data.n d = Some (Z.of_nat (length (k :: ring))) ->
stored fresh = None -> saveErr fresh = None ->
JSON_parse (JSON_stringify (exported access d myXPubKey))
  = Some (jsonify (exported access d myXPubKey)) ->
let d' :=
  Data.mk (Some c) None (Some (k :: ring)) (Some (networkOf k)) (Some m) (Data.n d)
    (Data.roPrivKey d)
    (if String.eqb access "readwrite" then Data.rwPrivKey d else None)
    None (Data.sharedEncryptingKey d) in
exists str w' fresh',
  run (export (Some access)) w = (Called None (RText str), w')
  /\ run (import str) fresh = (Called None (RText (accessFromData d')), fresh')
  /\ stored fresh' = Some d'.
Proof.
intros NA NF E1 E2 PX CI NC M NM R N SF SE J d'.
pose proof (complete_as_stored w d m (k :: ring) E1 E2 M NM R N) as LC.
assert (EA : String.eqb access "" = false) by (by apply String.eqb_neq).
assert (EF : String.eqb access "full" = false) by (by apply String.eqb_neq).
assert (EC : String.eqb c "" = false) by (by apply String.eqb_neq).
assert (EM : (m =? 0)%Z = false) by (by apply Z.eqb_neq).
assert (EN : forall i, (Z.of_nat (S i) =? 0)%Z = false)
  by (intros; apply Z.eqb_neq; lia).
assert (X : run (export (Some access)) w
            = (Called None (RText (JSON_stringify (exported access d myXPubKey))),
               with_log (log w ++ [EvLoad]) w)).
{ unfold export, truthy_str. cbn. rewrite EA. cbn.
  by rewrite (run_bind_next _ _ _ _ _ LC), PX. }
subst d'. destruct (String.eqb access "readwrite") eqn:RW.
all: eexists _, _, _; split; [exact X|].
all: unfold import, run, bind, storage_load, emit; cbn; rewrite SF, J.
all: unfold exported; rewrite EF, RW; cbn; rewrite M, R, CI; cbn.
all: unfold importData, readData; cbn.
all: rewrite jsonify_strings, readKeys_strings, !readStr_jstr; cbn.
all: unfold importOwnKey, truthy_str, ret; cbn; rewrite EC, EM, EN; cbn.
all: unfold storage_save, bind, emit, callback; cbn; rewrite SE, N; cbn.
all: split; reflexivity.
Qed.

(** X15. A wallet file without the master key, as the import of such an
  export leaves it, cannot be exported: no export of it succeeds, at
  any access level, whether or not the ring is repaired first.
  (Bitcore's [HDPublicKey] throws when it is given no key.) *)
Theorem export_needs_the_master_key (access : option string) (w w' : World)
  (d : Data.t) (res : Result) :
HDPublicKey None = None ->
stored w = Some d -> Data.xPrivKey d = None ->
run (export access) w <> (Called None res, w').
Proof.
intros HN S X R. unfold export in R. cbv zeta in R.
destruct (_loadAndCheck_spec w) as (r & w1 & E & C).
assert (D : forall d1, r = Next d1 -> Data.xPrivKey d1 = None).
{ destruct C as [d1 E1 E2 C|d1 cs w1 E1 E2 N C V S1 L|o w1 evs S1 L Q NS];
    intros ? ?; simplify_eq; done. }
destruct r as [d1|o].
- rewrite (run_bind_next _ _ _ _ _ E) in R. rewrite (D d1 eq_refl), HN in R. done.
- rewrite (run_bind_stop _ _ _ _ _ E) in R. simplify_eq.
  inversion C as [| |? ? evs S1 L Q NS]; subst. by destruct (NS res).
Qed.
End RestrictedExport.

(** ** Messages *)

Section Messages.
Context `{Collaborators}.

(** X16. Messages survive the way to the server and back: when the
  messages of the proposals are what [_encryptMessage] made of the
  messages [msgs] under the key, [_processTxps] with the same key gives
  each proposal its message back (the empty text for no message) and
  keeps what the server sent as [encryptedMessage].  (The cipher
  decrypts what it encrypted, and no ciphertext is empty.) *)
Theorem messages_round_trip (key : option string) (msgs : list (option string))
  (txps : list TxProposal) :
Forall (fun msg => forall s, msg = Some s -> s <> "" ->
          encryptMessage s key <> ""
          /\ decryptMessage (encryptMessage s key) key = Some s) msgs ->
map message txps = map (fun msg => _encryptMessage msg key) msgs ->
map message (_processTxps txps key) = map (fun msg => Some (default "" msg)) msgs
/\ map encryptedMessage (_processTxps txps key) = map message txps.
Proof.
intros F. revert txps. induction F as [|msg msgs C F IH]; intros [|txp txps] E;
  try discriminate E; [done|].
cbn in E. injection E as E1 E2. destruct (IH txps E2) as [IH1 IH2].
cbn. split; [|by f_equal]. f_equal; [|exact IH1]. f_equal.
rewrite E1. unfold _encryptMessage, _decryptMessage, truthy_str.
destruct msg as [s|]; [|done]. cbn.
destruct (String.eqb_spec s "") as [->|NE]; [done|]. cbn.
destruct (C s eq_refl NE) as [NC D].
destruct (String.eqb_spec (encryptMessage s key) ""); [done|]. cbn. by rewrite D.
Qed.
End Messages.

(** ** Signing stops at the first key that cannot be derived *)

Section FailedDerivation.
Context `{Collaborators}.

Lemma deriveKeys_fails xpriv ins :
forall derived privs w,
  (forall p, is_Some (derived !! p) -> is_Some (derive xpriv p)) ->
  Exists (fun i => inherited (path i) = false /\ derive xpriv (path i) = None) ins ->
  exists paths,
    deriveKeys xpriv ins derived privs w
    = (Stop (Threw (LibraryError "derive")),
       with_log (log w ++ map (EvDerive xpriv) paths) w).
Proof.
induction ins as [|i rest IH]; intros derived privs w D X; [by inversion X|].
cbn [deriveKeys]. unfold underived.
destruct (inherited (path i)) eqn:O; cbn [negb andb].
{ apply IH; [done|]. inversion X as [? ? [N _]|]; subst; [congruence|done]. }
destruct (derived !! path i) as [k|] eqn:L.
- rewrite bool_decide_eq_false_2 by done.
  apply IH; [done|]. inversion X as [? ? [_ N]|]; subst; [|done].
  destruct (D (path i)) as [? K]; [by eexists|]. congruence.
- rewrite bool_decide_eq_true_2 by done.
  unfold deriveKey, bind, emit. cbn. destruct (derive xpriv (path i)) as [k|] eqn:K.
  + destruct (IH (<[path i := k]> derived) (privs ++ [k])
                (with_log (log w ++ [EvDerive xpriv (path i)]) w)) as [paths E].
    * intros p. destruct (decide (path i = p)) as [<-|NE]; [by eexists|].
      rewrite lookup_insert_ne by done. apply D.
    * inversion X as [? ? [_ N]|]; subst; [congruence|done].
    * exists (path i :: paths). cbn. rewrite E. cbn. by rewrite <- app_assoc.
  + exists [path i]. done.
Qed.

(** X17. Signing is all or nothing: when the key of one of the inputs
  cannot be derived, at a path that is no name which objects inherit,
  [signTxProposal] ends with the exception of the key library after the
  derivations made until then; it has called [getSignatures] for no key
  and sent no request, and the wallet file and the replies are as
  [_loadAndCheck] left them. *)
Theorem failed_derivation_signs_nothing
  (txp : TxProposal) (w w1 : World) (data : Data.t) (network xpriv : string) :
truthy_str (creatorId txp) = true ->
_loadAndCheck w = (Next data, w1) ->
checkTxProposal data txp = true ->
addressNetwork (toAddress txp) = Some network ->
HDPrivateKey (Data.xPrivKey data) (Some network) = Some xpriv ->
Exists (fun i => inherited (path i) = false /\ derive xpriv (path i) = None)
  (inputs txp) ->
exists paths,
  run (signTxProposal txp) w
  = (Threw (LibraryError "derive"), with_log (log w1 ++ map (EvDerive xpriv) paths) w1).
Proof.
intros T L C A X E.
destruct (deriveKeys_fails xpriv (inputs txp) ∅ [] w1) as [paths D]; [|done|].
{ intros p [k K]. by rewrite lookup_empty in K. }
assert (N : new_HDPrivateKey (Data.xPrivKey data) (Some network) w1 = (Next xpriv, w1)).
{ unfold new_HDPrivateKey. by rewrite X. }
exists paths. unfold signTxProposal. rewrite T. cbn [negb].
rewrite (run_bind_next _ _ _ _ _ L), C. cbn [negb]. rewrite A.
rewrite (run_bind_next _ _ _ _ _ N).
by rewrite (run_bind_stop _ _ _ _ _ D).
Qed.
End FailedDerivation.

(** ** The repair is made once *)

Section RepairOnce.
Context `{Collaborators}.

(** X18. Once [_loadAndCheck] has handed on the wallet data, it hands on
  the same data in any later world that holds the same file, and does
  nothing but load it: a ring that was repaired is not asked for
  again.  (The wallet has an [m]; the verifier accepts only lists of [n]
  copayers.) *)
Theorem check_after_check (w w1 w2 : World) (d : Data.t) :
(forall copayers walletPrivKey xPrivKey n,
   checkCopayers copayers walletPrivKey xPrivKey n = true ->
   n = Some (Z.of_nat (length copayers))) ->
_loadAndCheck w = (Next d, w1) ->
truthy_num (Data.m d) = true ->
loadErr w2 = None -> stored w2 = stored w1 ->
_loadAndCheck w2 = (Next d, with_log (log w2 ++ [EvLoad]) w2).
Proof.
intros V L M E2 S2.
destruct (_loadAndCheck_spec w) as (r & w1' & E & C). rewrite L in E. simplify_eq.
inversion C as [d0 E1 S C0|d0 cs ? E1 S N C0 Vd S1 Lg|]; subst.
- apply _loadAndCheck_as_stored; [done| |done]. by rewrite S2.
- apply _loadAndCheck_as_stored; [done|by rewrite S2|].
  unfold pkrComplete, adopt in *. cbn in *. rewrite M, (V _ _ _ _ Vd), length_map.
  rewrite bool_decide_eq_true_2 by done. apply andb_false_r.
Qed.
End RepairOnce.

(** ** Joining and re-creating a wallet *)

Section Joining.
Context `{Collaborators}.

(** X19. [joinWallet] on an empty store, with a secret that parses and a
  server that accepts the join: new keys are made for the network of the
  secret, one unsigned POST to the wallet of the secret announces the
  own key, signed with the wallet key of the secret, under the given
  name, and the wallet that is saved takes its [m] and [n] from the
  wallet in the reply. *)
Theorem joinWallet_takes_m_and_n_from_the_reply
  (secret copayerName : string) (w : World) (secretData : SecretData)
  (xPubKey roPrivKey rwPrivKey : string) (wallet : Wallet.t)
  (txps : option (list TxProposal)) (rest : list Reply) :
let xPrivKey := newHDPrivateKey (Some (secretNetwork secretData)) (entropy w (drawn w)) in
let d :=
  Data.mk (Some (xPubToCopayerId xPubKey)) (Some xPrivKey) (Some [xPubKey])
    (Some (secretNetwork secretData)) (Wallet.m wallet) (Wallet.n wallet)
    (Some (toWIF roPrivKey)) (Some (toWIF rwPrivKey))
    (Some (toWIF (secretWalletPrivKey secretData)))
    (Some (sha256_16_base64 (secretWalletPrivKey secretData))) in
let route := "/v1/wallets/" +:+ secretWalletId secretData +:+ "/copayers" in
stored w = None -> saveErr w = None ->
fromSecret secret = Some secretData ->
HDPublicKey (Some xPrivKey) = Some xPubKey ->
derive xPrivKey "m/1/0" = Some roPrivKey ->
derive xPrivKey "m/1/1" = Some rwPrivKey ->
replies w = Response 200 (BStatus wallet txps) :: rest ->
exists w',
  run (joinWallet secret copayerName) w = (Called None RNothing, w')
  /\ stored w' = Some d
  /\ replies w' = rest
  /\ log w' = log w
              ++ [EvLoad; EvGenerateKey;
                  EvDerive xPrivKey "m/1/0"; EvDerive xPrivKey "m/1/1";
                  EvRequest
                    {| relUrl := basePath w +:+ route;
                       x_identity := None;
                       x_signature := None;
                       method := "post";
                       url := baseUrl w +:+ route;
                       body :=
                         JObj [("walletId", JStr (secretWalletId secretData));
                               ("name", JStr copayerName);
                               ("xPubKey", JStr xPubKey);
                               ("xPubKeySignature",
                                JStr (signMessage xPubKey
                                        (secretWalletPrivKey secretData)))] |};
                  EvSave d].
Proof.
intros xPrivKey d route S SE F X D0 D1 R.
unfold joinWallet, run, bind, storage_load, emit. cbn. rewrite S, F.
unfold _initData, generate, bind, emit, deriveKey. cbn. fold xPrivKey.
rewrite X. cbn. rewrite D0. cbn. rewrite D1. cbn.
unfold _doJoinWallet, _doPostRequest, _doRequest, bind, this_baseUrl, this_basePath,
  request, issue, emit, receive. cbn. rewrite R. cbn.
unfold storage_save, bind, emit, callback. cbn. rewrite SE.
eexists. split; [reflexivity|]. cbn. split_and!; try done.
by rewrite <- !app_assoc.
Qed.

Lemma issueJoins_run base basep walletId walletPrivKey ring :
forall i w,
  issueJoins base basep walletId walletPrivKey ring i w
  = (Next tt,
     with_log
       (log w
        ++ imap (fun j k =>
                   EvRequest
                     (requestArgs base basep "post"
                        ("/v1/wallets/" +:+ show walletId +:+ "/copayers")
                        (joinArgs walletId walletPrivKey k
                           ("recovered Copayer #" +:+ pretty (i + j)%nat))
                        Data.empty)) ring) w).
Proof.
induction ring as [|k rest IH]; intros i w; cbn.
- unfold ret. rewrite app_nil_r. by destruct w.
- unfold bind, issue, emit. rewrite IH. unfold with_log. cbn.
  rewrite <- app_assoc. cbn. rewrite Nat.add_0_r.
  erewrite imap_ext; [reflexivity|]. intros j x _. cbn. by rewrite Nat.add_succ_r.
Qed.

Lemma awaitJoins_run joins :
Forall (fun reply => exists b, reply = Response 200 b /\ is_Some (body_wallet b)) joins ->
forall rest w,
  replies w = joins ++ rest ->
  awaitJoins (length joins) w = (Stop (Called None RNothing), with_replies rest w).
Proof.
induction 1 as [|reply joins (b & -> & [wallet B]) F IH]; intros rest w R; cbn.
- unfold callback. cbn in R. rewrite <- R. by destruct w.
- unfold bind, receive. rewrite R. cbn. unfold joinReply. rewrite B. cbn.
  by rewrite (IH rest (with_replies (joins ++ rest) w)).
Qed.

(** X20. [reCreateWallet] with a server that accepts everything: after
  the check of the stored wallet, one unsigned POST creates a wallet
  with the stored [m], [n] and network and the public key of a fresh
  wallet key, then one unsigned POST per key of the stored ring, in the
  order of the ring, joins that key under the name [recovered Copayer
  #i], each signed with the fresh wallet key; the callback gets nothing
  and the wallet file is not written. *)
Theorem reCreateWallet_joins_every_key
  (walletName : string) (w w1 : World) (d : Data.t) (ring : list string)
  (b : Body) (walletId : option string) (joins rest : list Reply) :
let walletPrivKey := newPrivateKey (entropy w1 (drawn w1)) in
_loadAndCheck w = (Next d, w1) ->
Data.publicKeyRing d = Some ring ->
replies w1 = Response 200 b :: joins ++ rest ->
body_walletId b = Some walletId ->
length joins = length ring ->
Forall (fun reply => exists b, reply = Response 200 b /\ is_Some (body_wallet b)) joins ->
exists w',
  run (reCreateWallet walletName) w = (Called None RNothing, w')
  /\ stored w' = stored w1
  /\ replies w' = rest
  /\ log w' = log w1
              ++ [EvGenerateKey;
                  EvRequest
                    (requestArgs (baseUrl w1) (basePath w1) "post" "/v1/wallets/"
                       (JObj [("name", JStr walletName); ("m", jnum (Data.m d));
                              ("n", jnum (Data.n d));
                              ("pubKey", JStr (toPublicKey walletPrivKey));
                              ("network", jstr (Data.network d))])
                       Data.empty)]
              ++ imap (fun i k =>
                         EvRequest
                           (requestArgs (baseUrl w1) (basePath w1) "post"
                              ("/v1/wallets/" +:+ show walletId +:+ "/copayers")
                              (JObj [("walletId", jstr walletId);
                                     ("name", JStr ("recovered Copayer #" +:+ pretty i));
                                     ("xPubKey", JStr k);
                                     ("xPubKeySignature",
                                      JStr (signMessage k walletPrivKey))])
                              Data.empty)) ring.
Proof.
intros walletPrivKey L R Rp B Len F.
unfold reCreateWallet. rewrite (run_bind_next _ _ _ _ _ L).
unfold run, bind, generate, emit. cbn. fold walletPrivKey.
unfold _doPostRequest, _doRequest, bind, this_baseUrl, this_basePath, request, issue,
  emit, receive. cbn. rewrite Rp. cbn. rewrite B, R. cbn.
rewrite issueJoins_run. cbn. rewrite <- Len.
erewrite awaitJoins_run; [|exact F|reflexivity].
eexists. split; [reflexivity|]. cbn. split_and!; try done.
rewrite <- !app_assoc. reflexivity.
Qed.
End Joining.

(** ** Rejecting a proposal *)

Section Rejecting.
Context `{Collaborators}.

(** X21. [rejectTxProposal] on the wallet data that [_loadAndCheck] handed
  on sends one POST to the rejections of the proposal, and the reason
  leaves the machine encrypted under the shared key only; no reason, or
  an empty one, is sent as the empty text.  The wallet file is not
  written, and the body of a 200 reply becomes the result. *)
Theorem rejection_sends_the_reason_encrypted
  (txp : TxProposal) (reason : option string) (w w1 : World) (d : Data.t) :
_loadAndCheck w = (Next d, w1) ->
let sealed :=
  match reason with
  | Some s => if String.eqb s "" then "" else encryptMessage s (Data.sharedEncryptingKey d)
  | None => ""
  end in
exists out w2,
  run (rejectTxProposal txp reason) w = (out, w2)
  /\ stored w2 = stored w1
  /\ log w2 = log w1
              ++ [EvRequest
                    (requestArgs (baseUrl w1) (basePath w1) "post"
                       ("/v1/txproposals/" +:+ txpId txp +:+ "/rejections/")
                       (JObj [("reason", JStr sealed)]) d)]
  /\ (forall b rest, replies w1 = Response 200 b :: rest -> out = Called None (RBody b)).
Proof.
intros L sealed.
assert (A : rejectArgs reason d = JObj [("reason", JStr sealed)]).
{ unfold rejectArgs, _encryptMessage, truthy_str, sealed. destruct reason as [s|]; [|done].
  cbn. destruct (String.eqb s ""); cbn; [done|].
  by destruct (String.eqb (encryptMessage s (Data.sharedEncryptingKey d)) "") eqn:E;
    [apply String.eqb_eq in E; rewrite E|]. }
destruct (request_then_handOver "post"
            ("/v1/txproposals/" +:+ txpId txp +:+ "/rejections/")
            (rejectArgs reason d) d w1) as (out & w2 & R & S & Lg & OK & _).
exists out, w2. unfold rejectTxProposal.
rewrite (run_bind_next _ _ _ _ _ L). split_and!; [exact R|exact S| |exact OK].
by rewrite Lg, A.
Qed.
End Rejecting.

(** ** Two edges of the key handling *)

Section Edges.
Context `{Collaborators}.

Lemma deriveKeys_inherited xpriv ins derived privs w :
Forall (fun i => inherited (path i) = true) ins ->
deriveKeys xpriv ins derived privs w = (Next privs, w).
Proof.
induction 1 as [|i rest O F IH]; [done|]. cbn [deriveKeys]. unfold underived.
rewrite O. exact IH.
Qed.

(** X22. Inputs whose path is a name that every object inherits, such as
  [constructor], are not signed: for a verified proposal with such
  paths only, [signTxProposal] derives no key, calls [getSignatures]
  for no key, and posts an empty list of signatures, which the server
  may well accept. *)
Theorem inherited_paths_are_not_signed
  (txp : TxProposal) (w w1 : World) (data : Data.t) (network xpriv : string) :
truthy_str (creatorId txp) = true ->
_loadAndCheck w = (Next data, w1) ->
checkTxProposal data txp = true ->
addressNetwork (toAddress txp) = Some network ->
HDPrivateKey (Data.xPrivKey data) (Some network) = Some xpriv ->
Forall (fun i => inherited (path i) = true) (inputs txp) ->
exists out w2,
  run (signTxProposal txp) w = (out, w2)
  /\ log w2 = log w1
              ++ [EvRequest
                    (requestArgs (baseUrl w1) (basePath w1) "post"
                       ("/v1/txproposals/" +:+ txpId txp +:+ "/signatures/")
                       (JObj [("signatures", JArr [])]) data)]
  /\ (forall b rest, replies w1 = Response 200 b :: rest -> out = Called None (RBody b)).
Proof.
intros T L C A X O.
assert (N : new_HDPrivateKey (Data.xPrivKey data) (Some network) w1 = (Next xpriv, w1)).
{ unfold new_HDPrivateKey. by rewrite X. }
destruct (request_then_handOver "post"
            ("/v1/txproposals/" +:+ txpId txp +:+ "/signatures/")
            (JObj [("signatures", JArr [])]) data w1) as (out & w2 & R & _ & Lg & OK & _).
exists out, w2. split_and!; [|exact Lg|exact OK].
unfold signTxProposal. rewrite T. cbn [negb].
rewrite (run_bind_next _ _ _ _ _ L), C. cbn [negb]. rewrite A.
rewrite (run_bind_next _ _ _ _ _ N).
rewrite (run_bind_next _ _ _ _ _ (deriveKeys_inherited xpriv (inputs txp) ∅ [] w1 O)).
cbn. exact R.
Qed.

(** X23. [import] of a text whose first entry is the name of a network,
  where the master key should be: Bitcore's constructor makes a fresh
  key of it, as in [_initData]; the copayer id, the first key of the
  ring and the request keys are those of the fresh key, and the wallet
  that is saved holds the name of the network as its [xPrivKey], not
  the key. *)
Theorem import_of_a_network_name
  (str name : string) (w : World) (items : list JVal) (d0 : Data.t)
  (xPubKey roPrivKey rwPrivKey : string) (ring : list string) :
let xpriv := newHDPrivateKey (Some name) (entropy w (drawn w)) in
let d :=
  Data.mk (Some (xPubToCopayerId xPubKey)) (Some name) (Some (xPubKey :: ring))
    (Some (networkOf xPubKey)) (Data.m d0) (Some (Z.of_nat (S (length ring))))
    (Some (toWIF roPrivKey)) (Some (toWIF rwPrivKey)) (Data.walletPrivKey d0)
    (Data.sharedEncryptingKey d0) in
stored w = None -> saveErr w = None ->
JSON_parse str = Some (JArr items) -> readData items = Some d0 ->
Data.xPrivKey d0 = Some name -> networkName (Some name) = true ->
HDPrivateKey (Some name) None = None ->
HDPublicKey (Some xpriv) = Some xPubKey ->
derive xpriv "m/1/0" = Some roPrivKey ->
derive xpriv "m/1/1" = Some rwPrivKey ->
Data.publicKeyRing d0 = Some ring ->
truthy_num (Data.m d0) = true ->
xPubToCopayerId xPubKey <> "" ->
exists w',
  run (import str) w = (Called None (RText (accessFromData d)), w')
  /\ stored w' = Some d
  /\ log w' = log w ++ [EvLoad; EvGenerateKey; EvDerive xpriv "m/1/0";
                        EvDerive xpriv "m/1/1"; EvSave d].
Proof.
intros xpriv d St SE J RD XP NN PN PX D0 D1 R M NC.
assert (NE : name <> "").
{ intros ->. by vm_compute in NN. }
assert (EN : String.eqb name "" = false) by (by apply String.eqb_neq).
assert (EC : String.eqb (xPubToCopayerId xPubKey) "" = false)
  by (by apply String.eqb_neq).
assert (EL : forall k, (Z.of_nat (S k) =? 0)%Z = false)
  by (intros; apply Z.eqb_neq; lia).
unfold import, run, bind, storage_load, emit. cbn. rewrite St, J.
unfold importData. rewrite RD.
unfold importOwnKey, new_HDPrivateKey, truthy_str, bind. rewrite XP. cbn. rewrite EN. cbn.
rewrite PN, NN. unfold ret. cbn. fold xpriv. rewrite PX, R.
unfold deriveKey, bind, emit, ret. cbn.
rewrite D0. cbn. rewrite D1. cbn. rewrite EC. cbn.
unfold truthy_num in *. cbn. rewrite EL, M. cbn.
unfold storage_save, bind, emit, callback. cbn. rewrite SE.
eexists. split; [reflexivity|]. cbn. split; [reflexivity|].
by rewrite <- !app_assoc.
Qed.
End Edges.

(** * The properties on Alice's wallet *)

#[local] Existing Instance Demo.collaborators.

(** C1 on the proposal whose [requiredSignatures] was altered. *)
Lemma tampered_proposal_is_not_signed_witness :
  let w := Demo.world (Some Demo.complete) [Demo.accepted] in
  let w1 := with_log [EvLoad] w in
  truthy_str (creatorId Demo.tampered) = true
  /\ _loadAndCheck w = (Next Demo.complete, w1)
  /\ checkTxProposal Demo.complete Demo.tampered = false
  /\ run (signTxProposal Demo.tampered) w =
       (Called (Some (ServerCompromisedError "Server sent fake transaction proposal"))
          RNothing, w1).
Proof.
  cbv zeta. split_and!; [reflexivity..|].
  apply (tampered_proposal_is_not_signed Demo.tampered
           (Demo.world (Some Demo.complete) [Demo.accepted])
           (with_log [EvLoad] (Demo.world (Some Demo.complete) [Demo.accepted]))
           Demo.complete); reflexivity.
Defined.

(** Bitcore's contract, for the keys and the proposal of the model. *)
Lemma demo_keys_sign_their_inputs p k :
  p ∈ map path (inputs Demo.proposal) ->
  derive "xprv-a" p = Some k ->
  map inputIndex (getSignatures (buildTransaction Demo.proposal) k)
  = positionsFrom 0 p (map path (inputs Demo.proposal)).
Proof.
  intros I D. cbn in I. rewrite !elem_of_cons in I.
  destruct I as [->|[->|[->|I]]]; [| | |by apply elem_of_nil in I].
  all: vm_compute in D; injection D as <-; reflexivity.
Qed.

(** C2 on the proposal with inputs of the paths [m/0/5], [m/0/3], [m/0/5]:
    two keys are derived, three signatures are submitted, in the order of
    the inputs. *)
Lemma verified_proposal_signatures_witness :
  let w := Demo.world (Some Demo.complete) [Demo.accepted] in
  let w1 := with_log [EvLoad] w in
  truthy_str (creatorId Demo.proposal) = true
  /\ _loadAndCheck w = (Next Demo.complete, w1)
  /\ checkTxProposal Demo.complete Demo.proposal = true
  /\ addressNetwork (toAddress Demo.proposal) = Some "livenet"
  /\ HDPrivateKey (Data.xPrivKey Demo.complete) (Some "livenet") = Some "xprv-a"
  /\ Forall (fun i => is_Some (derive "xprv-a" (path i))) (inputs Demo.proposal)
  /\ Forall (fun i => inherited (path i) = false) (inputs Demo.proposal)
  /\ exists paths keys signatures out w2 r,
       run (signTxProposal Demo.proposal) w = (out, w2)
       /\ NoDup paths
       /\ (forall p, p ∈ paths <->
                     p ∈ map path (inputs Demo.proposal) /\ inherited p = false)
       /\ log w2 = log w1 ++ map (EvDerive "xprv-a") paths ++ map EvGetSignatures keys
                   ++ [EvRequest r]
       /\ body r = JObj [("signatures", JArr (map (fun s => JStr (signature s)) signatures))]
       /\ map inputIndex signatures = seq 0 (length (inputs Demo.proposal)).
Proof.
  cbv zeta.
  assert (F : Forall (fun i => is_Some (derive "xprv-a" (path i))) (inputs Demo.proposal)).
  { repeat constructor; by eexists. }
  assert (O : Forall (fun i => inherited (path i) = false) (inputs Demo.proposal)).
  { repeat constructor. }
  split_and!; [reflexivity..|exact F|exact O|].
  destruct (verified_proposal_signatures Demo.proposal
              (Demo.world (Some Demo.complete) [Demo.accepted])
              (with_log [EvLoad] (Demo.world (Some Demo.complete) [Demo.accepted]))
              Demo.complete "livenet" "xprv-a")
    as (paths & keys & signatures & out & w2 & r & R & N & I & _ & L & _ & _ & B & _ & _ & S & _);
    [reflexivity..|exact F|].
  exists paths, keys, signatures, out, w2, r. split_and!; try done.
  apply S; [exact demo_keys_sign_their_inputs|exact O].
Defined.

(** What that run submits. *)
Example signatures_in_input_order :
  let w := Demo.world (Some Demo.complete) [Demo.accepted] in
  filter (fun e => signingEvent e = true) (log (run (signTxProposal Demo.proposal) w).2)
  = [EvDerive "xprv-a" "m/0/5"; EvDerive "xprv-a" "m/0/3";
     EvGetSignatures "prv-a/m/0/5"; EvGetSignatures "prv-a/m/0/3";
     EvRequest
       (requestArgs "http://localhost:3001/copay/api" "/copay/api" "post"
          "/v1/txproposals/txp1/signatures/"
          (JObj [("signatures",
                  JArr [JStr "der(prv-a/m/0/5#0)"; JStr "der(prv-a/m/0/3#1)";
                        JStr "der(prv-a/m/0/5#2)"])])
          Demo.complete)].
Proof. vm_compute. reflexivity. Qed.

(** C3 on Alice's incomplete wallet, when she sends a proposal. *)
Lemma incomplete_wallet_is_completed_first_witness :
  let w := Demo.world (Some Demo.incomplete) [Demo.completeOnServer; Demo.accepted] in
  let wallet := Demo.serverWallet "complete" ["xpub-b"; "xpub-a"] in
  needsSigningKeys (SendTxProposal Demo.payment) = true
  /\ argumentsOk (SendTxProposal Demo.payment) = true
  /\ loadErr w = None
  /\ stored w = Some Demo.incomplete
  /\ Data.n Demo.incomplete = Some 2%Z
  /\ (1 < 2)%Z
  /\ Data.publicKeyRing Demo.incomplete = Some ["xpub-a"]
  /\ (Z.of_nat (length ["xpub-a"]) < 2)%Z
  /\ exists out w',
       run (operation (SendTxProposal Demo.payment)) w = (out, w')
       /\ (exists evs,
             log w' = log w ++ [EvLoad; EvRequest (repairRequest Demo.incomplete w)] ++ evs)
       /\ stored w' = Some (adopt (Wallet.copayers wallet) Demo.incomplete).
Proof.
  cbv zeta. split_and!; [reflexivity..|].
  destruct (incomplete_wallet_is_completed_first (SendTxProposal Demo.payment)
              (Demo.world (Some Demo.incomplete) [Demo.completeOnServer; Demo.accepted])
              Demo.incomplete)
    as (Short & _ & Repair); [reflexivity..|].
  destruct (Short ["xpub-a"] 2%Z) as [GT C]; [reflexivity..|].
  destruct (Repair GT C) as (out & w' & R & F & _ & _ & _ & _ & A).
  exists out, w'. split; [exact R|]. split; [exact F|].
  destruct (A (Demo.serverWallet "complete" ["xpub-b"; "xpub-a"]) (Some [])
              [Demo.accepted]) as [_ B]; [reflexivity..|].
  destruct B as [_ B]; [reflexivity|]. cbn in B. apply B.
Defined.

(** C5, refuted on Alice's incomplete wallet: the server holds the wallet
    pending, and [getBalance] ends with [Wallet Incomplete] after the one
    request of the repair, never asking for the balance; with the complete
    ring in the file, and nothing else changed, the same call succeeds. *)
Lemma getBalance_needs_a_complete_wallet :
  let w := Demo.world (Some Demo.incomplete) [Demo.pendingOnServer] in
  let w' := Demo.world (Some Demo.complete) [Demo.pendingOnServer] in
  pkrComplete Demo.incomplete = false
  /\ Demo.complete = Data.set_publicKeyRing (Some Demo.ring2) Demo.incomplete
  /\ (run getBalance w).1 = Called (Some (ErrString "Wallet Incomplete")) RNothing
  /\ log (run getBalance w).2 = [EvLoad; EvRequest (repairRequest Demo.incomplete w)]
  /\ exists b, (run getBalance w').1 = Called None (RBody b).
Proof. cbv zeta. split_and!; [reflexivity..|]. eexists. reflexivity. Qed.

(** C5, amended, on the same wallet. *)
Lemma reading_an_incomplete_wallet_witness :
  let w := Demo.world (Some Demo.incomplete) [Demo.pendingOnServer] in
  loadErr w = None
  /\ stored w = Some Demo.incomplete
  /\ n_gt_1 Demo.incomplete = true
  /\ pkrComplete Demo.incomplete = false
  /\ exists out w',
       run getStatus w = (out, w')
       /\ stored w' = Some Demo.incomplete
       /\ log w' = log w
                    ++ [EvLoad;
                        EvRequest (requestArgs (baseUrl w) (basePath w) "get" "/v1/wallets/"
                                     (JObj []) Demo.incomplete)].
Proof.
  cbv zeta. split_and!; [reflexivity..|].
  destruct (reading_an_incomplete_wallet
              (Demo.world (Some Demo.incomplete) [Demo.pendingOnServer]) Demo.incomplete)
    as [(out & w' & R & S & L & _) _]; [reflexivity..|].
  exists out, w'. by split_and!.
Defined.

(** C6 on Alice's complete wallet. *)
Lemma export_import_round_trip_witness :
  let w := Demo.world (Some Demo.complete) [] in
  let fresh := Demo.world None [] in
  loadErr w = None
  /\ stored w = Some Demo.complete
  /\ Data.xPrivKey Demo.complete = Some "xprv-a"
  /\ "xprv-a" <> ""
  /\ HDPublicKey (Some "xprv-a") = Some "xpub-a"
  /\ Data.copayerId Demo.complete = Some (xPubToCopayerId "xpub-a")
  /\ xPubToCopayerId "xpub-a" <> ""
  /\ Data.m Demo.complete = Some 2%Z
  /\ 2%Z <> 0%Z
  /\ Data.publicKeyRing Demo.complete = Some Demo.ring2
  /\ Data.n Demo.complete = Some (Z.of_nat (length Demo.ring2))
  /\ NoDup Demo.ring2
  /\ "xpub-a" ∈ Demo.ring2
  /\ stored fresh = None
  /\ saveErr fresh = None
  /\ HDPrivateKey (Some "xprv-a") None = Some "xprv-a"
  /\ HDPublicKey (Some "xprv-a") = Some "xpub-a"
  /\ is_Some (derive "xprv-a" "m/1/0")
  /\ is_Some (derive "xprv-a" "m/1/1")
  /\ JSON_parse (JSON_stringify (exported "full" Demo.complete "xpub-a"))
     = Some (jsonify (exported "full" Demo.complete "xpub-a"))
  /\ exists str w' access fresh' d',
       run (export (Some "full")) w = (Called None (RText str), w')
       /\ run (import str) fresh = (Called None (RText access), fresh')
       /\ stored fresh' = Some d'
       /\ Data.copayerId d' = Data.copayerId Demo.complete
       /\ Data.m d' = Data.m Demo.complete
       /\ Data.n d' = Data.n Demo.complete
       /\ Data.publicKeyRing d'
          = Some ("xpub-a" :: filter (fun k => k <> "xpub-a") Demo.ring2)
       /\ "xpub-a" :: filter (fun k => k <> "xpub-a") Demo.ring2 ≡ₚ Demo.ring2.
Proof.
  cbv zeta.
  assert (N : NoDup Demo.ring2) by (apply (bool_decide_unpack _); by vm_compute).
  assert (I : "xpub-a" ∈ Demo.ring2) by (apply elem_of_cons; by left).
  split_and!;
    [reflexivity|reflexivity|reflexivity|discriminate|reflexivity|reflexivity
    |discriminate|reflexivity|discriminate|reflexivity|reflexivity|exact N|exact I
    |reflexivity|reflexivity|reflexivity|reflexivity|by eexists|by eexists
    |reflexivity|].
  apply (export_import_round_trip (Demo.world (Some Demo.complete) [])
           (Demo.world None []) Demo.complete "xprv-a" "xprv-a" "xpub-a" Demo.ring2 2);
    [reflexivity|reflexivity|reflexivity|discriminate|reflexivity|reflexivity
    |discriminate|reflexivity|discriminate|reflexivity|reflexivity|exact N|exact I
    |reflexivity|reflexivity|reflexivity|reflexivity|by eexists|by eexists
    |reflexivity].
Defined.

(** C7, at a failing input.  The server answers Alice's request with
    status 500 and a structured error.  [getBalance] hands the parsed
    error to its callback; [getStatus] does not look at [err], reads
    [result.pendingTxps] of the absent result, and ends in a TypeError: its
    callback is never called.  The same happens when the request fails at
    the transport. *)
Theorem getStatus_drops_the_error :
  let w := Demo.world (Some Demo.complete) [Demo.serverError] in
  let w' := Demo.world (Some Demo.complete) [TransportFailure "ETIMEDOUT"] in
  (run getBalance w).1 =
    Called (Some (ErrServer (JStr "WNOTFOUND") (JStr "Wallet not found"))) RNothing
  /\ (run getStatus w).1 = Threw (TypeError "result.pendingTxps")
  /\ (run getBalance w').1 = Called (Some (ErrTransport "ETIMEDOUT")) RNothing
  /\ (run getStatus w').1 = Threw (TypeError "result.pendingTxps").
Proof. cbv zeta. split_and!; reflexivity. Qed.

(** C8, refuted.  On Alice's incomplete wallet the repair, run by
    [getBalance], replaces the ring [xpub-a] by the server's list [xpub-b],
    [xpub-a]: the new ring is not the old one with keys appended, the entry
    at index 0 is another key.  On a 2-of-3 wallet file whose ring holds
    [xpub-a] and a key [xpub-x] that the server does not list, the same
    repair removes [xpub-x]. *)
Lemma repair_replaces_the_ring :
  let w := Demo.world (Some Demo.incomplete) [Demo.completeOnServer; Demo.accepted] in
  let w3 := Demo.world (Some Demo.stale) [Demo.threeOnServer; Demo.accepted] in
  Data.publicKeyRing Demo.incomplete = Some ["xpub-a"]
  /\ (exists d,
        stored (run getBalance w).2 = Some d
        /\ Data.publicKeyRing d = Some ["xpub-b"; "xpub-a"])
  /\ ~ (exists appended, ["xpub-b"; "xpub-a"] = ["xpub-a"] ++ appended)
  /\ ["xpub-b"; "xpub-a"] !! 0%nat <> ["xpub-a"] !! 0%nat
  /\ Data.publicKeyRing Demo.stale = Some ["xpub-a"; "xpub-x"]
  /\ (exists d,
        stored (run getBalance w3).2 = Some d
        /\ Data.publicKeyRing d = Some ["xpub-a"; "xpub-b"; "xpub-c"])
  /\ "xpub-x" ∉ ["xpub-a"; "xpub-b"; "xpub-c"].
Proof.
  cbv zeta. split_and!.
  - reflexivity.
  - eexists. split; reflexivity.
  - intros [appended E]. discriminate E.
  - discriminate.
  - reflexivity.
  - eexists. split; reflexivity.
  - rewrite !elem_of_cons. intros [E|[E|[E|E]]]; try discriminate E.
    by apply elem_of_nil in E.
Qed.

Lemma accepted_copayers_are_n copayers walletPrivKey xPrivKey n :
  Demo.acceptCopayers copayers walletPrivKey xPrivKey n = true ->
  n = Some (Z.of_nat (length copayers)).
Proof.
  unfold Demo.acceptCopayers. destruct walletPrivKey, xPrivKey; try discriminate.
  intros E. apply andb_true_iff in E as [E _]. apply andb_true_iff in E as [E _].
  by apply bool_decide_eq_true in E.
Qed.

(** C8, amended, on the same run. *)
Lemma ring_changes_witness :
  let w := Demo.world (Some Demo.incomplete) [Demo.completeOnServer; Demo.accepted] in
  (forall copayers walletPrivKey xPrivKey n,
     checkCopayers copayers walletPrivKey xPrivKey n = true ->
     n = Some (Z.of_nat (length copayers)))
  /\ stored w = Some Demo.incomplete
  /\ ringBound Demo.incomplete
  /\ StoreChange w (run (operation GetBalance) w).2
  /\ exists d', stored (run (operation GetBalance) w).2 = Some d' /\ ringBound d'.
Proof.
  cbv zeta.
  destruct (ring_changes GetBalance
              (Demo.world (Some Demo.incomplete) [Demo.completeOnServer; Demo.accepted]))
    as [C B].
  split_and!.
  - exact accepted_copayers_are_n.
  - reflexivity.
  - cbn. lia.
  - exact C.
  - apply (B accepted_copayers_are_n Demo.incomplete); [reflexivity|cbn; lia].
Defined.

(** C9 on Alice's payment. *)
Lemma sendTxProposal_signs_the_proposal_witness :
  let w := Demo.world (Some Demo.complete) [Demo.accepted] in
  let w1 := with_log [EvLoad] w in
  _loadAndCheck w = (Next Demo.complete, w1)
  /\ (run (sendTxProposal Demo.payment) w).1 = Called None (RBody (BJson (JObj [])))
  /\ exists r,
       log (run (sendTxProposal Demo.payment) w).2 = [EvLoad; EvRequest r]
       /\ body r =
            JObj [("toAddress", JStr "addr-destination");
                  ("amount", JNum 100000);
                  ("message", JStr "enc(sek(prv-wallet))rent");
                  ("proposalSignature",
                   JStr "sig(hash(addr-destination,100000,enc(sek(prv-wallet))rent))by(prv-a/m/1/1)")].
Proof.
  cbv zeta. split; [reflexivity|].
  destruct (sendTxProposal_signs_the_proposal Demo.payment
              (Demo.world (Some Demo.complete) [Demo.accepted])
              (with_log [EvLoad] (Demo.world (Some Demo.complete) [Demo.accepted]))
              Demo.complete) as [_ S]; [reflexivity|].
  destruct (S "prv-a/m/1/1") as (out & w2 & r & R & L & _ & _ & B & _ & OK);
    [reflexivity|discriminate|].
  rewrite R. cbn [fst snd]. split.
  - by apply (OK (BJson (JObj [])) []).
  - exists r. split; [exact L|exact B].
Defined.

(** C10 on a store that holds Alice's wallet. *)
Lemma existing_wallet_is_kept_witness :
  let w := Demo.world (Some Demo.complete) [Demo.accepted; Demo.accepted] in
  stored w = Some Demo.complete
  /\ writesNewWallet (JoinWallet "w1" "carol") = true
  /\ exists e w',
       run (operation (JoinWallet "w1" "carol")) w = (Called (Some (ErrString e)) RNothing, w')
       /\ stored w' = Some Demo.complete
       /\ replies w' = replies w
       /\ (log w' = log w \/ log w' = log w ++ [EvLoad]).
Proof.
  cbv zeta. split_and!; [reflexivity..|].
  apply (existing_wallet_is_kept
           (Demo.world (Some Demo.complete) [Demo.accepted; Demo.accepted])
           Demo.complete (JoinWallet "w1" "carol")); reflexivity.
Defined.

(** * The further properties on Alice's wallet *)

(** X1 on a body that has a code and no message. *)
Lemma parseError_is_structured_witness :
  let w := Demo.world None [] in
  let b := BJson (JObj [("code", JStr "WNOTFOUND")]) in
  let e := ErrServer (JStr "WNOTFOUND") (JStr UNKNOWN_ERROR) in
  _parseError b w = (Next e, w)
  /\ exists code message,
       e = ErrServer code message /\ truthy code = true /\ truthy message = true.
Proof.
  cbv zeta. split; [reflexivity|].
  destruct (parseError_is_structured (BJson (JObj [("code", JStr "WNOTFOUND")]))
              (Demo.world None []) (Demo.world None [])
              (ErrServer (JStr "WNOTFOUND") (JStr UNKNOWN_ERROR)))
    as (_ & _ & _ & _ & _ & _ & _ & _ & T); [reflexivity|exact T].
Defined.

(** X3 on [getBalance] when the server does not know the wallet. *)
Lemma first_failure_is_the_error_witness :
  let w := Demo.world (Some Demo.complete) [Demo.serverError] in
  let e := ErrServer (JStr "WNOTFOUND") (JStr "Wallet not found") in
  GetBalance <> GetStatus
  /\ replies w = [Demo.serverError]
  /\ failsWith Demo.serverError e
  /\ ((run (operation GetBalance) w).1 = Called (Some e) RNothing
      \/ silent w (run (operation GetBalance) w).2).
Proof.
  cbv zeta.
  assert (F : failsWith Demo.serverError
                (ErrServer (JStr "WNOTFOUND") (JStr "Wallet not found"))).
  { split; [discriminate|reflexivity]. }
  split_and!; [discriminate|reflexivity|exact F|].
  apply (first_failure_is_the_error
           (ErrServer (JStr "WNOTFOUND") (JStr "Wallet not found")) GetBalance
           (Demo.world (Some Demo.complete) [Demo.serverError]) Demo.serverError []);
    [discriminate|reflexivity|exact F].
Defined.

(** X6 on [getBalance]. *)
Lemma only_signTxProposal_signs_witness :
  (forall txp, GetBalance <> SignTxProposal txp)
  /\ emits notSigning (operation GetBalance).
Proof.
  split; [discriminate|]. apply (only_signTxProposal_signs GetBalance). discriminate.
Defined.

(** X7 on Alice's pending proposal. *)
Lemma getTxProposals_are_verified_witness :
  let w := Demo.world (Some Demo.complete) [Samples.proposalsOnServer] in
  let r := run (getTxProposals false true) w in
  let txps := _processTxps [Demo.proposal] (Some "sek(prv-wallet)") in
  r = (Called None (RTxps txps (Some [Demo.proposal])), r.2)
  /\ exists d l,
       stored r.2 = Some d
       /\ txps = _processTxps l (Data.sharedEncryptingKey d)
       /\ Forall (fun txp => checkTxProposal d txp = true) txps
       /\ Some [Demo.proposal] = Some l.
Proof.
  cbv zeta. split; [vm_compute; reflexivity|].
  destruct (getTxProposals_are_verified true
              (Demo.world (Some Demo.complete) [Samples.proposalsOnServer])
              (run (getTxProposals false true)
                 (Demo.world (Some Demo.complete) [Samples.proposalsOnServer])).2
              (_processTxps [Demo.proposal] (Some "sek(prv-wallet)"))
              (Some [Demo.proposal]))
    as (d & w1 & b & rest & l & _ & _ & _ & S & T & F & Rw); [vm_compute; reflexivity|].
  exists d, l. split_and!; [exact S|exact T|exact F|exact Rw].
Defined.

(** X8 on two addresses of Alice's wallet. *)
Lemma getMainAddresses_are_verified_witness :
  let w := Demo.world (Some Demo.complete) [Samples.addressesOnServer] in
  let r := run (getMainAddresses false) w in
  let l := [Demo.addressRecordAt "m/0/1" Demo.ring2;
            Demo.addressRecordAt "m/0/2" Demo.ring2] in
  r = (Called None (RBody (BAddresses l)), r.2)
  /\ exists d, stored r.2 = Some d /\ Forall (fun a => checkAddress d a = true) l.
Proof.
  cbv zeta. split; [vm_compute; reflexivity|].
  apply (getMainAddresses_are_verified
           (Demo.world (Some Demo.complete) [Samples.addressesOnServer])
           (run (getMainAddresses false)
              (Demo.world (Some Demo.complete) [Samples.addressesOnServer])).2).
  vm_compute. reflexivity.
Defined.

(** X9 on a new address of Alice's wallet. *)
Lemma createAddress_is_verified_witness :
  let w := Demo.world (Some Demo.complete) [Samples.addressOnServer] in
  let r := run createAddress w in
  let res := RBody (BAddress (Demo.addressRecordAt "m/0/1" Demo.ring2)) in
  r = (Called None res, r.2)
  /\ exists d a,
       stored r.2 = Some d /\ res = RBody (BAddress a) /\ checkAddress d a = true.
Proof.
  cbv zeta. split; [vm_compute; reflexivity|].
  destruct (createAddress_is_verified
              (Demo.world (Some Demo.complete) [Samples.addressOnServer])
              (run createAddress
                 (Demo.world (Some Demo.complete) [Samples.addressOnServer])).2
              (RBody (BAddress (Demo.addressRecordAt "m/0/1" Demo.ring2))))
    as (d & w1 & a & rest & _ & _ & S & E & C); [vm_compute; reflexivity|].
  exists d, a. split_and!; [exact S|exact E|exact C].
Defined.

(** X10 on Alice's proposal. *)
Lemma parseTxProposals_checks_locally_witness :
  let w := Demo.world (Some Demo.complete) [] in
  let r := run (parseTxProposals [Demo.proposal]) w in
  let res := RTxps (_processTxps [Demo.proposal] (Some "sek(prv-wallet)")) None in
  r = (Called None res, r.2)
  /\ r.2 = with_log (log w ++ [EvLoad]) w
  /\ exists d,
       stored w = Some d
       /\ n_gt_1 d && negb (pkrComplete d) = false
       /\ res = RTxps (_processTxps [Demo.proposal] (Data.sharedEncryptingKey d)) None
       /\ Forall (fun txp => checkTxProposal d txp = true)
            (_processTxps [Demo.proposal] (Data.sharedEncryptingKey d)).
Proof.
  cbv zeta. split; [vm_compute; reflexivity|].
  apply (parseTxProposals_checks_locally [Demo.proposal]
           (Demo.world (Some Demo.complete) [])
           (run (parseTxProposals [Demo.proposal]) (Demo.world (Some Demo.complete) [])).2).
  vm_compute. reflexivity.
Defined.

(** X14 on Alice's complete wallet, exported [readonly]. *)
Lemma restricted_export_import_round_trip_witness :
  let w := Demo.world (Some Demo.complete) [] in
  let fresh := Demo.world None [] in
  "readonly" <> "" /\ "readonly" <> "full"
  /\ loadErr w = None /\ stored w = Some Demo.complete
  /\ HDPublicKey (Data.xPrivKey Demo.complete) = Some "xpub-a"
  /\ Data.copayerId Demo.complete = Some "id(xpub-a)" /\ "id(xpub-a)" <> ""
  /\ Data.m Demo.complete = Some 2%Z /\ 2%Z <> 0%Z
  /\ Data.publicKeyRing Demo.complete = Some ["xpub-a"; "xpub-b"]
  /\ Data.n Demo.complete = Some (Z.of_nat (length ["xpub-a"; "xpub-b"]))
  /\ stored fresh = None /\ saveErr fresh = None
  /\ JSON_parse (JSON_stringify (exported "readonly" Demo.complete "xpub-a"))
     = Some (jsonify (exported "readonly" Demo.complete "xpub-a"))
  /\ exists str w' fresh',
       run (export (Some "readonly")) w = (Called None (RText str), w')
       /\ run (import str) fresh
          = (Called None (RText (accessFromData Samples.readOnlyCopy)), fresh')
       /\ stored fresh' = Some Samples.readOnlyCopy.
Proof.
  cbv zeta.
  split_and!;
    [discriminate|discriminate|reflexivity|reflexivity|reflexivity|reflexivity
    |discriminate|reflexivity|discriminate|reflexivity|reflexivity|reflexivity
    |reflexivity|vm_compute; reflexivity|].
  apply (restricted_export_import_round_trip "readonly"
           (Demo.world (Some Demo.complete) []) (Demo.world None [])
           Demo.complete "xpub-a" "id(xpub-a)" "xpub-a" ["xpub-b"] 2);
    [discriminate|discriminate|reflexivity|reflexivity|reflexivity|reflexivity
    |discriminate|reflexivity|discriminate|reflexivity|reflexivity|reflexivity
    |reflexivity|vm_compute; reflexivity].
Defined.

(** X15 on that copy. *)
Lemma export_needs_the_master_key_witness :
  let w := Demo.world (Some Samples.readOnlyCopy) [] in
  HDPublicKey None = None
  /\ stored w = Some Samples.readOnlyCopy
  /\ Data.xPrivKey Samples.readOnlyCopy = None
  /\ run (export (Some "readonly")) w <> (Called None (RText "[]"), w).
Proof.
  cbv zeta. split_and!; [reflexivity..|].
  apply (export_needs_the_master_key (Some "readonly")
           (Demo.world (Some Samples.readOnlyCopy) [])
           (Demo.world (Some Samples.readOnlyCopy) [])
           Samples.readOnlyCopy (RText "[]")); reflexivity.
Defined.

(** X16 on a message, no message and the empty message. *)
Lemma messages_round_trip_witness :
  let key := Some "sek(prv-wallet)" in
  let msgs := [Some "rent"; None; Some ""] in
  let txps := [Samples.withMessage (Some (encryptMessage "rent" key));
               Samples.withMessage None; Samples.withMessage None] in
  Forall (fun msg => forall s, msg = Some s -> s <> "" ->
            encryptMessage s key <> ""
            /\ decryptMessage (encryptMessage s key) key = Some s) msgs
  /\ map message txps = map (fun msg => _encryptMessage msg key) msgs
  /\ map message (_processTxps txps key) = [Some "rent"; Some ""; Some ""]
  /\ map encryptedMessage (_processTxps txps key) = map message txps.
Proof.
  cbv zeta.
  assert (F : Forall (fun msg => forall s, msg = Some s -> s <> "" ->
                        encryptMessage s (Some "sek(prv-wallet)") <> ""
                        /\ decryptMessage (encryptMessage s (Some "sek(prv-wallet)"))
                             (Some "sek(prv-wallet)") = Some s)
                [Some "rent"; None; Some ""]).
  { rewrite !Forall_cons. split_and!; try (by apply Forall_nil);
      intros s E NE; simplify_eq; done. }
  split; [exact F|]. split; [reflexivity|].
  apply (messages_round_trip (Some "sek(prv-wallet)") [Some "rent"; None; Some ""]
           [Samples.withMessage (Some (encryptMessage "rent" (Some "sek(prv-wallet)")));
            Samples.withMessage None; Samples.withMessage None]);
    [exact F|reflexivity].
Defined.

(** X17 on a proposal whose second input has no key. *)
Lemma failed_derivation_signs_nothing_witness :
  let w := Demo.world (Some Demo.complete) [Demo.accepted] in
  let w1 := with_log [EvLoad] w in
  truthy_str (creatorId Samples.underivable) = true
  /\ _loadAndCheck w = (Next Demo.complete, w1)
  /\ checkTxProposal Demo.complete Samples.underivable = true
  /\ addressNetwork (toAddress Samples.underivable) = Some "livenet"
  /\ HDPrivateKey (Data.xPrivKey Demo.complete) (Some "livenet") = Some "xprv-a"
  /\ Exists (fun i => inherited (path i) = false /\ derive "xprv-a" (path i) = None)
       (inputs Samples.underivable)
  /\ exists paths,
       run (signTxProposal Samples.underivable) w
       = (Threw (LibraryError "derive"),
          with_log (log w1 ++ map (EvDerive "xprv-a") paths) w1).
Proof.
  cbv zeta.
  assert (X : Exists (fun i => inherited (path i) = false
                             /\ derive "xprv-a" (path i) = None)
                (inputs Samples.underivable)).
  { apply Exists_cons_tl, Exists_cons_hd. split; reflexivity. }
  split_and!; [reflexivity..|exact X|].
  apply (failed_derivation_signs_nothing Samples.underivable
           (Demo.world (Some Demo.complete) [Demo.accepted])
           (with_log [EvLoad] (Demo.world (Some Demo.complete) [Demo.accepted]))
           Demo.complete "livenet" "xprv-a"); [reflexivity..|exact X].
Defined.

(** X18 on Alice's wallet after the repair of its ring. *)
Lemma check_after_check_witness :
  let w := Demo.world (Some Demo.incomplete) [Demo.completeOnServer] in
  let d := adopt (map Demo.copayerOf ["xpub-b"; "xpub-a"]) Demo.incomplete in
  let w1 := (_loadAndCheck w).2 in
  let w2 := Demo.world (Some d) [] in
  (forall copayers walletPrivKey xPrivKey n,
     checkCopayers copayers walletPrivKey xPrivKey n = true ->
     n = Some (Z.of_nat (length copayers)))
  /\ _loadAndCheck w = (Next d, w1)
  /\ truthy_num (Data.m d) = true
  /\ loadErr w2 = None
  /\ stored w2 = stored w1
  /\ _loadAndCheck w2 = (Next d, with_log (log w2 ++ [EvLoad]) w2).
Proof.
  cbv zeta. split_and!; [exact accepted_copayers_are_n|reflexivity..|].
  apply (check_after_check
           (Demo.world (Some Demo.incomplete) [Demo.completeOnServer])
           (_loadAndCheck (Demo.world (Some Demo.incomplete) [Demo.completeOnServer])).2
           (Demo.world
              (Some (adopt (map Demo.copayerOf ["xpub-b"; "xpub-a"]) Demo.incomplete)) [])
           (adopt (map Demo.copayerOf ["xpub-b"; "xpub-a"]) Demo.incomplete));
    [exact accepted_copayers_are_n|reflexivity..].
Defined.

(** X19 on Alice joining the wallet of [b]. *)
Lemma joinWallet_takes_m_and_n_from_the_reply_witness :
  let w := Demo.world None [Demo.completeOnServer] in
  let secretData :=
    {| secretWalletId := "w42"; secretWalletPrivKey := "prv-wallet";
       secretNetwork := "livenet" |} in
  let d :=
    Data.mk (Some "id(xpub-seed0)") (Some "xprv-seed0") (Some ["xpub-seed0"])
      (Some "livenet") (Some 2%Z) (Some 2%Z) (Some "prv-seed0/m/1/0")
      (Some "prv-seed0/m/1/1") (Some "prv-wallet") (Some "sek(prv-wallet)") in
  stored w = None /\ saveErr w = None
  /\ fromSecret "w42" = Some secretData
  /\ HDPublicKey (Some "xprv-seed0") = Some "xpub-seed0"
  /\ derive "xprv-seed0" "m/1/0" = Some "prv-seed0/m/1/0"
  /\ derive "xprv-seed0" "m/1/1" = Some "prv-seed0/m/1/1"
  /\ replies w = [Demo.completeOnServer]
  /\ exists w',
       run (joinWallet "w42" "alice") w = (Called None RNothing, w')
       /\ stored w' = Some d.
Proof.
  cbv zeta. split_and!; [reflexivity..|].
  destruct (joinWallet_takes_m_and_n_from_the_reply "w42" "alice"
              (Demo.world None [Demo.completeOnServer])
              {| secretWalletId := "w42"; secretWalletPrivKey := "prv-wallet";
                 secretNetwork := "livenet" |}
              "xpub-seed0" "prv-seed0/m/1/0" "prv-seed0/m/1/1"
              (Demo.serverWallet "complete" ["xpub-b"; "xpub-a"]) (Some []) [])
    as (w' & R & S & _); [reflexivity..|].
  exists w'. split; [exact R|exact S].
Defined.

(** X20 on Alice's complete wallet: one join per key of the ring. *)
Lemma reCreateWallet_joins_every_key_witness :
  let joins := [Demo.completeOnServer; Demo.completeOnServer] in
  let w := Demo.world (Some Demo.complete) (Samples.createdOnServer :: joins) in
  let w1 := with_log [EvLoad] w in
  _loadAndCheck w = (Next Demo.complete, w1)
  /\ Data.publicKeyRing Demo.complete = Some Demo.ring2
  /\ replies w1 = Samples.createdOnServer :: joins ++ []
  /\ body_walletId (BCreated "w9") = Some (Some "w9")
  /\ length joins = length Demo.ring2
  /\ Forall (fun reply => exists b, reply = Response 200 b /\ is_Some (body_wallet b)) joins
  /\ exists w',
       run (reCreateWallet "ours") w = (Called None RNothing, w')
       /\ stored w' = stored w1
       /\ replies w' = [].
Proof.
  cbv zeta.
  assert (F : Forall (fun reply => exists b, reply = Response 200 b /\ is_Some (body_wallet b))
                [Demo.completeOnServer; Demo.completeOnServer]).
  { repeat constructor; eexists; (split; [reflexivity|by eexists]). }
  split_and!; [reflexivity..|exact F|].
  destruct (reCreateWallet_joins_every_key "ours"
              (Demo.world (Some Demo.complete)
                 [Samples.createdOnServer; Demo.completeOnServer; Demo.completeOnServer])
              (with_log [EvLoad]
                 (Demo.world (Some Demo.complete)
                    [Samples.createdOnServer; Demo.completeOnServer; Demo.completeOnServer]))
              Demo.complete Demo.ring2 (BCreated "w9") (Some "w9")
              [Demo.completeOnServer; Demo.completeOnServer] [])
    as (w' & R & S & Rp & _); [reflexivity..|exact F|].
  exists w'. split_and!; [exact R|exact S|exact Rp].
Defined.

(** X21 on Alice rejecting the proposal. *)
Lemma rejection_sends_the_reason_encrypted_witness :
  let w := Demo.world (Some Demo.complete) [Demo.accepted] in
  let w1 := with_log [EvLoad] w in
  _loadAndCheck w = (Next Demo.complete, w1)
  /\ exists out w2,
       run (rejectTxProposal Demo.proposal (Some "too much")) w = (out, w2)
       /\ stored w2 = stored w1
       /\ log w2 = log w1
                   ++ [EvRequest
                         (requestArgs (baseUrl w1) (basePath w1) "post"
                            "/v1/txproposals/txp1/rejections/"
                            (JObj [("reason", JStr "enc(sek(prv-wallet))too much")])
                            Demo.complete)]
       /\ out = Called None (RBody (BJson (JObj []))).
Proof.
  cbv zeta. split; [reflexivity|].
  destruct (rejection_sends_the_reason_encrypted Demo.proposal (Some "too much")
              (Demo.world (Some Demo.complete) [Demo.accepted])
              (with_log [EvLoad] (Demo.world (Some Demo.complete) [Demo.accepted]))
              Demo.complete)
    as (out & w2 & R & S & L & O); [reflexivity|].
  exists out, w2. split_and!; [exact R|exact S|exact L|].
  apply (O (BJson (JObj [])) []). reflexivity.
Defined.

(** X22 on a proposal with the paths [constructor] and [toString]. *)
Lemma inherited_paths_are_not_signed_witness :
  let w := Demo.world (Some Demo.complete) [Demo.accepted] in
  let w1 := with_log [EvLoad] w in
  truthy_str (creatorId Samples.inheritedPaths) = true
  /\ _loadAndCheck w = (Next Demo.complete, w1)
  /\ checkTxProposal Demo.complete Samples.inheritedPaths = true
  /\ addressNetwork (toAddress Samples.inheritedPaths) = Some "livenet"
  /\ HDPrivateKey (Data.xPrivKey Demo.complete) (Some "livenet") = Some "xprv-a"
  /\ Forall (fun i => inherited (path i) = true) (inputs Samples.inheritedPaths)
  /\ exists out w2,
       run (signTxProposal Samples.inheritedPaths) w = (out, w2)
       /\ log w2 = log w1
                   ++ [EvRequest
                         (requestArgs (baseUrl w1) (basePath w1) "post"
                            "/v1/txproposals/txp1/signatures/"
                            (JObj [("signatures", JArr [])]) Demo.complete)]
       /\ out = Called None (RBody (BJson (JObj []))).
Proof.
  cbv zeta.
  assert (O : Forall (fun i => inherited (path i) = true)
                (inputs Samples.inheritedPaths)).
  { repeat constructor. }
  split_and!; [reflexivity..|exact O|].
  destruct (inherited_paths_are_not_signed Samples.inheritedPaths
              (Demo.world (Some Demo.complete) [Demo.accepted])
              (with_log [EvLoad] (Demo.world (Some Demo.complete) [Demo.accepted]))
              Demo.complete "livenet" "xprv-a")
    as (out & w2 & R & L & OK); [reflexivity..|exact O|].
  exists out, w2. split_and!; [exact R|exact L|].
  apply (OK (BJson (JObj [])) []). reflexivity.
Defined.

(** X23 on an export that names the network where the key should be. *)
Lemma import_of_a_network_name_witness :
  let w := Demo.world None [] in
  let str := JSON_stringify (JArr Samples.namedExport) in
  let d0 :=
    Data.mk None (Some "livenet") (Some ["xpub-b"]) None (Some 2%Z) None None None None
      (Some "sek(prv-wallet)") in
  let d :=
    Data.mk (Some "id(xpub-seed0)") (Some "livenet") (Some ["xpub-seed0"; "xpub-b"])
      (Some "livenet") (Some 2%Z) (Some 2%Z) (Some "prv-seed0/m/1/0")
      (Some "prv-seed0/m/1/1") None (Some "sek(prv-wallet)") in
  stored w = None /\ saveErr w = None
  /\ JSON_parse str = Some (JArr Samples.namedExport)
  /\ readData Samples.namedExport = Some d0
  /\ networkName (Some "livenet") = true
  /\ HDPrivateKey (Some "livenet") None = None
  /\ HDPublicKey (Some "xprv-seed0") = Some "xpub-seed0"
  /\ exists w',
       run (import str) w = (Called None (RText "full"), w')
       /\ stored w' = Some d
       /\ log w' = [EvLoad; EvGenerateKey; EvDerive "xprv-seed0" "m/1/0";
                    EvDerive "xprv-seed0" "m/1/1"; EvSave d].
Proof.
  cbv zeta. split_and!; [reflexivity|reflexivity|vm_compute; reflexivity|reflexivity..|].
  destruct (import_of_a_network_name (JSON_stringify (JArr Samples.namedExport)) "livenet"
              (Demo.world None []) Samples.namedExport
              (Data.mk None (Some "livenet") (Some ["xpub-b"]) None (Some 2%Z) None None
                 None None (Some "sek(prv-wallet)"))
              "xpub-seed0" "prv-seed0/m/1/0" "prv-seed0/m/1/1" ["xpub-b"])
    as (w' & R & S & L);
    [reflexivity|reflexivity|vm_compute; reflexivity|reflexivity..|discriminate|].
  exists w'. split_and!; [exact R|exact S|exact L].
Defined.
